(** * PB-Invoices: invoice totals, pagination, chunked persistence and the
      dual-backend store

    A shallow embedding of the TypeScript sources.
    - [src/types.ts]: the data model, followed by the preview component
      ([InvoicePreview]) with the paginator and its copy of the totals.
    - [src/components/InvoiceEditor.tsx]: the per-item image handlers and
      the editor's totals.
    - [src/components/InvoicesListView.tsx] and the dashboard component
      ([DashboardStats], [src/unnamed/part_002]): two more copies of the
      totals.
    - The application component ([App], [src/unnamed/part_001]): the
      handlers that persist to [localStorage] and to Firestore.
    - [src/firebaseConfig.ts]: [isConfigured].

    Conventions of the embedding.
    - A JavaScript [number] that carries money, a rate or a quantity is an
      IEEE-754 double: Rocq's primitive [float], whose operations round to
      the nearest double as JavaScript's do; there is one NaN.  Heights of
      the paginator are small integers, on which doubles are exact; they
      are kept in [Z].
    - A JavaScript array is a [list]; [Array.prototype.reduce] is
      [fold_left], [forEach] with mutated variables is [fold_left] over the
      record of those variables.
    - An optional field ([pages?: number]) is an [option].
    - [Record<string, string[]>] used as a dictionary is a [gmap]; where
      the dictionary is an object literal, the members it inherits from
      [Object.prototype] are accounted for (see [PlainObject]).
    - Handlers run one at a time: an action is taken up when the previous
      one has completed, including what it awaits. *)

From Stdlib Require Import String Ascii List ZArith QArith Qround Lia Bool.
From Stdlib Require Import DecimalString DecimalNat Floats.
From stdpp Require Import gmap strings.
Import ListNotations.

Local Open Scope string_scope.
Local Open Scope list_scope.

(** ** Data model ([types.ts]) *)

Module InvoiceItem.
Record t : Type := mk {
  id : string;
  description : string;
  quantity : float;
  price : float;
  images : list string;
  pages : option float
}.
End InvoiceItem.

Module Client.
Record t : Type := mk {
  id : string;
  name : string;
  company : string;
  address : string;
  email : string;
  phone : string
}.
End Client.

Inductive ProjectStatus : Type :=
| NotStarted | InProgress | PendingReview | Completed.

Module Project.
Record t : Type := mk {
  id : string;
  title : string;
  clientId : string;
  clientName : string;
  status : ProjectStatus;
  dueDate : string;
  description : string;
  progress : float
}.
End Project.

Inductive InvoiceStatus : Type := DRAFT | PENDING | PAID | OVERDUE.

Record BankDetails : Type := mkBank {
  bankName : string;
  accountName : string;
  accountNumber : string;
  branch : string
}.

Module InvoiceData.
Record t : Type := mk {
  id : string;
  invoiceNumber : string;
  date : string;
  dueDate : string;
  projectId : option string;
  client : Client.t;
  items : list InvoiceItem.t;
  taxRate : float;
  discount : float;
  status : InvoiceStatus;
  bankDetails : BankDetails
}.
End InvoiceData.

Record AppSettings : Type := mkSettings {
  businessName : string;
  businessAddress : string;
  contactEmail : string;
  businessLogo : option string;
  defaultBank : BankDetails;
  defaultImagePrice : float
}.

(** [{ ...item, images: v }] and [{ ...item, quantity: v }]. *)
Definition with_images (v : list string) (item : InvoiceItem.t) : InvoiceItem.t :=
  InvoiceItem.mk (InvoiceItem.id item) (InvoiceItem.description item)
    (InvoiceItem.quantity item) (InvoiceItem.price item) v (InvoiceItem.pages item).

Definition with_quantity (v : float) (item : InvoiceItem.t) : InvoiceItem.t :=
  InvoiceItem.mk (InvoiceItem.id item) (InvoiceItem.description item)
    v (InvoiceItem.price item) (InvoiceItem.images item) (InvoiceItem.pages item).

Definition with_pages (v : option float) (item : InvoiceItem.t) : InvoiceItem.t :=
  InvoiceItem.mk (InvoiceItem.id item) (InvoiceItem.description item)
    (InvoiceItem.quantity item) (InvoiceItem.price item) (InvoiceItem.images item) v.

(** [{ ...invoice, items: v }]. *)
Definition with_items (v : list InvoiceItem.t) (inv : InvoiceData.t) : InvoiceData.t :=
  InvoiceData.mk (InvoiceData.id inv) (InvoiceData.invoiceNumber inv)
    (InvoiceData.date inv) (InvoiceData.dueDate inv) (InvoiceData.projectId inv)
    (InvoiceData.client inv) v (InvoiceData.taxRate inv) (InvoiceData.discount inv)
    (InvoiceData.status inv) (InvoiceData.bankDetails inv).

(** A number coming from [array.length] (below [2^32], where the
    conversion is exact). *)
Definition number_of_nat (n : nat) : float :=
  PrimFloat.of_uint63 (Uint63.of_Z (Z.of_nat n)).

(** [!x] on a number: [0], [-0] and [NaN] are the falsy numbers. *)
Definition falsy (x : float) : bool := is_zero x || is_nan x.

(** [x || 0] on a number. *)
Definition or_zero (x : float) : float := if falsy x then 0%float else x.

(** The exact value of a finite double, as a rational; [0] for the
    infinities and for NaN, which have none. *)
Definition exactValue (x : float) : Q :=
  match Prim2SF x with
  | S754_finite s m e =>
      (inject_Z (if s then Z.neg m else Z.pos m) * Qpower 2 e)%Q
  | _ => 0%Q
  end.

(** A value of the specification of doubles that is an infinity or a
    finite number other than zero, of sign [s]. *)
Definition signedNonzero (s : bool) (x : spec_float) : Prop :=
  x = S754_infinity s \/ exists m e, x = S754_finite s m e.

(** ** Financial calculator

    The same three lines appear in four components; each copy is embedded
    from its own source.  [reduce f init xs] is [xs.reduce(f, init)]. *)

Definition reduce {A B : Type} (f : B -> A -> B) (init : B) (xs : list A) : B :=
  fold_left f xs init.

Module Calculator.

Local Open Scope float_scope.

(** [InvoiceEditor.tsx], lines 191-193. *)
Module InvoiceEditor.
Definition subtotal (data : InvoiceData.t) : float :=
  reduce (fun acc item => acc + InvoiceItem.price item * InvoiceItem.quantity item)
    0 (InvoiceData.items data).
Definition taxAmount (data : InvoiceData.t) : float :=
  subtotal data * (InvoiceData.taxRate data / 100).
Definition total (data : InvoiceData.t) : float :=
  subtotal data + taxAmount data - or_zero (InvoiceData.discount data).
End InvoiceEditor.

(** The preview component, lines 179-181. *)
Module InvoicePreview.
Definition subtotal (data : InvoiceData.t) : float :=
  reduce (fun acc item => acc + InvoiceItem.price item * InvoiceItem.quantity item)
    0 (InvoiceData.items data).
Definition taxAmount (data : InvoiceData.t) : float :=
  subtotal data * (InvoiceData.taxRate data / 100).
Definition total (data : InvoiceData.t) : float :=
  subtotal data + taxAmount data - or_zero (InvoiceData.discount data).
End InvoicePreview.

(** [InvoicesListView.tsx], [calculateTotal]. *)
Module InvoicesListView.
Definition calculateTotal (inv : InvoiceData.t) : float :=
  let subtotal :=
    reduce (fun acc item => acc + InvoiceItem.price item * InvoiceItem.quantity item)
      0 (InvoiceData.items inv) in
  let taxAmount := subtotal * (InvoiceData.taxRate inv / 100) in
  subtotal + taxAmount - or_zero (InvoiceData.discount inv).
End InvoicesListView.

(** The dashboard component, [calculateInvoiceTotal]. *)
Module DashboardStats.
Definition calculateInvoiceTotal (inv : InvoiceData.t) : float :=
  let subtotal :=
    reduce (fun acc item => acc + InvoiceItem.price item * InvoiceItem.quantity item)
      0 (InvoiceData.items inv) in
  let taxAmount := subtotal * (InvoiceData.taxRate inv / 100) in
  subtotal + taxAmount - or_zero (InvoiceData.discount inv).
End DashboardStats.

(** The specification's side, read as arithmetic on the values of the
    numbers: [subtotal = Σ (item.price * item.quantity)] and
    [total = subtotal + subtotal*taxRate/100 - discount]. *)
Fixpoint spec_subtotal (items : list InvoiceItem.t) : Q :=
  match items with
  | [] => 0%Q
  | item :: rest =>
      (exactValue (InvoiceItem.price item) * exactValue (InvoiceItem.quantity item)
       + spec_subtotal rest)%Q
  end.

Definition spec_total (items : list InvoiceItem.t) (taxRate discount : Q) : Q :=
  (spec_subtotal items + spec_subtotal items * taxRate / 100 - discount)%Q.

(** The same formula in the arithmetic of the program: the line totals are
    added one after the other to a sum that starts at [0], the rate is
    divided by [100] before it multiplies the subtotal, a falsy discount
    counts as [0], and the result of every operation is rounded to the
    nearest double. *)
Fixpoint sumFrom (start : float) (terms : list float) : float :=
  match terms with
  | [] => start
  | term :: rest => sumFrom (start + term) rest
  end.

Definition lineTotal (item : InvoiceItem.t) : float :=
  InvoiceItem.price item * InvoiceItem.quantity item.

Definition rounded_subtotal (items : list InvoiceItem.t) : float :=
  sumFrom 0 (map lineTotal items).


(** The formula as an expression of the program's language would evaluate
    it: [subtotal * taxRate / 100] multiplies before it divides. *)
Definition literal_total (items : list InvoiceItem.t) (taxRate discount : float)
    : float :=
  let subtotal := rounded_subtotal items in
  subtotal + subtotal * taxRate / 100 - discount.

End Calculator.

(** ** Paginator (the [pages] memo of the preview component)

    The constants are the ones of the source.  [forEach] mutates
    [chunkedPages], [currentPageItems] and [currentHeight]; the loop body is
    [paginate_step] on that triple. *)

Module Paginator.

Definition PAGE_HEIGHT_ESTIMATE : Z := 1050.
Definition HEADER_HEIGHT : Z := 200.
Definition FOOTER_HEIGHT : Z := 140.
Definition ITEM_BASE_HEIGHT : Z := 45.
Definition ITEM_IMAGE_ROW_HEIGHT : Z := 160.
(** The literal [80] that [currentHeight] is reset to on a page break. *)
Definition TOP_MARGIN : Z := 80.

(** [Math.ceil(item.images.length / 5)]: the ceiling of the quotient, which
    the rounding of the division does not change for any array length. *)
Definition imageRows (item : InvoiceItem.t) : Z :=
  Qceiling (inject_Z (Z.of_nat (length (InvoiceItem.images item))) / 5).

Definition itemHeight (item : InvoiceItem.t) : Z :=
  ITEM_BASE_HEIGHT + imageRows item * ITEM_IMAGE_ROW_HEIGHT.

Record LoopState : Type := mkLoop {
  chunkedPages : list (list InvoiceItem.t);
  currentPageItems : list InvoiceItem.t;
  currentHeight : Z
}.

Definition paginate_step (st : LoopState) (item : InvoiceItem.t) : LoopState :=
  let st1 :=
    if (currentHeight st + itemHeight item >? PAGE_HEIGHT_ESTIMATE)%Z
    then mkLoop (chunkedPages st ++ [currentPageItems st]) [] TOP_MARGIN
    else st in
  mkLoop (chunkedPages st1) (currentPageItems st1 ++ [item])
         (currentHeight st1 + itemHeight item).

Definition paginate_loop (items : list InvoiceItem.t) : LoopState :=
  fold_left paginate_step items (mkLoop [] [] HEADER_HEIGHT).

(** The pages before the footer check: the closed pages and, when it is not
    empty, the page under construction. *)
Definition itemPages (items : list InvoiceItem.t) : list (list InvoiceItem.t) :=
  let st := paginate_loop items in
  if (0 <? length (currentPageItems st))%nat
  then chunkedPages st ++ [currentPageItems st]
  else chunkedPages st.

(** [currentHeight] when the loop has ended. *)
Definition finalHeight (items : list InvoiceItem.t) : Z :=
  currentHeight (paginate_loop items).

Definition pages (items : list InvoiceItem.t) : list (list InvoiceItem.t) :=
  if (finalHeight items + FOOTER_HEIGHT >? PAGE_HEIGHT_ESTIMATE)%Z
  then itemPages items ++ [[]]
  else itemPages items.

(** The estimate the claims speak of: the height a page starts with (the
    header on the first page, the top margin on the later ones) plus the
    heights of its items. *)
Definition pageStart (pageIndex : nat) : Z :=
  match pageIndex with O => HEADER_HEIGHT | S _ => TOP_MARGIN end.

Definition itemsHeight (page : list InvoiceItem.t) : Z :=
  fold_right (fun item acc => (itemHeight item + acc)%Z) 0%Z page.

Definition pageHeight (pageIndex : nat) (page : list InvoiceItem.t) : Z :=
  (pageStart pageIndex + itemsHeight page)%Z.

(** Everything placed so far by the loop, in page order. *)
Definition placed (st : LoopState) : list InvoiceItem.t :=
  concat (chunkedPages st) ++ currentPageItems st.

(** A page is within the budget, or it is a later page made of one item
    that does not fit under the top margin. *)
Definition withinBudgetOrAlone (pageIndex : nat) (page : list InvoiceItem.t) : Prop :=
  (pageHeight pageIndex page <= PAGE_HEIGHT_ESTIMATE)%Z
  \/ exists item, page = [item] /\ pageIndex <> O
       /\ (TOP_MARGIN + itemHeight item > PAGE_HEIGHT_ESTIMATE)%Z.

(** An item that does not fit on a page of its own under the top margin
    is alone on its page. *)
Definition tallItemsAlone (page : list InvoiceItem.t) : Prop :=
  forall item, In item page ->
    (TOP_MARGIN + itemHeight item > PAGE_HEIGHT_ESTIMATE)%Z -> page = [item].

Definition pageOK (pageIndex : nat) (page : list InvoiceItem.t) : Prop :=
  withinBudgetOrAlone pageIndex page /\ tallItemsAlone page.

(** The estimate of the page that the footer follows: the last of the item
    pages, or the bare header when there is none. *)
Definition lastPageHeight (itemPages : list (list InvoiceItem.t)) : Z :=
  match rev itemPages with
  | [] => HEADER_HEIGHT
  | page :: before => pageHeight (length before) page
  end.

(** The loop invariant behind the height bound. *)
Definition heightInvariant (st : LoopState) : Prop :=
  (forall (pageIndex : nat) (page : list InvoiceItem.t),
      chunkedPages st !! pageIndex = Some page -> pageOK pageIndex page)
  /\ currentHeight st
     = pageHeight (length (chunkedPages st)) (currentPageItems st)
  /\ pageOK (length (chunkedPages st)) (currentPageItems st).

(** An invoice item that only matters through its images. *)
Definition itemWithImages (id : string) (count : nat) : InvoiceItem.t :=
  InvoiceItem.mk id "" 1 1500 (repeat "data:image/jpeg;base64," count) None.

End Paginator.

(** ** Editor ([components/InvoiceEditor.tsx])

    The two per-item image handlers.  Processing an uploaded file
    ([processImageFile]) is outside the embedding: a file is represented by
    the outcome of processing it, [Some url] or [None] when the promise is
    rejected. *)

Module Editor.

(** [Promise.all(files.map(processImageFile))]: all outcomes in input order,
    or a rejection as soon as one file fails. *)
Fixpoint promise_all (outcomes : list (option string)) : option (list string) :=
  match outcomes with
  | [] => Some []
  | None :: _ => None
  | Some url :: rest =>
      match promise_all rest with
      | Some urls => Some (url :: urls)
      | None => None
      end
  end.

(** The updater given to [setData] by [handleAddImageToItem]. *)
Definition addImagesUpdater (itemId : string) (newUrls : list string)
    (prev : InvoiceData.t) : InvoiceData.t :=
  with_items
    (map (fun item =>
            if String.eqb (InvoiceItem.id item) itemId then
              let newImages := InvoiceItem.images item ++ newUrls in
              with_quantity (number_of_nat (length newImages))
                (with_images newImages item)
            else item)
         (InvoiceData.items prev))
    prev.

Definition handleAddImageToItem (itemId : string) (files : list (option string))
    (data : InvoiceData.t) : InvoiceData.t :=
  if (0 <? length files)%nat then
    match promise_all files with
    | Some newUrls => addImagesUpdater itemId newUrls data
    | None => data
    end
  else data.

(** [xs.filter((x, i) => p(x, i))], with [i] counted from [start]. *)
Fixpoint filter_indexed {A : Type} (p : A -> nat -> bool) (start : nat)
    (xs : list A) : list A :=
  match xs with
  | [] => []
  | x :: rest =>
      if p x start then x :: filter_indexed p (S start) rest
      else filter_indexed p (S start) rest
  end.

Definition handleRemoveImageFromItem (itemId : string) (imageIndex : nat)
    (prev : InvoiceData.t) : InvoiceData.t :=
  with_items
    (map (fun item =>
            if String.eqb (InvoiceItem.id item) itemId then
              let newImages :=
                filter_indexed (fun _ i => negb (Nat.eqb i imageIndex)) 0
                  (InvoiceItem.images item) in
              with_quantity (number_of_nat (Nat.max 1 (length newImages)))
                (with_images newImages item)
            else item)
         (InvoiceData.items prev))
    prev.

(** The fields of an item that the image handlers leave alone. *)
Definition sameOtherFields (item item' : InvoiceItem.t) : Prop :=
  InvoiceItem.id item' = InvoiceItem.id item
  /\ InvoiceItem.description item' = InvoiceItem.description item
  /\ InvoiceItem.price item' = InvoiceItem.price item
  /\ InvoiceItem.pages item' = InvoiceItem.pages item.

(** The specification's side of a removal: the sequence without its element
    at position [imageIndex]. *)
Definition without_index {A : Type} (imageIndex : nat) (xs : list A) : list A :=
  firstn imageIndex xs ++ skipn (S imageIndex) xs.

(** What adding [newUrls] does to one item. *)
Definition addedTo (itemId : string) (newUrls : list string)
    (item item' : InvoiceItem.t) : Prop :=
  (InvoiceItem.id item = itemId ->
     InvoiceItem.images item' = InvoiceItem.images item ++ newUrls
     /\ InvoiceItem.quantity item' = number_of_nat (length (InvoiceItem.images item'))
     /\ sameOtherFields item item')
  /\ (InvoiceItem.id item <> itemId -> item' = item).

(** What removing the image at [imageIndex] does to one item. *)
Definition removedFrom (itemId : string) (imageIndex : nat)
    (item item' : InvoiceItem.t) : Prop :=
  (InvoiceItem.id item = itemId ->
     InvoiceItem.images item' = without_index imageIndex (InvoiceItem.images item)
     /\ InvoiceItem.quantity item'
        = number_of_nat (Nat.max 1 (length (InvoiceItem.images item')))
     /\ (length (InvoiceItem.images item) = 1%nat -> imageIndex = O ->
         InvoiceItem.images item' = [] /\ InvoiceItem.quantity item' = 1%float)
     /\ sameOtherFields item item')
  /\ (InvoiceItem.id item <> itemId -> item' = item).

End Editor.

(** ** Plain objects used as maps

    [imageMap] ([fetchInvoiceImages]) and [monthlyData] ([chartData]) are
    object literals [{}].  Reading such an object at a key that names a
    member of [Object.prototype] yields the inherited member, a function or
    an object, instead of [undefined]; at every other key the object is the
    finite map of the keys that were assigned.  [plainKey] tells the keys of
    the second kind. *)

Module PlainObject.

Definition inheritedMembers : list string :=
  ["constructor"; "hasOwnProperty"; "isPrototypeOf"; "propertyIsEnumerable";
   "toLocaleString"; "toString"; "valueOf"; "__proto__";
   "__defineGetter__"; "__defineSetter__"; "__lookupGetter__"; "__lookupSetter__"].

Definition plainKey (key : string) : bool :=
  negb (existsb (String.eqb key) inheritedMembers).

End PlainObject.

(** ** The application component ([App.tsx])

    React state, [localStorage] and a log of what the handlers do to the
    outside world are one record.  A handler is a state transformer; it
    reads the values of its closure (the state of the last render) through
    [render].  What the outside world answers is not computed, it is an
    argument of the handler: a [Reply] for what Firestore answers,
    [Resolved] or [Rejected] with the error that was thrown, and a [Quota]
    for what the browser does with the [localStorage.setItem] calls of one
    [syncToLocalStorage], which it accepts or of which one throws
    ([QuotaExceededError]).

    [localStorage] is recorded through what [JSON.parse] returns for the
    text under each key.  [syncToLocalStorage] records the values it is
    given: [JSON.parse (JSON.stringify v)] is [v] for the data of this
    model whose numbers are finite and not [-0] ([jsonExact]); for other
    numbers the text holds [null] or [0], which the records do not
    represent, and the properties that speak of what the store holds after
    a write say so. *)

Module App.

Inductive ViewState : Type :=
| DASHBOARD | INVOICES_LIST | CREATE_INVOICE | PREVIEW_INVOICE
| PROJECTS | CLIENTS | SETTINGS.

(** A child record of [invoices/{id}/invoiceImages]: its document id and
    its [{ data }] payload. *)
Record ImageDoc : Type := mkImageDoc {
  doc_id : string;
  doc_data : string
}.

(** A thrown value: only its [message] is inspected. *)
Record JsError : Type := mkError { message : option string }.

Inductive Reply (A : Type) : Type :=
| Resolved (value : A)
| Rejected (e : JsError).
Arguments Resolved {A} value.
Arguments Rejected {A} e.

(** The four collections, as [syncToLocalStorage] receives them. *)
Record Snapshot : Type := mkSnapshot {
  snap_invoices : list InvoiceData.t;
  snap_clients : list Client.t;
  snap_projects : list Project.t;
  snap_settings : AppSettings
}.

(** The four keys of [localStorage]; [None] is a key that was never set. *)
Record LocalStorage : Type := mkLocal {
  pb_invoices : option (list InvoiceData.t);
  pb_clients : option (list Client.t);
  pb_projects : option (list Project.t);
  pb_settings : option AppSettings
}.

Inductive StorageKey : Type := PbInvoices | PbClients | PbProjects | PbSettings.

(** What the browser does with the four [setItem] calls of one
    [syncToLocalStorage]: it accepts them all, or the call for one key
    throws, the calls before it having been made. *)
Inductive Quota : Type :=
| Accepted
| Exceeded (key : StorageKey).

(** Every call that goes to Firestore. *)
Inductive RemoteCall : Type :=
| GetCollections
| SeedSettings (defaults : AppSettings)
| GetInvoiceImages (invoiceId : string)
| DeleteInvoiceDoc (invoiceId : string)
| BatchCommit (invoiceId : string) (lightweight : InvoiceData.t)
              (imageWrites : list ImageDoc)
| SetSettingsDoc (newSettings : AppSettings)
| SetClientDoc (newClient : Client.t)
| SetProjectDoc (newProject : Project.t).

Inductive Event : Type :=
| LocalStorageWrite (snap : Snapshot)
| Remote (call : RemoteCall)
| Alert (text : string).

Record AppState : Type := mkState {
  currentView : ViewState;
  invoices : list InvoiceData.t;
  clients : list Client.t;
  projects : list Project.t;
  appSettings : AppSettings;
  activeInvoice : option InvoiceData.t;
  loading : bool;
  isOffline : bool;
  localStorage : LocalStorage;
  log : list Event
}.

Definition defaultAppSettings : AppSettings :=
  mkSettings "PB Creative" "" "" (Some "") (mkBank "Sampath Bank" "" "" "") 1500.

(** *** The handler monad *)

Definition M (A : Type) : Type := AppState -> A * AppState.

Definition ret {A : Type} (a : A) : M A := fun st => (a, st).

Definition bind {A B : Type} (m : M A) (k : A -> M B) : M B :=
  fun st => let '(a, st1) := m st in k a st1.

Declare Scope handler_scope.
Delimit Scope handler_scope with handler.
Notation "x <- m ;; k" := (bind m (fun x => k))
  (at level 100, m at next level, right associativity) : handler_scope.
Notation "m ;; k" := (bind m (fun _ => k))
  (at level 100, right associativity) : handler_scope.
Local Open Scope handler_scope.

(** The closure of a handler: the state as of the render that created it. *)
Definition render {A : Type} (body : AppState -> M A) : M A :=
  fun st => body st st.

Definition setCurrentView (v : ViewState) : M unit := fun st =>
  (tt, mkState v (invoices st) (clients st) (projects st) (appSettings st)
         (activeInvoice st) (loading st) (isOffline st) (localStorage st) (log st)).

Definition setInvoices (v : list InvoiceData.t) : M unit := fun st =>
  (tt, mkState (currentView st) v (clients st) (projects st) (appSettings st)
         (activeInvoice st) (loading st) (isOffline st) (localStorage st) (log st)).

Definition setClients (v : list Client.t) : M unit := fun st =>
  (tt, mkState (currentView st) (invoices st) v (projects st) (appSettings st)
         (activeInvoice st) (loading st) (isOffline st) (localStorage st) (log st)).

Definition setProjects (v : list Project.t) : M unit := fun st =>
  (tt, mkState (currentView st) (invoices st) (clients st) v (appSettings st)
         (activeInvoice st) (loading st) (isOffline st) (localStorage st) (log st)).

Definition setAppSettings (v : AppSettings) : M unit := fun st =>
  (tt, mkState (currentView st) (invoices st) (clients st) (projects st) v
         (activeInvoice st) (loading st) (isOffline st) (localStorage st) (log st)).

Definition setActiveInvoice (v : option InvoiceData.t) : M unit := fun st =>
  (tt, mkState (currentView st) (invoices st) (clients st) (projects st)
         (appSettings st) v (loading st) (isOffline st) (localStorage st) (log st)).

Definition setLoading (v : bool) : M unit := fun st =>
  (tt, mkState (currentView st) (invoices st) (clients st) (projects st)
         (appSettings st) (activeInvoice st) v (isOffline st) (localStorage st) (log st)).

Definition setIsOffline (v : bool) : M unit := fun st =>
  (tt, mkState (currentView st) (invoices st) (clients st) (projects st)
         (appSettings st) (activeInvoice st) (loading st) v (localStorage st) (log st)).

Definition setLocalStorage (v : LocalStorage) : M unit := fun st =>
  (tt, mkState (currentView st) (invoices st) (clients st) (projects st)
         (appSettings st) (activeInvoice st) (loading st) (isOffline st) v (log st)).

Definition emit (e : Event) : M unit := fun st =>
  (tt, mkState (currentView st) (invoices st) (clients st) (projects st)
         (appSettings st) (activeInvoice st) (loading st) (isOffline st)
         (localStorage st) (log st ++ [e])).

Definition alert (text : string) : M unit := emit (Alert text).

(** A Firestore call is issued; its outcome is the handler's [Reply]. *)
Definition firestore (call : RemoteCall) : M unit := emit (Remote call).

Definition when (b : bool) (m : M unit) : M unit := if b then m else ret tt.

(** *** Local storage *)

Definition sameKey (k1 k2 : StorageKey) : bool :=
  match k1, k2 with
  | PbInvoices, PbInvoices | PbClients, PbClients
  | PbProjects, PbProjects | PbSettings, PbSettings => true
  | _, _ => false
  end.

Definition throwsAt (quota : Quota) (key : StorageKey) : bool :=
  match quota with
  | Accepted => false
  | Exceeded k => sameKey k key
  end.

(** [localStorage.setItem(key, JSON.stringify(value))], one definition per
    key. *)
Definition setItem_invoices (v : list InvoiceData.t) : M unit := fun st =>
  setLocalStorage
    (mkLocal (Some v) (pb_clients (localStorage st)) (pb_projects (localStorage st))
       (pb_settings (localStorage st))) st.

Definition setItem_clients (v : list Client.t) : M unit := fun st =>
  setLocalStorage
    (mkLocal (pb_invoices (localStorage st)) (Some v) (pb_projects (localStorage st))
       (pb_settings (localStorage st))) st.

Definition setItem_projects (v : list Project.t) : M unit := fun st =>
  setLocalStorage
    (mkLocal (pb_invoices (localStorage st)) (pb_clients (localStorage st)) (Some v)
       (pb_settings (localStorage st))) st.

Definition setItem_settings (v : AppSettings) : M unit := fun st =>
  setLocalStorage
    (mkLocal (pb_invoices (localStorage st)) (pb_clients (localStorage st))
       (pb_projects (localStorage st)) (Some v)) st.

(** A [setItem] call followed by the rest of the function, unless the call
    throws: the result [false] is the exception on its way out. *)
Definition orThrow (quota : Quota) (key : StorageKey) (call : M unit) (rest : M bool)
    : M bool :=
  if throwsAt quota key then ret false else (call ;; rest).

(** The result tells whether the function returned ([true]) or threw. *)
Definition syncToLocalStorage (quota : Quota) (newInvoices : list InvoiceData.t)
    (newClients : list Client.t) (newProjects : list Project.t)
    (newSettings : AppSettings) : M bool :=
  orThrow quota PbInvoices (setItem_invoices newInvoices) (
  orThrow quota PbClients (setItem_clients newClients) (
  orThrow quota PbProjects (setItem_projects newProjects) (
  orThrow quota PbSettings (setItem_settings newSettings) (
    emit (LocalStorageWrite (mkSnapshot newInvoices newClients newProjects newSettings)) ;;
    ret true)))).

(** What follows a call that may have thrown outside any [try]: nothing
    when it threw. *)
Definition andThen (returned : bool) (rest : M unit) : M unit :=
  if returned then rest else ret tt.

Definition loadFromLocalStorage : M unit :=
  render (fun cl =>
    let ls := localStorage cl in
    match pb_invoices ls with Some v => setInvoices v | None => ret tt end ;;
    match pb_clients ls with Some v => setClients v | None => ret tt end ;;
    match pb_projects ls with Some v => setProjects v | None => ret tt end ;;
    match pb_settings ls with Some v => setAppSettings v | None => ret tt end).

(** *** Chunked persistence: the two halves of the image splitting *)

(** [String(idx)] for an array index. *)
Definition index_to_string (idx : nat) : string :=
  DecimalString.NilEmpty.string_of_uint (Nat.to_uint idx).

(** [xs.map((x, i) => f(x, i))], with [i] counted from [start]. *)
Fixpoint map_indexed {A B : Type} (f : A -> nat -> B) (start : nat)
    (xs : list A) : list B :=
  match xs with
  | [] => []
  | x :: rest => f x start :: map_indexed f (S start) rest
  end.

(** Step 1 of [handleSaveInvoice]: [pages] is deleted when it is falsy
    (absent, [0], [-0] or NaN) and [images] becomes the empty array. *)
Definition cleanItem (item : InvoiceItem.t) : InvoiceItem.t :=
  let pages :=
    match InvoiceItem.pages item with
    | Some p => if falsy p then None else Some p
    | None => None
    end in
  with_images [] (with_pages pages item).

Definition lightweightInvoice (activeInvoice : InvoiceData.t) : InvoiceData.t :=
  with_items (map cleanItem (InvoiceData.items activeInvoice)) activeInvoice.

(** Step 2 of [handleSaveInvoice]: one write per image, with the document id
    [itemId_index]. *)
Definition imageWrites (activeInvoice : InvoiceData.t) : list ImageDoc :=
  flat_map
    (fun item =>
       map_indexed
         (fun imgData idx =>
            mkImageDoc (InvoiceItem.id item ++ "_" ++ index_to_string idx) imgData)
         0 (InvoiceItem.images item))
    (InvoiceData.items activeInvoice).

(** [const [itemId] = doc.id.split('_')]: what precedes the first
    underscore. *)
Fixpoint split_first (s : string) : string :=
  match s with
  | EmptyString => EmptyString
  | String c rest =>
      if Ascii.eqb c "_"%char then EmptyString else String c (split_first rest)
  end.

(** The body of [imagesSnapshot.forEach]: create the entry when it is
    missing, then push the payload at its end.  The map holds the own
    properties of [imageMap].  At a key that names an inherited member,
    [imageMap[itemId]] is that member: no entry is created, and [push],
    which the member does not have, throws a [TypeError] ([None]). *)
Definition collectImage (imageMap : gmap string (list string)) (doc : ImageDoc)
    : option (gmap string (list string)) :=
  let itemId := split_first (doc_id doc) in
  if PlainObject.plainKey itemId then
    let imageMap1 :=
      match imageMap !! itemId with
      | None => <[itemId := []]> imageMap
      | Some _ => imageMap
      end in
    Some (alter (fun images => images ++ [doc_data doc]) itemId imageMap1)
  else None.

(** [imagesSnapshot.forEach], up to the first record at which the body
    throws. *)
Fixpoint collectImages (docs : list ImageDoc) (imageMap : gmap string (list string))
    : option (gmap string (list string)) :=
  match docs with
  | [] => Some imageMap
  | doc :: rest =>
      match collectImage imageMap doc with
      | Some imageMap1 => collectImages rest imageMap1
      | None => None
      end
  end.

Definition buildImageMap (docs : list ImageDoc) : option (gmap string (list string)) :=
  collectImages docs ∅.

(** The [fullInvoice] of [fetchInvoiceImages]:
    [images: imageMap[item.id] || item.images || []]; an array is truthy, so
    the last alternative is never taken.  For an item whose id names an
    inherited member the code finds that member in place of the array; the
    map does not, and the properties of the splice are stated for items
    whose ids are plain keys. *)
Definition fullInvoice (invoice : InvoiceData.t) (imageMap : gmap string (list string))
    : InvoiceData.t :=
  with_items
    (map (fun item =>
            with_images
              (match imageMap !! InvoiceItem.id item with
               | Some images => images
               | None => InvoiceItem.images item
               end)
              item)
         (InvoiceData.items invoice))
    invoice.

(** What the [try] block of [fetchInvoiceImages] and its [catch] make of the
    child records: the full invoice, or the invoice as it was when the
    collection threw. *)
Definition spliceImages (invoice : InvoiceData.t) (docs : list ImageDoc)
    : InvoiceData.t :=
  match buildImageMap docs with
  | Some imageMap => fullInvoice invoice imageMap
  | None => invoice
  end.

(** [invoice.items.some(item => item.images.length > 0)] *)
Definition hasImages (invoice : InvoiceData.t) : bool :=
  existsb (fun item => (0 <? length (InvoiceItem.images item))%nat)
          (InvoiceData.items invoice).

(** *** Handlers *)

(** [s.includes(needle)] *)
Definition includes (s needle : string) : bool :=
  match String.index 0 needle s with
  | Some _ => true
  | None => false
  end.

(** [e.message && e.message.includes('exceeds the maximum allowed size')] *)
Definition isSizeLimitError (e : JsError) : bool :=
  match message e with
  | Some m => includes m "exceeds the maximum allowed size"
  | None => false
  end.

(** What the four reads of [fetchData] return when none of them throws;
    [fetched_settings] is [None] when [settings/general] does not exist. *)
Record Fetched : Type := mkFetched {
  fetched_invoices : list InvoiceData.t;
  fetched_clients : list Client.t;
  fetched_projects : list Project.t;
  fetched_settings : option AppSettings
}.

Section Handlers.

(** [firebaseConfig.projectId] of [firebaseConfig.ts]. *)
Variable projectId : string.

Definition isConfigured : bool := negb (String.eqb projectId "your-app-id").

Definition fetchData (quota : Quota) (reply : Reply Fetched) : M unit :=
  setLoading true ;;
  if negb isConfigured then
    setIsOffline true ;;
    loadFromLocalStorage ;;
    setLoading false
  else
    firestore GetCollections ;;
    match reply with
    | Resolved fetched =>
        fetchedSettings <-
          match fetched_settings fetched with
          | Some s => ret s
          | None => firestore (SeedSettings defaultAppSettings) ;; ret defaultAppSettings
          end ;;
        setInvoices (fetched_invoices fetched) ;;
        setClients (fetched_clients fetched) ;;
        setProjects (fetched_projects fetched) ;;
        setAppSettings fetchedSettings ;;
        returned <- syncToLocalStorage quota (fetched_invoices fetched)
                      (fetched_clients fetched) (fetched_projects fetched)
                      fetchedSettings ;;
        if returned then setIsOffline false
        else
          (* the [catch] of the [try] around the four reads and the write *)
          setIsOffline true ;;
          loadFromLocalStorage
    | Rejected _ =>
        setIsOffline true ;;
        loadFromLocalStorage
    end ;;
    setLoading false.

Definition fetchInvoiceImages (invoice : InvoiceData.t)
    (reply : Reply (list ImageDoc)) : M InvoiceData.t :=
  render (fun cl =>
    if isOffline cl || negb isConfigured then ret invoice
    else if hasImages invoice then ret invoice
    else
      firestore (GetInvoiceImages (InvoiceData.id invoice)) ;;
      match reply with
      | Resolved docs => ret (spliceImages invoice docs)
      | Rejected _ => ret invoice
      end).

Definition handleEditInvoice (invoice : InvoiceData.t)
    (reply : Reply (list ImageDoc)) : M unit :=
  fullInvoice <- fetchInvoiceImages invoice reply ;;
  setActiveInvoice (Some fullInvoice) ;;
  setCurrentView CREATE_INVOICE.

Definition handleDeleteInvoice (id : string) (confirmed : bool) (quota : Quota)
    (reply : Reply unit) : M unit :=
  render (fun cl =>
    when confirmed (
      let updatedInvoices :=
        List.filter (fun inv => negb (String.eqb (InvoiceData.id inv) id)) (invoices cl) in
      setInvoices updatedInvoices ;;
      returned <- syncToLocalStorage quota updatedInvoices (clients cl) (projects cl)
                    (appSettings cl) ;;
      andThen returned (
        when (negb (isOffline cl) && isConfigured) (
          firestore (DeleteInvoiceDoc id) ;;
          match reply with
          | Resolved _ => ret tt
          | Rejected _ => setIsOffline true
          end)))).

Definition handleSaveInvoice (quota : Quota) (reply : Reply unit) : M unit :=
  render (fun cl =>
    match activeInvoice cl with
    | None => ret tt
    | Some activeInvoice =>
        let sameId inv :=
          String.eqb (InvoiceData.id inv) (InvoiceData.id activeInvoice) in
        let updatedInvoices :=
          if existsb sameId (invoices cl)
          then map (fun inv => if sameId inv then activeInvoice else inv) (invoices cl)
          else invoices cl ++ [activeInvoice] in
        setInvoices updatedInvoices ;;
        returned <- syncToLocalStorage quota updatedInvoices (clients cl) (projects cl)
                      (appSettings cl) ;;
        andThen returned (
          if negb (isOffline cl) && isConfigured then
            firestore (BatchCommit (InvoiceData.id activeInvoice)
                         (lightweightInvoice activeInvoice) (imageWrites activeInvoice)) ;;
            match reply with
            | Resolved _ => alert "Invoice saved to cloud!"
            | Rejected e =>
                if isSizeLimitError e then
                  alert "One of the images is too large. Please try a smaller image."
                else
                  setIsOffline true ;;
                  alert "Connection lost. Invoice saved locally."
            end
          else alert "Invoice saved locally (Offline Mode).")
    end).

Definition handleSaveSettings (newSettings : AppSettings) (quota : Quota)
    (reply : Reply unit) : M unit :=
  render (fun cl =>
    setAppSettings newSettings ;;
    returned <- syncToLocalStorage quota (invoices cl) (clients cl) (projects cl)
                  newSettings ;;
    andThen returned (
      if negb (isOffline cl) && isConfigured then
        firestore (SetSettingsDoc newSettings) ;;
        match reply with
        | Resolved _ => alert "Settings updated in cloud!"
        | Rejected _ =>
            setIsOffline true ;;
            alert "Connection lost. Settings saved locally."
        end
      else alert "Settings saved locally.")).

Definition handleSaveClient (newClient : Client.t) (quota : Quota)
    (reply : Reply unit) : M unit :=
  render (fun cl =>
    let updatedClients := clients cl ++ [newClient] in
    setClients updatedClients ;;
    returned <- syncToLocalStorage quota (invoices cl) updatedClients (projects cl)
                  (appSettings cl) ;;
    andThen returned (
      when (negb (isOffline cl) && isConfigured) (
        firestore (SetClientDoc newClient) ;;
        match reply with
        | Resolved _ => ret tt
        | Rejected _ => setIsOffline true
        end))).

Definition handleSaveProject (newProject : Project.t) (quota : Quota)
    (reply : Reply unit) : M unit :=
  render (fun cl =>
    let updatedProjects := projects cl ++ [newProject] in
    setProjects updatedProjects ;;
    returned <- syncToLocalStorage quota (invoices cl) (clients cl) updatedProjects
                  (appSettings cl) ;;
    andThen returned (
      when (negb (isOffline cl) && isConfigured) (
        firestore (SetProjectDoc newProject) ;;
        match reply with
        | Resolved _ => ret tt
        | Rejected _ => setIsOffline true
        end))).

(** *** Sessions

    A user action together with what the outside world answers to it.
    [SetData] stands for the editor writing the invoice under edit back
    through [setActiveInvoice]. *)
Inductive Action : Type :=
| EditInvoice (invoice : InvoiceData.t) (reply : Reply (list ImageDoc))
| SetData (invoice : option InvoiceData.t)
| DeleteInvoice (id : string) (confirmed : bool) (quota : Quota) (reply : Reply unit)
| SaveInvoice (quota : Quota) (reply : Reply unit)
| SaveSettings (newSettings : AppSettings) (quota : Quota) (reply : Reply unit)
| SaveClient (newClient : Client.t) (quota : Quota) (reply : Reply unit)
| SaveProject (newProject : Project.t) (quota : Quota) (reply : Reply unit).

Definition handler (a : Action) : M unit :=
  match a with
  | EditInvoice invoice reply => handleEditInvoice invoice reply
  | SetData invoice => setActiveInvoice invoice
  | DeleteInvoice id confirmed quota reply => handleDeleteInvoice id confirmed quota reply
  | SaveInvoice quota reply => handleSaveInvoice quota reply
  | SaveSettings newSettings quota reply => handleSaveSettings newSettings quota reply
  | SaveClient newClient quota reply => handleSaveClient newClient quota reply
  | SaveProject newProject quota reply => handleSaveProject newProject quota reply
  end.

Definition step (st : AppState) (a : Action) : AppState := snd (handler a st).

Definition run (session : list Action) (st : AppState) : AppState :=
  fold_left step session st.

(** The state of the component before its first effect runs. *)
Definition initialState (ls : LocalStorage) : AppState :=
  mkState DASHBOARD [] [] [] defaultAppSettings None true false ls [].

(** The state once [fetchData] has completed. *)
Definition boot (ls : LocalStorage) (quota : Quota) (reply : Reply Fetched) : AppState :=
  snd (fetchData quota reply (initialState ls)).

End Handlers.

(** *** Vocabulary of the properties *)

Definition snapshot (st : AppState) : Snapshot :=
  mkSnapshot (invoices st) (clients st) (projects st) (appSettings st).

(** The local store that mirrors a snapshot: all four keys set. *)
Definition stored (snap : Snapshot) : LocalStorage :=
  mkLocal (Some (snap_invoices snap)) (Some (snap_clients snap))
          (Some (snap_projects snap)) (Some (snap_settings snap)).

(** The local store after a write of [snap] in which the call for [key]
    threw: the keys before it hold the new values, [key] and the keys after
    it what they held. *)
Definition storedBefore (key : StorageKey) (snap : Snapshot) (ls : LocalStorage)
    : LocalStorage :=
  match key with
  | PbInvoices => ls
  | PbClients =>
      mkLocal (Some (snap_invoices snap)) (pb_clients ls) (pb_projects ls) (pb_settings ls)
  | PbProjects =>
      mkLocal (Some (snap_invoices snap)) (Some (snap_clients snap)) (pb_projects ls)
        (pb_settings ls)
  | PbSettings =>
      mkLocal (Some (snap_invoices snap)) (Some (snap_clients snap))
        (Some (snap_projects snap)) (pb_settings ls)
  end.

(** The numbers that a JSON text carries exactly: the finite ones other
    than [-0] ([JSON.stringify] writes NaN and the infinities as [null] and
    [-0] as [0]). *)
Definition jsonNumber (x : float) : bool :=
  negb (is_nan x) && negb (is_infinity x) && negb (PrimFloat.Leibniz.eqb x neg_zero).

Definition jsonItem (item : InvoiceItem.t) : bool :=
  jsonNumber (InvoiceItem.quantity item) && jsonNumber (InvoiceItem.price item)
  && match InvoiceItem.pages item with Some p => jsonNumber p | None => true end.

Definition jsonInvoice (inv : InvoiceData.t) : bool :=
  forallb jsonItem (InvoiceData.items inv)
  && jsonNumber (InvoiceData.taxRate inv) && jsonNumber (InvoiceData.discount inv).

(** A snapshot that [JSON.parse (JSON.stringify _)] gives back as it is. *)
Definition jsonExact (snap : Snapshot) : bool :=
  forallb jsonInvoice (snap_invoices snap)
  && forallb (fun p => jsonNumber (Project.progress p)) (snap_projects snap)
  && jsonNumber (defaultImagePrice (snap_settings snap)).

Definition isRemote (e : Event) : bool :=
  match e with Remote _ => true | _ => false end.

Definition isLocalWrite (e : Event) : bool :=
  match e with LocalStorageWrite _ => true | _ => false end.

(** The snapshots written to the local store, oldest first. *)
Fixpoint localWrites (events : list Event) : list Snapshot :=
  match events with
  | [] => []
  | LocalStorageWrite snap :: rest => snap :: localWrites rest
  | _ :: rest => localWrites rest
  end.

(** The Firestore calls issued, oldest first. *)
Fixpoint remoteCalls (events : list Event) : list RemoteCall :=
  match events with
  | [] => []
  | Remote call :: rest => call :: remoteCalls rest
  | _ :: rest => remoteCalls rest
  end.

(** An action that changes one of the four collections: a confirmed
    deletion, a save of the invoice under edit, a save of the settings, of
    a client or of a project. *)
Definition mutates (a : Action) (st : AppState) : bool :=
  match a with
  | DeleteInvoice _ confirmed _ _ => confirmed
  | SaveInvoice _ _ =>
      match activeInvoice st with Some _ => true | None => false end
  | SaveSettings _ _ _ | SaveClient _ _ _ | SaveProject _ _ _ => true
  | EditInvoice _ _ | SetData _ => false
  end.

(** What the browser does with the local write of the action. *)
Definition quotaOf (a : Action) : Quota :=
  match a with
  | DeleteInvoice _ _ quota _ | SaveInvoice quota _ | SaveSettings _ quota _
  | SaveClient _ quota _ | SaveProject _ quota _ => quota
  | EditInvoice _ _ | SetData _ => Accepted
  end.

(** The specification's side of a mutation: the change it is meant to make
    to the four collections. *)
Definition applyChange (a : Action) (st : AppState) : Snapshot :=
  match a with
  | DeleteInvoice id _ _ _ =>
      mkSnapshot
        (List.filter (fun inv => negb (String.eqb (InvoiceData.id inv) id)) (invoices st))
        (clients st) (projects st) (appSettings st)
  | SaveInvoice _ _ =>
      match activeInvoice st with
      | Some active =>
          let sameId inv := String.eqb (InvoiceData.id inv) (InvoiceData.id active) in
          mkSnapshot
            (if existsb sameId (invoices st)
             then map (fun inv => if sameId inv then active else inv) (invoices st)
             else invoices st ++ [active])
            (clients st) (projects st) (appSettings st)
      | None => snapshot st
      end
  | SaveSettings newSettings _ _ =>
      mkSnapshot (invoices st) (clients st) (projects st) newSettings
  | SaveClient newClient _ _ =>
      mkSnapshot (invoices st) (clients st ++ [newClient]) (projects st) (appSettings st)
  | SaveProject newProject _ _ =>
      mkSnapshot (invoices st) (clients st) (projects st ++ [newProject]) (appSettings st)
  | EditInvoice _ _ | SetData _ => snapshot st
  end.

(** The error that the remote operation of the action was rejected with,
    if it was: the write of a mutation or the read of the child records
    when an invoice is opened. *)
Definition rejection (a : Action) : option JsError :=
  match a with
  | EditInvoice _ (Rejected e)
  | DeleteInvoice _ _ _ (Rejected e) | SaveInvoice _ (Rejected e)
  | SaveSettings _ _ (Rejected e) | SaveClient _ _ (Rejected e)
  | SaveProject _ _ (Rejected e) => Some e
  | _ => None
  end.

(** Whether the action reaches its remote operation in state [st]: the
    store is ONLINE and configured, the invoice to open has no image yet,
    the mutation is one and its local write has returned. *)
Definition callsRemote (configured : bool) (a : Action) (st : AppState) : bool :=
  negb (isOffline st) && configured
  && match a with
     | EditInvoice invoice _ => negb (hasImages invoice)
     | SetData _ => false
     | _ =>
         mutates a st
         && match quotaOf a with Accepted => true | Exceeded _ => false end
     end.

Definition isEdit (a : Action) : bool :=
  match a with EditInvoice _ _ => true | _ => false end.

Definition isSaveInvoice (a : Action) : bool :=
  match a with SaveInvoice _ _ => true | _ => false end.

Section Sessions.

Variable projectId : string.

(** The snapshots after each mutation of a session, in order. *)
Fixpoint mutationSnapshots (session : list Action) (st : AppState) : list Snapshot :=
  match session with
  | [] => []
  | a :: rest =>
      let st' := step projectId st a in
      (if mutates a st then [snapshot st'] else [])
        ++ mutationSnapshots rest st'
  end.

End Sessions.

(** A session in which the browser accepts every local write. *)
Definition allAccepted (session : list Action) : bool :=
  forallb (fun a => match quotaOf a with Accepted => true | Exceeded _ => false end)
    session.

(** The payloads of the child records of one item, in the order in which
    the records are listed. *)
Definition payloadsOf (itemId : string) (docs : list ImageDoc) : list string :=
  map doc_data
    (List.filter (fun doc => String.eqb (split_first (doc_id doc)) itemId) docs).

Fixpoint freeOfUnderscore (s : string) : bool :=
  match s with
  | EmptyString => true
  | String c rest => negb (Ascii.eqb c "_"%char) && freeOfUnderscore rest
  end.

(** The page count survives [cleanItem]: it is absent or truthy. *)
Definition pagesKept (item : InvoiceItem.t) : Prop :=
  match InvoiceItem.pages item with
  | Some p => falsy p = false
  | None => True
  end.

(** Invoices on which the child keys identify item and position: the item
    ids are pairwise distinct plain keys that contain no underscore. *)
Definition wellKeyed (invoice : InvoiceData.t) : Prop :=
  List.NoDup (map InvoiceItem.id (InvoiceData.items invoice))
  /\ Forall (fun item => freeOfUnderscore (InvoiceItem.id item) = true
                        /\ PlainObject.plainKey (InvoiceItem.id item) = true
                        /\ pagesKept item)
       (InvoiceData.items invoice).

(** What [getDocs] on a collection returns when no order is asked for:
    the documents in ascending order of their ids (the order Firestore
    documents for a query without [orderBy]).  An insertion sort on the
    byte-wise order of the ids. *)
Fixpoint insertByDocId (doc : ImageDoc) (sorted : list ImageDoc) : list ImageDoc :=
  match sorted with
  | [] => [doc]
  | d :: rest =>
      if String.leb (doc_id doc) (doc_id d) then doc :: d :: rest
      else d :: insertByDocId doc rest
  end.

Definition ascendingByDocId (docs : list ImageDoc) : list ImageDoc :=
  fold_right insertByDocId [] docs.

End App.

(** ** Sample data *)

Module Samples.

Definition projectId : string := "pb-invoices-f204f".

Definition bank : BankDetails := mkBank "Sampath Bank" "PB Creative" "1020304050" "Colombo".

Definition acme : Client.t :=
  Client.mk "c1" "Ann Perera" "Acme" "1 Main Street" "ann@acme.test" "0110000000".

Definition website : Project.t :=
  Project.mk "p1" "Website" "c1" "Acme" InProgress "2025-03-01" "Redesign" 40.

Definition lineItem (id : string) (price quantity : float) (images : list string)
    : InvoiceItem.t :=
  InvoiceItem.mk id "Deliverable" quantity price images None.

Definition invoiceOf (items : list InvoiceItem.t) (taxRate discount : float)
    : InvoiceData.t :=
  InvoiceData.mk "inv1" "INV-2025-001" "2025-01-01" "2025-01-15" None acme
    items taxRate discount DRAFT bank.

(** The example of the specification: 100 x 2 and 50 x 1, 10% tax, 20 off. *)
Definition specExample : InvoiceData.t :=
  invoiceOf [lineItem "a" 100 2 []; lineItem "b" 50 1 []] 10 20.

(** One item of 19.99 at a tax rate of 12%: the double nearest to 19.99,
    whose exact value is 19.989999999999998436805981327779591083526611328125. *)
Definition roundedExample : InvoiceData.t :=
  invoiceOf [lineItem "a" 0x1.3fd70a3d70a3dp+4 1 []] 12 0.


Definition twoImages : InvoiceData.t :=
  invoiceOf [lineItem "a" 1500 2 ["first"; "second"]] 0 0.

Definition elevenImages : InvoiceData.t :=
  invoiceOf
    [lineItem "a" 1500 11
       ["i0"; "i1"; "i2"; "i3"; "i4"; "i5"; "i6"; "i7"; "i8"; "i9"; "i10"]] 0 0.

(** One item still without images next to one whose image is loaded. *)
Definition partlyLoaded : InvoiceData.t :=
  invoiceOf [lineItem "a" 1500 1 []; lineItem "b" 1500 1 ["loaded"]] 0 0.

Definition sizeLimitError : App.JsError :=
  App.mkError (Some "Document exceeds the maximum allowed size of 1,048,576 bytes").

Definition networkError : App.JsError :=
  App.mkError (Some "Failed to get document because the client is offline.").

(** An ONLINE session right after a successful bootstrap, with an invoice
    under edit. *)
Definition onlineEditing : App.AppState :=
  snd (App.setActiveInvoice (Some twoImages)
         (App.boot projectId (App.mkLocal None None None None) App.Accepted
            (App.Resolved (App.mkFetched [] [acme] [website] None)))).

Definition settingsWithLogo : AppSettings :=
  mkSettings "PB Creative" "Colombo" "hello@pb.test"
    (Some "data:image/png;base64,iVBORw0KGgo") bank 1500.

(** The invoice batch is rejected for its size while ONLINE; a client is
    saved next. *)
Definition afterOversizedBatch : App.AppState :=
  App.step projectId onlineEditing
    (App.SaveInvoice App.Accepted (App.Rejected sizeLimitError)).

Definition thenSaveClient : App.AppState :=
  App.step projectId afterOversizedBatch
    (App.SaveClient acme App.Accepted (App.Resolved tt)).

(** The settings write is rejected for its size while ONLINE. *)
Definition afterOversizedSettings : App.AppState :=
  App.step projectId onlineEditing
    (App.SaveSettings settingsWithLogo App.Accepted (App.Rejected sizeLimitError)).

(** The invoice with eleven images is saved to the cloud. *)
Definition savedEleven : App.AppState :=
  App.run projectId
    [App.SetData (Some elevenImages); App.SaveInvoice App.Accepted (App.Resolved tt)]
    onlineEditing.

(** The next session: the bootstrap reads the lightweight record back, the
    invoice is opened from the list, and Firestore returns its child
    records in ascending order of their ids. *)
Definition restartedEleven : App.AppState :=
  App.boot projectId (App.localStorage savedEleven) App.Accepted
    (App.Resolved
       (App.mkFetched [App.lightweightInvoice elevenImages] [acme] [website]
          (Some App.defaultAppSettings))).

Definition reopenedEleven : App.AppState :=
  App.step projectId restartedEleven
    (App.EditInvoice (App.lightweightInvoice elevenImages)
       (App.Resolved (App.ascendingByDocId (App.imageWrites elevenImages)))).

(** The fetch of the child records fails while ONLINE; a client is saved
    next. *)
Definition afterFailedFetch : App.AppState :=
  App.step projectId onlineEditing
    (App.EditInvoice (App.lightweightInvoice twoImages) (App.Rejected networkError)).

Definition thenSaveClientAgain : App.AppState :=
  App.step projectId afterFailedFetch
    (App.SaveClient acme App.Accepted (App.Resolved tt)).

(** An OFFLINE session (the bootstrap reads failed) whose local store
    mirrors its memory. *)
Definition offlineMirrored : App.AppState :=
  App.boot projectId
    (App.stored (App.mkSnapshot [] [acme] [website] App.defaultAppSettings))
    App.Accepted (App.Rejected networkError).

(** A client is saved while the browser refuses the first [setItem]. *)
Definition afterRefusedWrite : App.AppState :=
  App.step projectId offlineMirrored
    (App.SaveClient acme (App.Exceeded App.PbInvoices) (App.Resolved tt)).

End Samples.

(** ** File backup ([handleExportData], [handleImportData])

    The backup file is the JSON document with the keys [invoices],
    [clients], [projects] and [settings].  What [JSON.parse] makes of the
    file is an argument of the handler: it throws, it returns [null], or it
    returns a value whose four keys are read.  A key is [None] when it is
    missing or falsy (a value that is not an object has none of the keys);
    a key that is present holds a value of its type.  The document that
    [handleExportData] serialises is given by the values themselves, which
    the file carries exactly when their numbers are [jsonExact]. *)

Module Backup.

Import App.
Local Open Scope handler_scope.

Record BackupDocument : Type := mkBackup {
  json_invoices : option (list InvoiceData.t);
  json_clients : option (list Client.t);
  json_projects : option (list Project.t);
  json_settings : option AppSettings
}.

Inductive Parsed : Type :=
| SyntaxError
| ParsedNull
| Document (json : BackupDocument).

(** The document that [handleExportData] serialises into the download. *)
Definition handleExportData (st : AppState) : BackupDocument :=
  mkBackup (Some (invoices st)) (Some (clients st)) (Some (projects st))
           (Some (appSettings st)).

(** [a || b] where [a] may be missing. *)
Definition or_else {A : Type} (a : option A) (b : A) : A :=
  match a with Some v => v | None => b end.

(** The [onload] callback of [handleImportData]; [confirmed] is the answer
    to the confirmation dialog.  The [try] covers the parse, the dialog,
    the four assignments and the local write: whatever throws in it ends
    in the one [catch]. *)
Definition handleImportData (parsed : Parsed) (confirmed : bool) (quota : Quota)
    : M unit :=
  render (fun cl =>
    match parsed with
    | SyntaxError => alert "Error parsing backup file."
    | ParsedNull =>
        (* [json.invoices] throws a [TypeError], after the dialog *)
        when confirmed (alert "Error parsing backup file.")
    | Document json =>
        when confirmed (
          match json_invoices json with Some v => setInvoices v | None => ret tt end ;;
          match json_clients json with Some v => setClients v | None => ret tt end ;;
          match json_projects json with Some v => setProjects v | None => ret tt end ;;
          match json_settings json with Some v => setAppSettings v | None => ret tt end ;;
          returned <- syncToLocalStorage quota
                        (or_else (json_invoices json) (invoices cl))
                        (or_else (json_clients json) (clients cl))
                        (or_else (json_projects json) (projects cl))
                        (or_else (json_settings json) (appSettings cl)) ;;
          if returned then ret tt else alert "Error parsing backup file.")
    end).

Definition importInto (st : AppState) (parsed : Parsed) (confirmed : bool)
    (quota : Quota) : AppState :=
  snd (handleImportData parsed confirmed quota st).

(** What the document makes of the four collections. *)
Definition merged (json : BackupDocument) (st : AppState) : Snapshot :=
  mkSnapshot (or_else (json_invoices json) (invoices st))
             (or_else (json_clients json) (clients st))
             (or_else (json_projects json) (projects st))
             (or_else (json_settings json) (appSettings st)).

Section Operations.

Variable projectId : string.

(** Everything that changes the four collections: the actions of a session
    and the import of a backup file. *)
Inductive Operation : Type :=
| Handle (a : Action)
| ImportData (parsed : Parsed) (confirmed : bool) (quota : Quota).

Definition perform (st : AppState) (op : Operation) : AppState :=
  match op with
  | Handle a => step projectId st a
  | ImportData parsed confirmed quota => importInto st parsed confirmed quota
  end.

Definition runAll (ops : list Operation) (st : AppState) : AppState :=
  fold_left perform ops st.

End Operations.

End Backup.

(** ** Editor: line items, client and project selection, bulk upload

    Ids come from [Math.random()]: the handler receives the drawn id as an
    argument ([handleBulkUpload] receives the sequence of draws). *)

Module EditorItems.

Definition handleAddItem (newId : string) (prev : InvoiceData.t) : InvoiceData.t :=
  let newItem := InvoiceItem.mk newId "" 1 0 [] None in
  with_items (InvoiceData.items prev ++ [newItem]) prev.

Definition handleRemoveItem (id : string) (prev : InvoiceData.t) : InvoiceData.t :=
  with_items
    (List.filter (fun item => negb (String.eqb (InvoiceItem.id item) id))
       (InvoiceData.items prev))
    prev.

(** A [field] of [InvoiceItem] together with the [value] assigned to it. *)
Inductive FieldValue : Type :=
| IdField (value : string)
| DescriptionField (value : string)
| QuantityField (value : float)
| PriceField (value : float)
| ImagesField (value : list string)
| PagesField (value : option float).

(** [{ ...item, [field]: value }] *)
Definition assign (fv : FieldValue) (item : InvoiceItem.t) : InvoiceItem.t :=
  match fv with
  | IdField v =>
      InvoiceItem.mk v (InvoiceItem.description item) (InvoiceItem.quantity item)
        (InvoiceItem.price item) (InvoiceItem.images item) (InvoiceItem.pages item)
  | DescriptionField v =>
      InvoiceItem.mk (InvoiceItem.id item) v (InvoiceItem.quantity item)
        (InvoiceItem.price item) (InvoiceItem.images item) (InvoiceItem.pages item)
  | QuantityField v => with_quantity v item
  | PriceField v =>
      InvoiceItem.mk (InvoiceItem.id item) (InvoiceItem.description item)
        (InvoiceItem.quantity item) v (InvoiceItem.images item) (InvoiceItem.pages item)
  | ImagesField v => with_images v item
  | PagesField v => with_pages v item
  end.

Definition handleUpdateItem (id : string) (fv : FieldValue) (prev : InvoiceData.t)
    : InvoiceData.t :=
  with_items
    (map (fun item => if String.eqb (InvoiceItem.id item) id then assign fv item else item)
       (InvoiceData.items prev))
    prev.

(** [{ ...prev, client: v }] and [{ ...prev, projectId: v }]. *)
Definition with_client (v : Client.t) (inv : InvoiceData.t) : InvoiceData.t :=
  InvoiceData.mk (InvoiceData.id inv) (InvoiceData.invoiceNumber inv)
    (InvoiceData.date inv) (InvoiceData.dueDate inv) (InvoiceData.projectId inv)
    v (InvoiceData.items inv) (InvoiceData.taxRate inv) (InvoiceData.discount inv)
    (InvoiceData.status inv) (InvoiceData.bankDetails inv).

Definition with_projectId (v : option string) (inv : InvoiceData.t) : InvoiceData.t :=
  InvoiceData.mk (InvoiceData.id inv) (InvoiceData.invoiceNumber inv)
    (InvoiceData.date inv) (InvoiceData.dueDate inv) v
    (InvoiceData.client inv) (InvoiceData.items inv) (InvoiceData.taxRate inv)
    (InvoiceData.discount inv) (InvoiceData.status inv) (InvoiceData.bankDetails inv).

Definition handleClientSelect (clients : list Client.t) (clientId : string)
    (prev : InvoiceData.t) : InvoiceData.t :=
  match List.find (fun c => String.eqb (Client.id c) clientId) clients with
  | Some selectedClient => with_client selectedClient prev
  | None => prev
  end.

Definition handleProjectSelect (projects : list Project.t) (clients : list Client.t)
    (projectId : string) (prev : InvoiceData.t) : InvoiceData.t :=
  match List.find (fun p => String.eqb (Project.id p) projectId) projects with
  | Some selectedProject =>
      let associatedClient :=
        List.find (fun c => String.eqb (Client.id c) (Project.clientId selectedProject))
          clients in
      with_client
        (match associatedClient with
         | Some c => c
         | None => InvoiceData.client prev
         end)
        (with_projectId (Some projectId) prev)
  | None => with_projectId (Some "") prev
  end.

(** An uploaded file: its name and what [processImageFile] makes of it. *)
Record UploadedFile : Type := mkFile {
  file_name : string;
  file_processed : option string
}.

(** [name.split('.')[0]]: what precedes the first dot. *)
Fixpoint before_dot (s : string) : string :=
  match s with
  | EmptyString => EmptyString
  | String c rest =>
      if Ascii.eqb c "."%char then EmptyString else String c (before_dot rest)
  end.

(** [file.name.split('.')[0] || 'Image Deliverable'] *)
Definition deliverableName (file : UploadedFile) : string :=
  match before_dot (file_name file) with
  | EmptyString => "Image Deliverable"
  | name => name
  end.

(** [Promise.all] over the files: name and data of each, or a rejection. *)
Fixpoint processAll (files : list UploadedFile) : option (list (string * string)) :=
  match files with
  | [] => Some []
  | file :: rest =>
      match file_processed file with
      | None => None
      | Some base64 =>
          match processAll rest with
          | Some imgs => Some ((deliverableName file, base64) :: imgs)
          | None => None
          end
      end
  end.

(** The new invoice and the alert, if one is raised. *)
Definition handleBulkUpload (defaultImagePrice : float) (randomId : nat -> string)
    (files : list UploadedFile) (data : InvoiceData.t)
    : InvoiceData.t * option string :=
  if (0 <? length files)%nat then
    match processAll files with
    | Some processedImages =>
        let newItems :=
          App.map_indexed
            (fun img k =>
               InvoiceItem.mk (randomId k) (fst img) 1 defaultImagePrice [snd img] None)
            0 processedImages in
        (with_items (InvoiceData.items data ++ newItems) data, None)
    | None => (data, Some "Failed to process some images.")
    end
  else (data, None).

(** Two assignments to the same field, other than the id. *)
Definition sameField (fv1 fv2 : FieldValue) : bool :=
  match fv1, fv2 with
  | DescriptionField _, DescriptionField _
  | QuantityField _, QuantityField _
  | PriceField _, PriceField _
  | ImagesField _, ImagesField _
  | PagesField _, PagesField _ => true
  | _, _ => false
  end.

End EditorItems.

(** ** The pages column

    Whether the editor ticks "Include Pages" for an item, and whether the
    preview shows the pages column. *)

Module PagesColumn.

(** [x > 0] on a number. *)
Definition positive (x : float) : bool := (0 <? x)%float.

(** The editor's [(item.pages || 0) > 0]. *)
Definition includePages (item : InvoiceItem.t) : bool :=
  positive (match InvoiceItem.pages item with
            | Some p => or_zero p
            | None => 0%float
            end).

(** The preview's [data.items.some(i => i.pages !== undefined && i.pages > 0)]. *)
Definition showPages (data : InvoiceData.t) : bool :=
  existsb (fun i => match InvoiceItem.pages i with
                    | Some p => positive p
                    | None => false
                    end)
          (InvoiceData.items data).

End PagesColumn.

(** ** Dashboard figures

    [monthName] stands for
    [new Date(inv.date).toLocaleString('default', { month: 'short' })], which
    depends on the locale of the browser.  The object [monthlyData] is an
    association list in insertion order, the order of [Object.keys] for keys
    that are not array indices; it holds the own properties of the object,
    which are all there is to it at a month name that is a plain key. *)

Module Dashboard.

Local Open Scope float_scope.

Definition hasStatus (s : InvoiceStatus) (inv : InvoiceData.t) : bool :=
  match s, InvoiceData.status inv with
  | DRAFT, DRAFT | PENDING, PENDING | PAID, PAID | OVERDUE, OVERDUE => true
  | _, _ => false
  end.

Definition calculateInvoiceTotal := Calculator.DashboardStats.calculateInvoiceTotal.

Definition totalRevenue (invoices : list InvoiceData.t) : float :=
  reduce (fun acc inv => acc + calculateInvoiceTotal inv) 0
    (List.filter (hasStatus PAID) invoices).

Definition pendingAmount (invoices : list InvoiceData.t) : float :=
  reduce (fun acc inv => acc + calculateInvoiceTotal inv) 0
    (List.filter (hasStatus PENDING) invoices).

Definition pendingCount (invoices : list InvoiceData.t) : nat :=
  length (List.filter (hasStatus PENDING) invoices).

Definition paidCount (invoices : list InvoiceData.t) : nat :=
  length (List.filter (hasStatus PAID) invoices).

Definition overdueCount (invoices : list InvoiceData.t) : nat :=
  length (List.filter (hasStatus OVERDUE) invoices).

(** [monthlyData[monthName] = (monthlyData[monthName] || 0) + amount] *)
Fixpoint addToMonth (monthlyData : list (string * float)) (name : string)
    (amount : float) : list (string * float) :=
  match monthlyData with
  | [] => [(name, 0 + amount)]
  | (key, value) :: rest =>
      if String.eqb key name then (key, or_zero value + amount) :: rest
      else (key, value) :: addToMonth rest name amount
  end.

Section Chart.

Variable monthName : string -> string.

Definition chartData (invoices : list InvoiceData.t) : list (string * float) :=
  fold_left
    (fun monthlyData inv =>
       if hasStatus PAID inv
       then addToMonth monthlyData (monthName (InvoiceData.date inv))
              (calculateInvoiceTotal inv)
       else monthlyData)
    invoices [].

(** The paid invoices dated in a month of the given name, in the order of
    the list. *)
Definition paidIn (name : string) (invoices : list InvoiceData.t)
    : list InvoiceData.t :=
  List.filter
    (fun inv => hasStatus PAID inv && String.eqb (monthName (InvoiceData.date inv)) name)
    invoices.

(** The bar of a month name, told from the invoices: their totals are
    added one after the other, and a sum that has become falsy ([0], [-0]
    or NaN) counts as [0] for the next one. *)
Definition barOf (name : string) (invoices : list InvoiceData.t) : float :=
  fold_left (fun acc inv => or_zero acc + calculateInvoiceTotal inv)
    (paidIn name invoices) 0.

End Chart.

(** The amount charted under a month name, if it has a bar. *)
Fixpoint monthAmount (data : list (string * float)) (name : string) : option float :=
  match data with
  | [] => None
  | (key, amount) :: rest =>
      if String.eqb key name then Some amount else monthAmount rest name
  end.

End Dashboard.

(** ** Adding a client ([ClientsView.handleSave])

    The form is a [Partial<Client>]: a field may be missing. *)

Module ClientsView.

Import App.
Local Open Scope handler_scope.





Section Wiring.

Variable projectId : string.


End Wiring.

(** [invoices.filter(inv => inv.client.company === client.company).length] *)
Definition invoiceCount (invoices : list InvoiceData.t) (client : Client.t) : nat :=
  length
    (List.filter
       (fun inv => String.eqb (Client.company (InvoiceData.client inv))
                     (Client.company client))
       invoices).

End ClientsView.

(** ** Creating an invoice ([createEmptyInvoice], [handleCreateNewInvoice])

    The random id and the dates are arguments; [year] is
    [new Date().getFullYear()] as a string. *)

Module NewInvoice.

Import App.
Local Open Scope handler_scope.

(** [s.padStart(3, '0')] *)
Definition padStart3 (s : string) : string :=
  match String.length s with
  | O => ("000" ++ s)%string
  | 1%nat => ("00" ++ s)%string
  | 2%nat => ("0" ++ s)%string
  | _ => s
  end.

Definition createEmptyInvoice (randomId today inTwoWeeks invoiceNumber : string)
    (defaultBank : BankDetails) : InvoiceData.t :=
  InvoiceData.mk randomId invoiceNumber today inTwoWeeks (Some "")
    (Client.mk "" "" "" "" "" "") [] 0 0 DRAFT defaultBank.

Definition handleCreateNewInvoice (randomId today inTwoWeeks year : string) : M unit :=
  render (fun cl =>
    let nextNumber :=
      ("INV-" ++ year ++ "-"
         ++ padStart3 (index_to_string (length (invoices cl) + 1)))%string in
    let newInvoice :=
      createEmptyInvoice randomId today inTwoWeeks nextNumber
        (defaultBank (appSettings cl)) in
    setActiveInvoice (Some newInvoice) ;;
    setCurrentView CREATE_INVOICE).

End NewInvoice.

(** ** Sessions: what accumulates *)

Module SessionLog.

Import App.

(** The notices raised with [alert], oldest first. *)
Fixpoint alerts (events : list Event) : list string :=
  match events with
  | [] => []
  | Alert text :: rest => text :: alerts rest
  | _ :: rest => alerts rest
  end.

(** The clients and the projects that the actions of a session save. *)
Fixpoint savedClients (session : list Action) : list Client.t :=
  match session with
  | [] => []
  | SaveClient newClient _ _ :: rest => newClient :: savedClients rest
  | _ :: rest => savedClients rest
  end.

Fixpoint savedProjects (session : list Action) : list Project.t :=
  match session with
  | [] => []
  | SaveProject newProject _ _ :: rest => newProject :: savedProjects rest
  | _ :: rest => savedProjects rest
  end.

(** The actions among the operations of a session, in order. *)
Fixpoint handled (ops : list Backup.Operation) : list Action :=
  match ops with
  | [] => []
  | Backup.Handle a :: rest => a :: handled rest
  | Backup.ImportData _ _ _ :: rest => handled rest
  end.

(** Whether the operation is the import of a backup document that the user
    has confirmed. *)
Definition replaces (op : Backup.Operation) : bool :=
  match op with
  | Backup.ImportData (Backup.Document _) true _ => true
  | _ => false
  end.

End SessionLog.

(** ** More sample data *)

Module MoreSamples.

Import Samples.

Definition savedOnce : App.AppState :=
  App.step projectId onlineEditing (App.SaveInvoice App.Accepted (App.Resolved tt)).

Definition twoFiles : list EditorItems.UploadedFile :=
  [EditorItems.mkFile "cover.final.jpg" (Some "data:image/jpeg;base64,AAAA");
   EditorItems.mkFile ".hidden" (Some "data:image/jpeg;base64,BBBB")].

Definition drawnId (k : nat) : string :=
  ("r" ++ App.index_to_string k)%string.


Definition strayDoc : App.ImageDoc := App.mkImageDoc "zzz_0" "stray".

Definition threeSmallItems : list InvoiceItem.t :=
  [Paginator.itemWithImages "a" 0; Paginator.itemWithImages "b" 5;
   Paginator.itemWithImages "c" 6].

(** The short month names of the locale [en-US], by the month digits of an
    ISO date; [new Date] of anything else prints as [Invalid Date]. *)
Definition monthTable : list (string * string) :=
  [("01", "Jan"); ("02", "Feb"); ("03", "Mar"); ("04", "Apr"); ("05", "May");
   ("06", "Jun"); ("07", "Jul"); ("08", "Aug"); ("09", "Sep"); ("10", "Oct");
   ("11", "Nov"); ("12", "Dec")].

Definition shortMonth (date : string) : string :=
  match List.find (fun entry => String.eqb (fst entry) (substring 5 2 date)) monthTable with
  | Some entry => snd entry
  | None => "Invalid Date"
  end.

Definition datedInvoice (id date : string) (status : InvoiceStatus) (price : float)
    : InvoiceData.t :=
  InvoiceData.mk id "INV-2025-001" date "2025-12-31" None acme
    [lineItem "a" price 1 []] 0 0 status bank.

(** Two paid invoices of January, of different years, a paid one of March
    and a pending one. *)
Definition fourDated : list InvoiceData.t :=
  [datedInvoice "i1" "2024-01-10" PAID 100; datedInvoice "i2" "2025-03-02" PAID 40;
   datedInvoice "i3" "2025-01-20" PAID 7; datedInvoice "i4" "2025-01-21" PENDING 1000].

End MoreSamples.
(** * Properties *)

(** ** Doubles

    What the properties below need of the arithmetic of doubles, from its
    specification in [SpecFloat]. *)

Section DoubleFacts.

Local Open Scope Z_scope.

Lemma digits2_pos_bounds (m : positive) :
  2 ^ (Zpos (digits2_pos m) - 1) <= Zpos m < 2 ^ Zpos (digits2_pos m).
Proof.
  induction m as [p IH|p IH|]; cbn [digits2_pos].
  - rewrite Pos2Z.inj_succ.
    replace (Z.succ (Zpos (digits2_pos p)) - 1) with (Z.succ (Zpos (digits2_pos p) - 1)) by lia.
    rewrite !Z.pow_succ_r by lia. lia.
  - rewrite Pos2Z.inj_succ.
    replace (Z.succ (Zpos (digits2_pos p)) - 1) with (Z.succ (Zpos (digits2_pos p) - 1)) by lia.
    rewrite !Z.pow_succ_r by lia. lia.
  - split; [reflexivity|reflexivity].
Qed.

Lemma shr_1_half (mrs : shr_record) :
  0 <= shr_m mrs -> shr_m (shr_1 mrs) = shr_m mrs / 2.
Proof.
  destruct mrs as [m r s]. cbn [shr_m]. intros Hm.
  rewrite <- Z.div2_div.
  destruct m as [|[p|p|]|p]; try reflexivity. lia.
Qed.

Lemma iter_shr_1 (p : positive) (mrs : shr_record) :
  0 <= shr_m mrs ->
  shr_m (SpecFloat.iter_pos shr_1 p mrs) = shr_m mrs / 2 ^ Zpos p.
Proof.
  revert mrs. induction p as [p IH|p IH|]; intros mrs Hm; cbn [SpecFloat.iter_pos].
  - assert (H1 : 0 <= shr_m (shr_1 mrs)).
    { rewrite shr_1_half by exact Hm. apply Z.div_pos; lia. }
    assert (H2 : 0 <= shr_m (SpecFloat.iter_pos shr_1 p (shr_1 mrs))).
    { rewrite IH by exact H1. apply Z.div_pos; [exact H1|]. apply Z.pow_pos_nonneg; lia. }
    rewrite IH by exact H2. rewrite IH by exact H1. rewrite shr_1_half by exact Hm.
    rewrite !Z.div_div by (try apply Z.pow_pos_nonneg; lia).
    f_equal. replace (Zpos p~1) with (Z.succ (Zpos p + Zpos p)) by lia.
    rewrite Z.pow_succ_r, Z.pow_add_r by lia. lia.
  - assert (H2 : 0 <= shr_m (SpecFloat.iter_pos shr_1 p mrs)).
    { rewrite IH by exact Hm. apply Z.div_pos; [exact Hm|]. apply Z.pow_pos_nonneg; lia. }
    rewrite IH by exact H2. rewrite IH by exact Hm.
    rewrite !Z.div_div by (try apply Z.pow_pos_nonneg; lia).
    f_equal. replace (Zpos p~0) with (Zpos p + Zpos p) by lia.
    rewrite Z.pow_add_r by lia. lia.
  - rewrite shr_1_half by exact Hm. reflexivity.
Qed.

Lemma shr_record_of_loc_m (m : Z) (l : location) : shr_m (shr_record_of_loc m l) = m.
Proof. destruct l as [|[]]; reflexivity. Qed.

(** Above the smallest exponent, shifting to the format keeps a positive
    mantissa positive. *)
Lemma shr_fexp_positive (m : positive) (e : Z) (l : location) :
  SpecFloat.emin prec emax <= e ->
  0 < shr_m (fst (shr_fexp prec emax (Zpos m) e l))
  /\ SpecFloat.emin prec emax <= snd (shr_fexp prec emax (Zpos m) e l).
Proof.
  intros He. unfold shr_fexp, shr.
  pose proof (digits2_pos_bounds m) as [Hlow _].
  cbn [Zdigits2].
  destruct (fexp prec emax (Zpos (digits2_pos m) + e) - e) as [|p|p] eqn:Hn;
    cbn [fst snd]; rewrite ?shr_record_of_loc_m; try (split; [reflexivity|exact He]).
  rewrite iter_shr_1 by (rewrite shr_record_of_loc_m; lia).
  rewrite shr_record_of_loc_m.
  unfold fexp, SpecFloat.emin, prec, emax in *.
  split; [|lia].
  apply Z.div_str_pos. split; [apply Z.pow_pos_nonneg; lia|].
  etransitivity; [|exact Hlow]. apply Z.pow_le_mono_r; lia.
Qed.

Lemma round_nearest_even_positive (m : Z) (l : location) :
  0 < m -> 0 < round_nearest_even m l.
Proof.
  intros Hm. destruct l as [|[]]; cbn; try lia. destruct (Z.even m); lia.
Qed.

(** The sign of a rounded value: above the smallest exponent a positive
    mantissa never rounds to zero. *)
Lemma binary_round_aux_sign (s : bool) (m : positive) (e : Z) (l : location) :
  SpecFloat.emin prec emax <= e ->
  signedNonzero s (binary_round_aux prec emax s (Zpos m) e l).
Proof.
  intros He. unfold binary_round_aux.
  destruct (shr_fexp_positive m e l He) as [Hm1 He1].
  destruct (shr_fexp prec emax (Zpos m) e l) as [mrs1 e1]. cbn [fst snd] in *.
  pose proof (round_nearest_even_positive _ (loc_of_shr_record mrs1) Hm1) as Hr.
  destruct (round_nearest_even (shr_m mrs1) (loc_of_shr_record mrs1)) as [|m2|m2];
    try lia.
  destruct (shr_fexp_positive m2 e1 loc_Exact He1) as [Hm2 _].
  destruct (shr_fexp prec emax (Zpos m2) e1 loc_Exact) as [mrs2 e2]. cbn [fst snd] in *.
  destruct (shr_m mrs2) as [|m3|m3]; try lia.
  destruct (e2 <=? emax - prec); [right; eauto|left; reflexivity].
Qed.

Lemma binary_round_sign (s : bool) (m : positive) (e : Z) :
  SpecFloat.emin prec emax <= e ->
  signedNonzero s (binary_round prec emax s m e).
Proof.
  intros He. unfold binary_round, shl_align.
  destruct (fexp prec emax (Zpos (digits2_pos m) + e) - e) eqn:Hn;
    apply binary_round_aux_sign; try exact He.
  unfold fexp, SpecFloat.emin, prec, emax in *. lia.
Qed.

Lemma valid_exponent (s : bool) (m : positive) (e : Z) :
  valid_binary (S754_finite s m e) = true ->
  SpecFloat.emin prec emax <= e
  /\ Zpos (digits2_pos m) <= prec
  /\ (SpecFloat.emin prec emax < e -> Zpos (digits2_pos m) = prec).
Proof.
  cbn [SpecFloat.valid_binary]. unfold bounded, canonical_mantissa.
  intros H. apply andb_true_iff in H as [H _]. apply Z.eqb_eq in H.
  unfold fexp, SpecFloat.emin, prec, emax in *. lia.
Qed.

Local Open Scope float_scope.

Lemma Prim2SF_zero : Prim2SF 0 = S754_zero false.
Proof. reflexivity. Qed.

Lemma Prim2SF_neg_zero : Prim2SF neg_zero = S754_zero true.
Proof. reflexivity. Qed.

Lemma not_neg_zero (x : float) : x <> neg_zero -> Prim2SF x <> S754_zero true.
Proof.
  intros Hx E. apply Hx. apply Prim2SF_inj. rewrite E. reflexivity.
Qed.

(** [x + 0] is [x], except that [-0 + 0] is [0]. *)
Lemma add_zero_r (x : float) : x <> neg_zero -> x + 0 = x.
Proof.
  intros Hx. apply not_neg_zero in Hx. apply Prim2SF_inj.
  rewrite FloatAxioms.add_spec, Prim2SF_zero. unfold SF64add, SFadd.
  destruct (Prim2SF x) as [[|]|[|]| |s m e]; try reflexivity. contradiction.
Qed.

(** A sum is [-0] only if both summands are. *)
Lemma add_not_neg_zero (x y : float) : x <> neg_zero -> x + y <> neg_zero.
Proof.
  intros Hx E. apply not_neg_zero in Hx.
  apply (f_equal Prim2SF) in E. rewrite FloatAxioms.add_spec, Prim2SF_neg_zero in E.
  pose proof (Prim2SF_valid x) as Vx. pose proof (Prim2SF_valid y) as Vy.
  unfold SF64add, SFadd in E.
  destruct (Prim2SF x) as [[|]|[|]| |sx mx ex]; try contradiction;
    destruct (Prim2SF y) as [[|]|[|]| |sy my ey]; try discriminate E.
  apply valid_exponent in Vx as (Hx1 & _). apply valid_exponent in Vy as (Hy1 & _).
  unfold binary_normalize in E.
  match type of E with
  | match ?m with _ => _ end = _ => destruct m as [|p|p]
  end; try discriminate E.
  - destruct (binary_round_sign false p (Z.min ex ey) ltac:(lia)) as [H|(m & e & H)];
      rewrite H in E; discriminate E.
  - destruct (binary_round_sign true p (Z.min ex ey) ltac:(lia)) as [H|(m & e & H)];
      rewrite H in E; discriminate E.
Qed.





(** A number above zero is truthy. *)
Lemma positive_truthy (x : float) :
  (0 <? x) = true -> is_zero x = false /\ is_nan x = false.
Proof.
  unfold is_zero, is_nan. rewrite FloatAxioms.ltb_spec, !FloatAxioms.eqb_spec, Prim2SF_zero.
  change (Prim2SF zero) with (S754_zero false).
  unfold SFltb, SFeqb, SFcompare.
  destruct (Prim2SF x) as [s|[|]| |[|] m e]; try discriminate; intros _;
    try (split; reflexivity).
  rewrite Z.compare_refl.
  change (Pos.compare_cont Eq m m) with (Pos.compare m m).
  rewrite Pos.compare_refl. split; reflexivity.
Qed.

End DoubleFacts.
(** ** Financial calculator *)

Section CalculatorFacts.

Import Calculator.
Local Open Scope float_scope.

(** [reduce] adds the line totals one after the other to its accumulator. *)
Lemma reduce_line_totals (items : list InvoiceItem.t) (acc : float) :
  reduce (fun acc item => acc + InvoiceItem.price item * InvoiceItem.quantity item)
    acc items
  = sumFrom acc (map lineTotal items).
Proof.
  unfold reduce. revert acc.
  induction items as [|item rest IH]; intros acc; [reflexivity|].
  cbn [fold_left map sumFrom]. apply IH.
Qed.




(** The counterexample in figures: the total of the code, and what the
    formula gives when it is evaluated in doubles the way it is written,
    multiplying before dividing. *)
Example rounded_example_total :
  DashboardStats.calculateInvoiceTotal Samples.roundedExample = 0x1.663886594af4ep+4
  /\ literal_total (InvoiceData.items Samples.roundedExample) 12 0 = 0x1.663886594af4fp+4.
Proof. split; reflexivity. Qed.

(** The example of the specification: subtotal 250, tax 25, total 255; no
    operation rounds, and the total is the value of the formula. *)
Example spec_example_total :
  InvoiceEditor.subtotal Samples.specExample = 250
  /\ InvoiceEditor.taxAmount Samples.specExample = 25
  /\ InvoiceEditor.total Samples.specExample = 255
  /\ (exactValue (InvoiceEditor.total Samples.specExample)
      == spec_total (InvoiceData.items Samples.specExample) 10 20)%Q.
Proof. repeat split. Qed.


End CalculatorFacts.

(** ** Paginator *)

Section PaginatorFacts.

Import Paginator.
Local Open Scope Z_scope.

Lemma placed_step (st : LoopState) (item : InvoiceItem.t) :
  placed (paginate_step st item) = placed st ++ [item].
Proof.
  unfold placed, paginate_step.
  destruct (currentHeight st + itemHeight item >? PAGE_HEIGHT_ESTIMATE); simpl.
  - rewrite concat_app. simpl. rewrite app_nil_r. reflexivity.
  - rewrite app_assoc. reflexivity.
Qed.

Lemma placed_fold (items : list InvoiceItem.t) (st : LoopState) :
  placed (fold_left paginate_step items st) = placed st ++ items.
Proof.
  revert st. induction items as [|item rest IH]; intros st; simpl.
  - rewrite app_nil_r. reflexivity.
  - rewrite IH, placed_step, <- app_assoc. reflexivity.
Qed.

Lemma concat_itemPages (items : list InvoiceItem.t) :
  concat (itemPages items) = items.
Proof.
  pose proof (placed_fold items (mkLoop [] [] HEADER_HEIGHT)) as H.
  unfold placed in H. simpl in H.
  unfold itemPages, paginate_loop.
  destruct (currentPageItems _) as [|x cur] eqn:E; simpl.
  - rewrite app_nil_r in H. exact H.
  - rewrite concat_app. simpl. rewrite app_nil_r. exact H.
Qed.

(** C6. Concatenating the pages in page order gives back the input
    sequence: nothing is reordered, duplicated or dropped.  [pages] is a
    function, so the same input always gives the same pages. *)
Theorem pages_concat (items : list InvoiceItem.t) :
  concat (pages items) = items.
Proof.
  unfold pages.
  destruct (finalHeight items + FOOTER_HEIGHT >? PAGE_HEIGHT_ESTIMATE).
  - rewrite concat_app. simpl. rewrite app_nil_r. apply concat_itemPages.
  - apply concat_itemPages.
Qed.

Lemma itemsHeight_app (page1 page2 : list InvoiceItem.t) :
  itemsHeight (page1 ++ page2) = itemsHeight page1 + itemsHeight page2.
Proof.
  unfold itemsHeight. induction page1 as [|item rest IH]; simpl; [reflexivity|].
  rewrite IH. lia.
Qed.

Lemma pageStart_le_budget (pageIndex : nat) :
  pageStart pageIndex <= PAGE_HEIGHT_ESTIMATE.
Proof. destruct pageIndex; vm_compute; discriminate. Qed.

Lemma imageRows_nonneg (item : InvoiceItem.t) : 0 <= imageRows item.
Proof.
  unfold imageRows. rewrite <- (Qceiling_Z 0). apply Qceiling_resp_le.
  apply Qle_shift_div_l; [reflexivity|].
  rewrite Qmult_0_l. change 0%Q with (inject_Z 0). rewrite <- Zle_Qle. lia.
Qed.

Lemma itemHeight_base (item : InvoiceItem.t) : ITEM_BASE_HEIGHT <= itemHeight item.
Proof.
  unfold itemHeight, ITEM_IMAGE_ROW_HEIGHT.
  pose proof (imageRows_nonneg item). lia.
Qed.

Lemma itemsHeight_nonneg (page : list InvoiceItem.t) : 0 <= itemsHeight page.
Proof.
  unfold itemsHeight. induction page as [|item rest IH]; simpl; [lia|].
  pose proof (itemHeight_base item). unfold ITEM_BASE_HEIGHT in *. lia.
Qed.

Lemma pageStart_ge_margin (pageIndex : nat) : TOP_MARGIN <= pageStart pageIndex.
Proof. destruct pageIndex; vm_compute; discriminate. Qed.

Lemma empty_page_ok (pageIndex : nat) : pageOK pageIndex [].
Proof.
  split.
  - left. unfold pageHeight. simpl. pose proof (pageStart_le_budget pageIndex). lia.
  - intros item [].
Qed.

Lemma heightInvariant_init : heightInvariant (mkLoop [] [] HEADER_HEIGHT).
Proof.
  split; [|split].
  - intros pageIndex page H. simpl in H. rewrite lookup_nil in H. discriminate.
  - reflexivity.
  - apply empty_page_ok.
Qed.

Lemma heightInvariant_step (st : LoopState) (item : InvoiceItem.t) :
  heightInvariant st -> heightInvariant (paginate_step st item).
Proof.
  intros (Hclosed & Hheight & Hcur). unfold paginate_step.
  destruct (Z.gtb_spec (currentHeight st + itemHeight item) PAGE_HEIGHT_ESTIMATE)
    as [Hover|Hfits]; unfold heightInvariant; simpl.
  - (* page break: the current page is closed, [item] opens the next one *)
    split; [|split].
    + intros pageIndex page Hlook.
      apply lookup_app_Some in Hlook as [Hlook|[Hge Hlook]]; [eauto|].
      apply list_lookup_singleton_Some in Hlook as [Hidx <-].
      replace pageIndex with (length (chunkedPages st)) by lia. exact Hcur.
    + rewrite length_app. simpl. rewrite Nat.add_1_r.
      unfold pageHeight, itemsHeight. simpl. lia.
    + rewrite length_app. simpl. rewrite Nat.add_1_r. split.
      * destruct (Z_le_gt_dec (TOP_MARGIN + itemHeight item) PAGE_HEIGHT_ESTIMATE)
          as [Hle|Hgt].
        -- left. unfold pageHeight, itemsHeight. simpl. lia.
        -- right. exists item. repeat split; [discriminate|exact Hgt].
      * intros item' [<-|[]] _. reflexivity.
  - (* the item fits on the current page *)
    assert (Hsum : currentHeight st + itemHeight item
                   = pageHeight (length (chunkedPages st))
                       (currentPageItems st ++ [item])).
    { rewrite Hheight. unfold pageHeight. rewrite itemsHeight_app.
      unfold itemsHeight at 3. simpl. lia. }
    split; [exact Hclosed|]. split; [exact Hsum|]. split.
    + left. rewrite <- Hsum. exact Hfits.
    + intros tall Hin Htall. exfalso.
      pose proof (pageStart_ge_margin (length (chunkedPages st))) as Hstart.
      pose proof (itemsHeight_nonneg (currentPageItems st)) as Hnonneg.
      pose proof (itemHeight_base item) as Hbase.
      unfold ITEM_BASE_HEIGHT in Hbase.
      rewrite Hheight in Hfits. unfold pageHeight in Hfits.
      apply in_app_or in Hin as [Hin|[<-|[]]].
      * destruct Hcur as [_ Halone]. rewrite (Halone tall Hin Htall) in Hfits.
        unfold itemsHeight in Hfits. simpl in Hfits. lia.
      * lia.
Qed.

Lemma heightInvariant_fold (items : list InvoiceItem.t) (st : LoopState) :
  heightInvariant st -> heightInvariant (fold_left paginate_step items st).
Proof.
  revert st. induction items as [|item rest IH]; intros st Hst; simpl.
  - exact Hst.
  - apply IH, heightInvariant_step, Hst.
Qed.

Lemma itemPages_ok (items : list InvoiceItem.t) (pageIndex : nat)
    (page : list InvoiceItem.t) :
  itemPages items !! pageIndex = Some page -> pageOK pageIndex page.
Proof.
  pose proof (heightInvariant_fold items _ heightInvariant_init)
    as (Hclosed & _ & Hcur).
  unfold itemPages, paginate_loop.
  destruct (0 <? length (currentPageItems _))%nat; intros Hlook.
  - apply lookup_app_Some in Hlook as [Hlook|[Hge Hlook]]; [eauto|].
    apply list_lookup_singleton_Some in Hlook as [Hidx <-].
    match goal with
    | |- pageOK _ (currentPageItems ?s) =>
        replace pageIndex with (length (chunkedPages s)) by lia
    end.
    exact Hcur.
  - eauto.
Qed.

Lemma pages_ok (items : list InvoiceItem.t) (pageIndex : nat)
    (page : list InvoiceItem.t) :
  pages items !! pageIndex = Some page -> pageOK pageIndex page.
Proof.
  unfold pages.
  destruct (finalHeight items + FOOTER_HEIGHT >? PAGE_HEIGHT_ESTIMATE);
    intros Hlook.
  - apply lookup_app_Some in Hlook as [Hlook|[Hge Hlook]].
    + exact (itemPages_ok items pageIndex page Hlook).
    + apply list_lookup_singleton_Some in Hlook as [_ <-].
      apply empty_page_ok.
  - exact (itemPages_ok items pageIndex page Hlook).
Qed.

(** C7, as the code has it.  Every page is within the page-height budget,
    except a page after the first that holds a single item whose estimated
    height does not fit under the top margin
    ([TOP_MARGIN + itemHeight item > PAGE_HEIGHT_ESTIMATE]); and every such
    item is the only item on its page. *)
Theorem pages_within_budget (items : list InvoiceItem.t) (pageIndex : nat)
    (page : list InvoiceItem.t) :
  pages items !! pageIndex = Some page ->
  (pageHeight pageIndex page <= PAGE_HEIGHT_ESTIMATE
   \/ exists item, page = [item] /\ pageIndex <> O
        /\ TOP_MARGIN + itemHeight item > PAGE_HEIGHT_ESTIMATE)
  /\ (forall item, In item page ->
        TOP_MARGIN + itemHeight item > PAGE_HEIGHT_ESTIMATE -> page = [item]).
Proof. intros Hlook. exact (pages_ok items pageIndex page Hlook). Qed.

(** C7, as stated, fails: an item with 26 images has estimated height
    1005, which is within the budget of 1050, yet it cannot fit under the
    header, is moved to the second page and makes that page 1085 high. *)
Lemma pages_budget_counterexample :
  ~ (forall (items : list InvoiceItem.t) (pageIndex : nat) (page : list InvoiceItem.t),
        pages items !! pageIndex = Some page ->
        pageHeight pageIndex page <= PAGE_HEIGHT_ESTIMATE
        \/ exists item, page = [item] /\ itemHeight item > PAGE_HEIGHT_ESTIMATE).
Proof.
  intros Hclaim.
  destruct (Hclaim [itemWithImages "a" 26] 1%nat [itemWithImages "a" 26] eq_refl)
    as [Hle|(item & Hpage & Hgt)].
  - vm_compute in Hle. apply Hle. reflexivity.
  - injection Hpage as <-. vm_compute in Hgt. discriminate.
Qed.

Lemma pages_within_budget_witness :
  pageHeight 1 [itemWithImages "a" 26] <= PAGE_HEIGHT_ESTIMATE
  \/ exists item, [itemWithImages "a" 26] = [item] /\ 1%nat <> O
       /\ TOP_MARGIN + itemHeight item > PAGE_HEIGHT_ESTIMATE.
Proof.
  apply (pages_within_budget [itemWithImages "a" 26] 1 [itemWithImages "a" 26]).
  reflexivity.
Defined.

(** The page of the counterexample in figures. *)
Example tall_item_page :
  map (map InvoiceItem.id) (pages [itemWithImages "a" 26]) = [[]; ["a"]; []]
  /\ itemHeight (itemWithImages "a" 26) = 1005
  /\ pageHeight 1 [itemWithImages "a" 26] = 1085.
Proof. repeat split. Qed.

Lemma step_current_nonempty (st : LoopState) (item : InvoiceItem.t) :
  currentPageItems (paginate_step st item) <> [].
Proof.
  unfold paginate_step. simpl. intros H. apply app_eq_nil in H as [_ H].
  discriminate.
Qed.

Lemma loop_current_nonempty (items : list InvoiceItem.t) :
  items <> [] -> currentPageItems (paginate_loop items) <> [].
Proof.
  intros Hne. destruct (exists_last Hne) as (front & item & ->).
  unfold paginate_loop. rewrite fold_left_app. simpl.
  apply step_current_nonempty.
Qed.

Lemma itemPages_no_trailing_empty (items : list InvoiceItem.t)
    (body : list (list InvoiceItem.t)) :
  itemPages items <> body ++ [[]].
Proof.
  destruct items as [|item rest].
  - vm_compute. intros H. symmetry in H. apply app_eq_nil in H as [_ H].
    discriminate.
  - pose proof (loop_current_nonempty (item :: rest)) as Hcur.
    unfold itemPages.
    destruct (currentPageItems (paginate_loop (item :: rest))) as [|x cur] eqn:E.
    + exfalso. apply Hcur; [discriminate|reflexivity].
    + simpl. intros H. apply app_inj_tail in H as [_ H]. discriminate.
Qed.

(** The height that the footer check reads is the estimate of the last
    item page. *)
Lemma finalHeight_lastPage (items : list InvoiceItem.t) :
  finalHeight items = lastPageHeight (itemPages items).
Proof.
  destruct items as [|item rest]; [reflexivity|].
  pose proof (heightInvariant_fold (item :: rest) _ heightInvariant_init)
    as (_ & Hheight & _).
  pose proof (loop_current_nonempty (item :: rest) ltac:(discriminate)) as Hcur.
  unfold finalHeight, itemPages, lastPageHeight.
  fold (paginate_loop (item :: rest)) in Hheight. rewrite Hheight.
  destruct (currentPageItems (paginate_loop (item :: rest))) as [|x cur];
    [contradiction|].
  cbn [length Nat.ltb Nat.leb]. rewrite rev_app_distr. cbn [rev app].
  rewrite length_rev. reflexivity.
Qed.

(** C8. The page list ends with an empty page exactly when the estimate of
    the last item page (its start, header or top margin, plus the heights
    of its items; the bare header when there is no item) plus the footer
    height exceeds the budget, and this estimate is the height the loop has
    accumulated.  The empty page is the only one appended after the item
    pages, and the page before it is not empty.  For the empty item
    sequence there are zero pages. *)
Theorem trailing_footer_page (items : list InvoiceItem.t) :
  finalHeight items = lastPageHeight (itemPages items)
  /\ ((exists body, pages items = body ++ [[]])
      <-> lastPageHeight (itemPages items) + FOOTER_HEIGHT > PAGE_HEIGHT_ESTIMATE)
  /\ (forall body, pages items = body ++ [[]] ->
        body = itemPages items /\ forall body', body <> body' ++ [[]])
  /\ pages [] = [].
Proof.
  split; [apply finalHeight_lastPage|].
  rewrite <- finalHeight_lastPage.
  unfold pages at 1 2.
  destruct (Z.gtb_spec (finalHeight items + FOOTER_HEIGHT) PAGE_HEIGHT_ESTIMATE)
    as [Hover|Hfits].
  - split; [|split].
    + split; [lia|]. intros _. exists (itemPages items). reflexivity.
    + intros body H. apply app_inj_tail in H as [<- _].
      split; [reflexivity|]. apply itemPages_no_trailing_empty.
    + reflexivity.
  - split; [|split].
    + split; [|lia]. intros [body H].
      exfalso. exact (itemPages_no_trailing_empty items body H).
    + intros body H. exfalso. exact (itemPages_no_trailing_empty items body H).
    + reflexivity.
Qed.

Lemma trailing_footer_page_witness :
  [[]; [itemWithImages "a" 26]] = itemPages [itemWithImages "a" 26]
  /\ forall body', [[]; [itemWithImages "a" 26]] <> body' ++ [[]].
Proof.
  destruct (trailing_footer_page [itemWithImages "a" 26]) as (_ & _ & H & _).
  apply H. reflexivity.
Defined.

(** The footer check in figures: five full rows of images end the page at
    1045, the footer does not fit below them; three rows end it at 725,
    where it fits. *)
Example footer_page_figures :
  lastPageHeight (itemPages [itemWithImages "a" 25]) = 1045
  /\ map (map InvoiceItem.id) (pages [itemWithImages "a" 25]) = [["a"]; []]
  /\ lastPageHeight (itemPages [itemWithImages "a" 15]) = 725
  /\ map (map InvoiceItem.id) (pages [itemWithImages "a" 15]) = [["a"]].
Proof. repeat split. Qed.

End PaginatorFacts.

(** ** Editor: quantity follows the image count *)

Section EditorFacts.

Import Editor.

Lemma filter_indexed_past {A : Type} (target start : nat) (xs : list A) :
  (target < start)%nat ->
  filter_indexed (fun _ i => negb (Nat.eqb i target)) start xs = xs.
Proof.
  revert start. induction xs as [|x rest IH]; intros start Hlt; simpl.
  - reflexivity.
  - destruct (Nat.eqb_spec start target) as [E|_]; [lia|]. simpl.
    rewrite IH by lia. reflexivity.
Qed.

Lemma filter_indexed_from {A : Type} (imageIndex start : nat) (xs : list A) :
  filter_indexed (fun _ i => negb (Nat.eqb i (start + imageIndex))) start xs
  = without_index imageIndex xs.
Proof.
  revert imageIndex start.
  induction xs as [|x rest IH]; intros imageIndex start; simpl.
  - unfold without_index. destruct imageIndex; reflexivity.
  - destruct imageIndex as [|k].
    + rewrite Nat.add_0_r, Nat.eqb_refl. simpl.
      rewrite filter_indexed_past by lia. reflexivity.
    + destruct (Nat.eqb_spec start (start + S k)) as [E|_]; [lia|]. simpl.
      replace (start + S k)%nat with (S start + k)%nat by lia.
      rewrite IH. reflexivity.
Qed.

(** The index filter of the source removes exactly the element at
    [imageIndex] and keeps the others in order. *)
Lemma filter_indexed_without {A : Type} (imageIndex : nat) (xs : list A) :
  filter_indexed (fun _ i => negb (Nat.eqb i imageIndex)) 0 xs
  = without_index imageIndex xs.
Proof. exact (filter_indexed_from imageIndex 0 xs). Qed.

Lemma addImagesUpdater_items (itemId : string) (newUrls : list string)
    (items : list InvoiceItem.t) :
  Forall2 (addedTo itemId newUrls) items
    (map (fun item =>
            if String.eqb (InvoiceItem.id item) itemId then
              let newImages := InvoiceItem.images item ++ newUrls in
              with_quantity (number_of_nat (length newImages))
                (with_images newImages item)
            else item) items).
Proof.
  induction items as [|item rest IH]; simpl; constructor; [|exact IH].
  destruct (String.eqb_spec (InvoiceItem.id item) itemId) as [E|E]; split;
    intros H; try contradiction; try reflexivity.
  simpl. repeat split; reflexivity.
Qed.

Lemma handleRemoveImageFromItem_items (itemId : string) (imageIndex : nat)
    (items : list InvoiceItem.t) :
  Forall2 (removedFrom itemId imageIndex) items
    (map (fun item =>
            if String.eqb (InvoiceItem.id item) itemId then
              let newImages :=
                filter_indexed (fun _ i => negb (Nat.eqb i imageIndex)) 0
                  (InvoiceItem.images item) in
              with_quantity (number_of_nat (Nat.max 1 (length newImages)))
                (with_images newImages item)
            else item) items).
Proof.
  induction items as [|item rest IH]; simpl; constructor; [|exact IH].
  destruct (String.eqb_spec (InvoiceItem.id item) itemId) as [E|E]; split;
    intros H; try contradiction; try reflexivity.
  cbv zeta. rewrite filter_indexed_without. simpl.
  split; [reflexivity|]. split; [reflexivity|]. split.
  - intros Hlen ->.
    destruct (InvoiceItem.images item) as [|img [|img' more]]; try discriminate.
    split; reflexivity.
  - repeat split; reflexivity.
Qed.

(** C10. Adding images through the per-item upload appends them and sets
    the quantity of that item to its new image count; removing an image
    drops the image at that index and sets the quantity to
    [max(1, remaining image count)], so removing the last image leaves the
    quantity at 1.  In both cases the other fields of the item, the other
    items and the rest of the invoice are unchanged. *)
Theorem image_handlers_sync_quantity (itemId : string) (data : InvoiceData.t) :
  (forall (files : list (option string)) (newUrls : list string),
      files <> [] ->
      promise_all files = Some newUrls ->
      let data' := handleAddImageToItem itemId files data in
      data' = with_items (InvoiceData.items data') data
      /\ Forall2 (addedTo itemId newUrls)
           (InvoiceData.items data) (InvoiceData.items data'))
  /\ (forall imageIndex : nat,
        let data' := handleRemoveImageFromItem itemId imageIndex data in
        data' = with_items (InvoiceData.items data') data
        /\ Forall2 (removedFrom itemId imageIndex)
             (InvoiceData.items data) (InvoiceData.items data')).
Proof.
  split.
  - intros files newUrls Hne Hall. cbv zeta. unfold handleAddImageToItem.
    destruct files as [|file rest]; [contradiction|].
    rewrite Hall. simpl Nat.ltb. cbv iota.
    split; [reflexivity|]. apply addImagesUpdater_items.
  - intros imageIndex. cbv zeta. unfold handleRemoveImageFromItem.
    split; [reflexivity|]. apply handleRemoveImageFromItem_items.
Qed.

Lemma image_handlers_sync_quantity_witness :
  Forall2 (addedTo "a" ["third"])
    (InvoiceData.items Samples.twoImages)
    (InvoiceData.items
       (handleAddImageToItem "a" [Some "third"] Samples.twoImages)).
Proof.
  destruct (image_handlers_sync_quantity "a" Samples.twoImages) as [Hadd _].
  destruct (Hadd [Some "third"] ["third"]) as [_ H].
  - discriminate.
  - reflexivity.
  - exact H.
Defined.

End EditorFacts.

(** ** The dual-backend store *)

Section StoreFacts.

Import App.
Local Open Scope handler_scope.

Variable projectId : string.

Arguments isConfigured : simpl never.

Ltac run_handler :=
  unfold step, handler, handleEditInvoice, fetchInvoiceImages,
    handleDeleteInvoice, handleSaveInvoice, handleSaveSettings,
    handleSaveClient, handleSaveProject, render, when, andThen;
  cbv beta.

Ltac case_quota q := destruct q as [|[]].

Ltac case_remote :=
  repeat match goal with
    | |- context [negb (isOffline ?s) && isConfigured ?p] =>
        destruct (negb (isOffline s) && isConfigured p)
    | |- context [match ?r with Resolved _ => _ | Rejected _ => _ end] =>
        destruct r
    | |- context [isSizeLimitError ?e] => destruct (isSizeLimitError e)
    end.

Lemma localWrites_app (l1 l2 : list Event) :
  localWrites (l1 ++ l2) = localWrites l1 ++ localWrites l2.
Proof.
  induction l1 as [|e rest IH]; simpl; [reflexivity|].
  destruct e; simpl; rewrite IH; reflexivity.
Qed.

Lemma remoteCalls_app (l1 l2 : list Event) :
  remoteCalls (l1 ++ l2) = remoteCalls l1 ++ remoteCalls l2.
Proof.
  induction l1 as [|e rest IH]; simpl; [reflexivity|].
  destruct e; simpl; rewrite IH; reflexivity.
Qed.

Lemma alerts_app (l1 l2 : list Event) :
  SessionLog.alerts (l1 ++ l2) = SessionLog.alerts l1 ++ SessionLog.alerts l2.
Proof.
  induction l1 as [|e rest IH]; simpl; [reflexivity|].
  destruct e; simpl; rewrite IH; reflexivity.
Qed.

Ltac log_suffix :=
  eexists; split; [rewrite <- ?app_assoc; simpl; reflexivity | reflexivity].

(** One mutation whose local write the browser accepts: the in-memory
    change, then the local write of the full snapshot, then at most the
    remote call and a notice. *)
Lemma mutation_step (a : Action) (st : AppState) :
  mutates a st = true ->
  quotaOf a = Accepted ->
  let st' := step projectId st a in
  snapshot st' = applyChange a st
  /\ localStorage st' = stored (snapshot st')
  /\ exists rest,
       log st' = log st ++ LocalStorageWrite (snapshot st') :: rest
       /\ localWrites rest = [].
Proof.
  intros Hmut Hquota. cbv zeta.
  destruct a; cbn in Hmut, Hquota; try discriminate; subst; run_handler;
    unfold applyChange.
  - case_remote; cbn; repeat split; log_suffix.
  - destruct (activeInvoice st) as [active|]; [|discriminate].
    case_remote; cbn; repeat split; log_suffix.
  - case_remote; cbn; repeat split; log_suffix.
  - case_remote; cbn; repeat split; log_suffix.
  - case_remote; cbn; repeat split; log_suffix.
Qed.

(** One mutation whose local write throws: the in-memory change is made,
    the keys before the one that threw are written, and the handler ends
    there: nothing is logged, no remote call is made, no notice is raised
    and the ONLINE/OFFLINE state stays. *)
Lemma refused_step (a : Action) (st : AppState) (key : StorageKey) :
  mutates a st = true ->
  quotaOf a = Exceeded key ->
  let st' := step projectId st a in
  snapshot st' = applyChange a st
  /\ localStorage st' = storedBefore key (snapshot st') (localStorage st)
  /\ log st' = log st
  /\ isOffline st' = isOffline st
  /\ activeInvoice st' = activeInvoice st.
Proof.
  intros Hmut Hquota. cbv zeta.
  destruct a; cbn in Hmut, Hquota; try discriminate; subst; run_handler;
    unfold applyChange.
  - destruct key; repeat split.
  - destruct (activeInvoice st) as [active|] eqn:Hactive; [|discriminate].
    destruct key; repeat split; cbn; rewrite ?Hactive; reflexivity.
  - destruct key; repeat split.
  - destruct key; repeat split.
  - destruct key; repeat split.
Qed.

(** Any other action leaves the four collections and the local store as
    they are and writes nothing locally. *)
Lemma other_step (a : Action) (st : AppState) :
  mutates a st = false ->
  let st' := step projectId st a in
  snapshot st' = snapshot st
  /\ localStorage st' = localStorage st
  /\ exists rest, log st' = log st ++ rest /\ localWrites rest = [].
Proof.
  intros Hmut. cbv zeta.
  destruct a; cbn in Hmut; try discriminate; run_handler.
  - unfold bind. cbv beta.
    destruct (isOffline st || negb (isConfigured projectId));
      [|destruct (hasImages invoice); [|destruct reply]]; cbn;
      repeat split; try (exists []; rewrite app_nil_r; split; reflexivity);
      log_suffix.
  - repeat split. exists []. rewrite app_nil_r. split; reflexivity.
  - subst confirmed. repeat split.
    exists []. rewrite app_nil_r. split; reflexivity.
  - destruct (activeInvoice st) as [active|]; [discriminate|].
    repeat split. exists []. rewrite app_nil_r. split; reflexivity.
Qed.

Lemma session_local_writes (session : list Action) (st : AppState) :
  allAccepted session = true ->
  localWrites (log (run projectId session st))
  = localWrites (log st) ++ mutationSnapshots projectId session st.
Proof.
  unfold run. revert st. induction session as [|a rest IH]; intros st Hall; simpl.
  - rewrite app_nil_r. reflexivity.
  - cbn [allAccepted forallb] in Hall. apply andb_true_iff in Hall as [Ha Hrest].
    rewrite (IH _ Hrest).
    destruct (mutates a st) eqn:Hmut.
    + destruct (quotaOf a) eqn:Hquota; [|discriminate].
      destruct (mutation_step a st Hmut Hquota) as (_ & _ & tail & Hlog & Htail).
      rewrite Hlog, localWrites_app. simpl. rewrite Htail.
      rewrite <- app_assoc. reflexivity.
    + destruct (other_step a st Hmut) as (_ & _ & tail & Hlog & Htail).
      rewrite Hlog, localWrites_app, Htail, app_nil_r. reflexivity.
Qed.

Lemma session_keeps_mirror (session : list Action) (st : AppState) :
  allAccepted session = true ->
  localStorage st = stored (snapshot st) ->
  localStorage (run projectId session st)
  = stored (snapshot (run projectId session st)).
Proof.
  unfold run. revert st. induction session as [|a rest IH]; intros st Hall Hst; simpl.
  - exact Hst.
  - cbn [allAccepted forallb] in Hall. apply andb_true_iff in Hall as [Ha Hrest].
    apply (IH _ Hrest). destruct (mutates a st) eqn:Hmut.
    + destruct (quotaOf a) eqn:Hquota; [|discriminate].
      apply (mutation_step a st Hmut Hquota).
    + destruct (other_step a st Hmut) as (Hsnap & Hls & _).
      rewrite Hls, Hsnap. exact Hst.
Qed.

(** C3, as the code has it.  A mutation (a confirmed deletion or a save
    of an invoice, a save of the settings, of a client or of a project),
    whether the store is ONLINE or OFFLINE and whatever the remote store
    answers, makes its change to the in-memory collections and then starts
    the local write of the resulting snapshot.  When the browser accepts
    the write, it is the first thing the mutation emits, before any remote
    call, nothing else is written locally, and the local store holds the
    in-memory state (for numbers that JSON carries exactly).  When a
    [setItem] call throws, the handler ends there: memory holds the change,
    the local store only the keys written before the throw, and neither a
    remote call nor a notice follows.  Over a session in which every write
    is accepted, the local writes are exactly the in-memory snapshots after
    each mutation, in order, and the mirror is kept. *)
Theorem local_store_mirrors_memory :
  (forall (a : Action) (st : AppState),
      mutates a st = true ->
      quotaOf a = Accepted ->
      let st' := step projectId st a in
      snapshot st' = applyChange a st
      /\ (jsonExact (snapshot st') = true -> localStorage st' = stored (snapshot st'))
      /\ exists rest,
           log st' = log st ++ LocalStorageWrite (snapshot st') :: rest
           /\ localWrites rest = [])
  /\ (forall (a : Action) (st : AppState) (key : StorageKey),
        mutates a st = true ->
        quotaOf a = Exceeded key ->
        let st' := step projectId st a in
        snapshot st' = applyChange a st
        /\ (jsonExact (snapshot st') = true ->
            localStorage st' = storedBefore key (snapshot st') (localStorage st))
        /\ log st' = log st
        /\ isOffline st' = isOffline st)
  /\ (forall (session : list Action) (st : AppState),
        allAccepted session = true ->
        localWrites (log (run projectId session st))
        = localWrites (log st) ++ mutationSnapshots projectId session st
        /\ (Forall (fun snap => jsonExact snap = true)
              (mutationSnapshots projectId session st) ->
            localStorage st = stored (snapshot st) ->
            localStorage (run projectId session st)
            = stored (snapshot (run projectId session st)))).
Proof.
  split; [|split].
  - intros a st Hmut Hquota. cbv zeta.
    destruct (mutation_step a st Hmut Hquota) as (Hsnap & Hls & Hlog).
    split; [exact Hsnap|]. split; [intros _; exact Hls|exact Hlog].
  - intros a st key Hmut Hquota. cbv zeta.
    destruct (refused_step a st key Hmut Hquota) as (Hsnap & Hls & Hlog & Hoff & _).
    split; [exact Hsnap|]. split; [intros _; exact Hls|]. split; assumption.
  - intros session st Hall. split.
    + apply session_local_writes, Hall.
    + intros _. apply session_keeps_mirror, Hall.
Qed.

Lemma load_keeps_offline (st : AppState) :
  isOffline (snd (loadFromLocalStorage st)) = isOffline st
  /\ log (snd (loadFromLocalStorage st)) = log st.
Proof.
  unfold loadFromLocalStorage, render.
  destruct (localStorage st) as [[?|] [?|] [?|] [?|]]; split; reflexivity.
Qed.

(** The state in which the session starts. *)
Lemma boot_online_iff (ls : LocalStorage) (quota : Quota) (reply : Reply Fetched) :
  isOffline (boot projectId ls quota reply) = false
  <-> isConfigured projectId = true
      /\ (exists fetched, reply = Resolved fetched)
      /\ quota = Accepted.
Proof.
  unfold boot, fetchData.
  destruct (isConfigured projectId); cbn [negb].
  - destruct reply as [fetched|e].
    + destruct quota as [|key].
      * destruct (fetched_settings fetched);
          (split; [intros _; split; [reflexivity|split; [eauto|reflexivity]]
                  | reflexivity]).
      * split; [|intros (_ & _ & H); discriminate H].
        destruct (fetched_settings fetched), key, ls as [[?|] [?|] [?|] [?|]];
          cbn; discriminate.
    + split; [|intros (_ & [fetched H] & _); discriminate H].
      destruct ls as [[?|] [?|] [?|] [?|]]; cbn; discriminate.
  - split; [|intros (H & _); discriminate H].
    destruct ls as [[?|] [?|] [?|] [?|]]; cbn; discriminate.
Qed.

Lemma boot_unconfigured (ls : LocalStorage) (quota : Quota) (reply : Reply Fetched) :
  isConfigured projectId = false ->
  isOffline (boot projectId ls quota reply) = true
  /\ remoteCalls (log (boot projectId ls quota reply)) = [].
Proof.
  intros Hcfg. unfold boot, fetchData. rewrite Hcfg. cbn [negb].
  destruct ls as [[?|] [?|] [?|] [?|]]; split; reflexivity.
Qed.

(** Once OFFLINE, an action keeps the store OFFLINE and calls nothing
    remote. *)
Lemma offline_step (a : Action) (st : AppState) :
  isOffline st = true ->
  isOffline (step projectId st a) = true
  /\ exists rest,
       log (step projectId st a) = log st ++ rest /\ remoteCalls rest = [].
Proof.
  intros Hoff.
  destruct a; run_handler; unfold bind; cbv beta; rewrite ?Hoff; cbn [negb andb orb].
  - split; [exact Hoff|]. exists []. rewrite app_nil_r. split; reflexivity.
  - split; [exact Hoff|]. exists []. rewrite app_nil_r. split; reflexivity.
  - destruct confirmed; [case_quota quota|]; cbn; (split; [exact Hoff|]);
      first [log_suffix | exists []; rewrite app_nil_r; split; reflexivity].
  - destruct (activeInvoice st); [case_quota quota|]; cbn; (split; [exact Hoff|]);
      first [log_suffix | exists []; rewrite app_nil_r; split; reflexivity].
  - case_quota quota; cbn; (split; [exact Hoff|]);
      first [log_suffix | exists []; rewrite app_nil_r; split; reflexivity].
  - case_quota quota; cbn; (split; [exact Hoff|]);
      first [log_suffix | exists []; rewrite app_nil_r; split; reflexivity].
  - case_quota quota; cbn; (split; [exact Hoff|]);
      first [log_suffix | exists []; rewrite app_nil_r; split; reflexivity].
Qed.

Lemma offline_session (session : list Action) (st : AppState) :
  isOffline st = true ->
  isOffline (run projectId session st) = true
  /\ exists rest,
       log (run projectId session st) = log st ++ rest /\ remoteCalls rest = [].
Proof.
  unfold run. revert st.
  induction session as [|a more IH]; intros st Hoff; simpl.
  - split; [exact Hoff|]. exists []. rewrite app_nil_r. split; reflexivity.
  - destruct (offline_step a st Hoff) as (Hoff1 & rest1 & Hlog1 & Hrem1).
    destruct (IH _ Hoff1) as (Hoff2 & rest2 & Hlog2 & Hrem2).
    split; [exact Hoff2|]. exists (rest1 ++ rest2). split.
    + rewrite Hlog2, Hlog1, app_assoc. reflexivity.
    + rewrite remoteCalls_app, Hrem1, Hrem2. reflexivity.
Qed.

(** What an action does to the ONLINE state. *)
Lemma online_step (a : Action) (st : AppState) :
  isOffline st = false ->
  isOffline (step projectId st a)
  = callsRemote (isConfigured projectId) a st
    && match rejection a with
       | Some e => negb (isEdit a) && negb (isSaveInvoice a && isSizeLimitError e)
       | None => false
       end.
Proof.
  intros Hon. unfold callsRemote. rewrite Hon. cbn [negb andb].
  destruct a; run_handler; unfold bind; cbv beta; rewrite ?Hon;
    cbn [negb andb orb mutates quotaOf rejection isEdit isSaveInvoice].
  - destruct (isConfigured projectId); cbn [negb andb orb]; [|exact Hon].
    destruct (hasImages invoice); [exact Hon|].
    destruct reply; cbn; rewrite Hon, ?andb_false_r; reflexivity.
  - cbn. rewrite Hon, andb_false_r. reflexivity.
  - destruct (isConfigured projectId), confirmed; case_quota quota;
      try destruct reply; cbn; rewrite ?Hon; reflexivity.
  - destruct (isConfigured projectId), (activeInvoice st); case_quota quota;
      try destruct reply as [v|e]; try destruct (isSizeLimitError e);
      cbn; rewrite ?Hon; reflexivity.
  - destruct (isConfigured projectId); case_quota quota;
      try destruct reply; cbn; rewrite ?Hon; reflexivity.
  - destruct (isConfigured projectId); case_quota quota;
      try destruct reply; cbn; rewrite ?Hon; reflexivity.
  - destruct (isConfigured projectId); case_quota quota;
      try destruct reply; cbn; rewrite ?Hon; reflexivity.
Qed.

(** What an action sends to the remote store. *)
Lemma remote_step (a : Action) (st : AppState) :
  callsRemote (isConfigured projectId) a st = true ->
  exists call,
    remoteCalls (log (step projectId st a)) = remoteCalls (log st) ++ [call].
Proof.
  unfold callsRemote. intros H.
  apply andb_true_iff in H as [H Hact]. apply andb_true_iff in H as [Hon Hcfg].
  apply negb_true_iff in Hon.
  destruct a; run_handler; unfold bind; cbv beta; rewrite ?Hon, ?Hcfg;
    cbn [negb andb orb mutates quotaOf] in *; try discriminate.
  - apply negb_true_iff in Hact. rewrite Hact.
    destruct reply; cbn; rewrite remoteCalls_app; eexists; reflexivity.
  - destruct confirmed; [|discriminate]. destruct quota; [|discriminate].
    destruct reply; cbn; rewrite <- ?app_assoc, !remoteCalls_app; eexists; reflexivity.
  - destruct (activeInvoice st); [|discriminate]. destruct quota; [|discriminate].
    destruct reply as [v|e]; try destruct (isSizeLimitError e);
      cbn; rewrite <- ?app_assoc, !remoteCalls_app; cbn; eexists; reflexivity.
  - destruct quota; [|discriminate].
    destruct reply; cbn; rewrite <- ?app_assoc, !remoteCalls_app; cbn; eexists; reflexivity.
  - destruct quota; [|discriminate].
    destruct reply; cbn; rewrite <- ?app_assoc, !remoteCalls_app; eexists; reflexivity.
  - destruct quota; [|discriminate].
    destruct reply; cbn; rewrite <- ?app_assoc, !remoteCalls_app; eexists; reflexivity.
Qed.

(** C4, as the code has it.  After the bootstrap the store is ONLINE
    exactly when the remote configuration is present, the bootstrap reads
    succeeded and the fetched data could be written locally; without
    configuration it is OFFLINE for the whole session and no remote call is
    ever made.  While ONLINE, an action takes the store OFFLINE only if its
    remote operation was made and failed.  A remote write that fails with
    an error other than the size limit does take it OFFLINE; a rejected
    batch of an invoice whose error reports the size limit leaves it
    ONLINE, and so does a failed read of the child records of an invoice;
    in both cases the next action calls the remote store again.  Once the
    store is OFFLINE every later action leaves it OFFLINE and makes no
    remote call. *)
Theorem offline_transition_is_sticky :
  (forall (ls : LocalStorage) (quota : Quota) (reply : Reply Fetched),
      isOffline (boot projectId ls quota reply) = false
      <-> isConfigured projectId = true
          /\ (exists fetched, reply = Resolved fetched)
          /\ quota = Accepted)
  /\ (forall (ls : LocalStorage) (quota : Quota) (reply : Reply Fetched)
             (session : list Action),
        isConfigured projectId = false ->
        let st := run projectId session (boot projectId ls quota reply) in
        isOffline st = true /\ remoteCalls (log st) = [])
  /\ (forall (a : Action) (st : AppState),
        isOffline st = false ->
        isOffline (step projectId st a) = true ->
        callsRemote (isConfigured projectId) a st = true
        /\ exists e, rejection a = Some e)
  /\ (forall (a : Action) (st : AppState) (e : JsError),
        callsRemote (isConfigured projectId) a st = true ->
        rejection a = Some e ->
        isEdit a = false ->
        isSizeLimitError e = false ->
        isOffline (step projectId st a) = true)
  /\ (forall (a next : Action) (st : AppState) (e : JsError),
        callsRemote (isConfigured projectId) a st = true ->
        rejection a = Some e ->
        isEdit a = true \/ (isSaveInvoice a = true /\ isSizeLimitError e = true) ->
        let st' := step projectId st a in
        isOffline st' = false
        /\ (callsRemote (isConfigured projectId) next st' = true ->
            exists call,
              remoteCalls (log (step projectId st' next))
              = remoteCalls (log st') ++ [call]))
  /\ (forall (session : list Action) (st : AppState),
        isOffline st = true ->
        let st' := run projectId session st in
        isOffline st' = true
        /\ exists rest, log st' = log st ++ rest /\ remoteCalls rest = []).
Proof.
  split; [exact boot_online_iff|].
  split; [|split; [|split; [|split; [|exact offline_session]]]].
  - intros ls quota reply session Hcfg. cbv zeta.
    destruct (boot_unconfigured ls quota reply Hcfg) as [Hoff Hrem].
    destruct (offline_session session _ Hoff) as (Hoff' & rest & Hlog & Hrest).
    split; [exact Hoff'|].
    rewrite Hlog, remoteCalls_app, Hrem, Hrest. reflexivity.
  - intros a st Hon Hoff. rewrite (online_step a st Hon) in Hoff.
    apply andb_true_iff in Hoff as [Hcall Hrej].
    split; [exact Hcall|]. destruct (rejection a) as [e|]; [eauto|discriminate].
  - intros a st e Hcall Hrej Hedit Hsize.
    assert (Hon : isOffline st = false).
    { unfold callsRemote in Hcall. destruct (isOffline st); [discriminate|reflexivity]. }
    rewrite (online_step a st Hon), Hcall, Hrej, Hedit, Hsize, andb_false_r.
    reflexivity.
  - intros a next st e Hcall Hrej Hwhy. cbv zeta.
    assert (Hon : isOffline st = false).
    { unfold callsRemote in Hcall. destruct (isOffline st); [discriminate|reflexivity]. }
    split; [|apply remote_step].
    rewrite (online_step a st Hon), Hcall, Hrej.
    destruct Hwhy as [->|[-> ->]]; [reflexivity|apply andb_false_r].
Qed.

Lemma hasImages_true (invoice : InvoiceData.t) :
  hasImages invoice = true
  <-> Exists (fun item => InvoiceItem.images item <> []) (InvoiceData.items invoice).
Proof.
  unfold hasImages. rewrite existsb_exists, List.Exists_exists.
  split; intros (item & Hin & H); exists item; (split; [exact Hin|]).
  - destruct (InvoiceItem.images item); [discriminate H|discriminate].
  - destruct (InvoiceItem.images item); [contradiction|reflexivity].
Qed.

Lemma hasImages_false (invoice : InvoiceData.t) :
  hasImages invoice = false
  <-> Forall (fun item => InvoiceItem.images item = []) (InvoiceData.items invoice).
Proof.
  unfold hasImages. induction (InvoiceData.items invoice) as [|item rest IH]; simpl.
  - split; [constructor|reflexivity].
  - rewrite Forall_cons_iff, <- IH.
    destruct (InvoiceItem.images item); simpl; split.
    + intros H. split; [reflexivity|exact H].
    + intros [_ H]. exact H.
    + discriminate.
    + intros [H _]. discriminate.
Qed.

(** The collection of the child records throws at the first record whose
    key names an inherited member, and only then. *)
Lemma collectImages_throws (docs : list ImageDoc)
    (imageMap : gmap string (list string)) :
  collectImages docs imageMap = None
  <-> Exists (fun doc => PlainObject.plainKey (split_first (doc_id doc)) = false) docs.
Proof.
  revert imageMap. induction docs as [|doc rest IH]; intros imageMap;
    cbn [collectImages].
  - split; [discriminate|]. intros H. inversion H.
  - unfold collectImage.
    destruct (PlainObject.plainKey (split_first (doc_id doc))) eqn:Hplain.
    + rewrite IH. split; [intros H; right; exact H|].
      intros H. inversion H as [? ? Hhead|? ? Htail]; subst; [congruence|exact Htail].
    + split; [intros _; left; exact Hplain|reflexivity].
Qed.

(** C9. Opening an invoice for editing while ONLINE: if some line item
    already holds an image, the invoice is taken as it is, nothing is
    fetched and the state is untouched by the fetch, so its imageless items
    stay imageless; only if every image list is empty are the child records
    requested.  What comes back is spliced in (stated for items whose ids
    are plain keys); the invoice stays as it is when the request fails or a
    record key names a member that the map inherits.  In every case the
    result becomes the invoice under edit. *)
Theorem edit_fetches_only_when_imageless (invoice : InvoiceData.t)
    (reply : Reply (list ImageDoc)) (st : AppState) :
  isOffline st = false ->
  isConfigured projectId = true ->
  let fetched := fetchInvoiceImages projectId invoice reply st in
  (Exists (fun item => InvoiceItem.images item <> []) (InvoiceData.items invoice) ->
     fetched = (invoice, st))
  /\ (Forall (fun item => InvoiceItem.images item = []) (InvoiceData.items invoice) ->
      log (snd fetched) = log st ++ [Remote (GetInvoiceImages (InvoiceData.id invoice))]
      /\ (forall e, reply = Rejected e -> fst fetched = invoice)
      /\ (forall docs, reply = Resolved docs ->
            (Exists (fun doc => PlainObject.plainKey (split_first (doc_id doc)) = false)
               docs ->
             fst fetched = invoice)
            /\ (Forall (fun item => PlainObject.plainKey (InvoiceItem.id item) = true)
                  (InvoiceData.items invoice) ->
                fst fetched = spliceImages invoice docs)))
  /\ activeInvoice (step projectId st (EditInvoice invoice reply)) = Some (fst fetched)
  /\ remoteCalls (log (step projectId st (EditInvoice invoice reply)))
     = remoteCalls (log (snd fetched)).
Proof.
  intros Hon Hcfg. cbv zeta.
  unfold step, handler, handleEditInvoice, fetchInvoiceImages, render,
    firestore, emit, bind, ret, setActiveInvoice, setCurrentView.
  rewrite Hon, Hcfg. simpl.
  split; [|split].
  - intros Hsome. apply hasImages_true in Hsome. rewrite Hsome. reflexivity.
  - intros Hnone. apply hasImages_false in Hnone. rewrite Hnone.
    split; [destruct reply; reflexivity|]. split.
    + intros e ->. reflexivity.
    + intros docs ->. cbn [fst]. split; [|reflexivity].
      intros Hthrow. unfold spliceImages, buildImageMap.
      apply collectImages_throws with (imageMap := ∅) in Hthrow.
      rewrite Hthrow. reflexivity.
  - destruct (hasImages invoice); [|destruct reply]; simpl; split; reflexivity.
Qed.

(** Every handler other than [handleSaveInvoice] treats a rejection for
    size like any other: the store goes OFFLINE. *)
Lemma settings_rejection_goes_offline (st : AppState) (newSettings : AppSettings)
    (e : JsError) :
  isOffline st = false ->
  isConfigured projectId = true ->
  let st' := step projectId st (SaveSettings newSettings Accepted (Rejected e)) in
  isOffline st' = true
  /\ log st' = log st ++
       [LocalStorageWrite (snapshot st'); Remote (SetSettingsDoc newSettings);
        Alert "Connection lost. Settings saved locally."].
Proof.
  intros Hon Hcfg. cbv zeta. run_handler. unfold bind. cbv beta.
  rewrite Hon, Hcfg. cbn. split; [reflexivity|].
  rewrite <- !app_assoc. reflexivity.
Qed.

End StoreFacts.

(** ** The store on sample sessions *)

Section StoreSamples.

Import App.

Lemma local_store_mirrors_memory_witness :
  let a := SaveClient Samples.acme Accepted (Rejected Samples.networkError) in
  let st' := step Samples.projectId Samples.onlineEditing a in
  localStorage st' = stored (snapshot st').
Proof.
  cbv zeta.
  apply (proj1 (local_store_mirrors_memory Samples.projectId)
           (SaveClient Samples.acme Accepted (Rejected Samples.networkError))
           Samples.onlineEditing); reflexivity.
Defined.

(** C3, as stated, fails: a client is saved while OFFLINE and the browser
    refuses the local write.  Memory holds the client, the local store does
    not, nothing was written and nothing is reported; the next start from
    this store has lost the client. *)
Lemma refused_write_loses_mutation :
  isOffline Samples.offlineMirrored = true
  /\ localStorage Samples.offlineMirrored = stored (snapshot Samples.offlineMirrored)
  /\ mutates (SaveClient Samples.acme (Exceeded PbInvoices) (Resolved tt))
       Samples.offlineMirrored = true
  /\ clients Samples.afterRefusedWrite = [Samples.acme; Samples.acme]
  /\ localStorage Samples.afterRefusedWrite
     <> stored (snapshot Samples.afterRefusedWrite)
  /\ log Samples.afterRefusedWrite = log Samples.offlineMirrored
  /\ clients
       (boot Samples.projectId (localStorage Samples.afterRefusedWrite) Accepted
          (Rejected Samples.networkError))
     = [Samples.acme].
Proof.
  repeat split. intros H. vm_compute in H. discriminate H.
Qed.

(** C4, as stated, fails: the batch of an invoice is rejected for its size
    while ONLINE, or the read of the child records of an invoice fails
    while ONLINE; the store stays ONLINE, and the next action calls the
    remote store again. *)
Lemma failed_operations_stay_online :
  isOffline Samples.onlineEditing = false
  /\ rejection (SaveInvoice Accepted (Rejected Samples.sizeLimitError))
     = Some Samples.sizeLimitError
  /\ remoteCalls (log Samples.afterOversizedBatch)
     = remoteCalls (log Samples.onlineEditing)
       ++ [BatchCommit "inv1" (lightweightInvoice Samples.twoImages)
             (imageWrites Samples.twoImages)]
  /\ isOffline Samples.afterOversizedBatch = false
  /\ remoteCalls (log Samples.thenSaveClient)
     = remoteCalls (log Samples.afterOversizedBatch) ++ [SetClientDoc Samples.acme]
  /\ rejection (EditInvoice (lightweightInvoice Samples.twoImages)
                  (Rejected Samples.networkError))
     = Some Samples.networkError
  /\ remoteCalls (log Samples.afterFailedFetch)
     = remoteCalls (log Samples.onlineEditing) ++ [GetInvoiceImages "inv1"]
  /\ isOffline Samples.afterFailedFetch = false
  /\ remoteCalls (log Samples.thenSaveClientAgain)
     = remoteCalls (log Samples.afterFailedFetch) ++ [SetClientDoc Samples.acme].
Proof. repeat split. Qed.

Lemma offline_transition_is_sticky_witness :
  isOffline
    (step Samples.projectId Samples.onlineEditing
       (SaveClient Samples.acme Accepted (Rejected Samples.networkError)))
  = true.
Proof.
  destruct (offline_transition_is_sticky Samples.projectId) as (_ & _ & _ & H & _).
  apply (H _ _ Samples.networkError); reflexivity.
Defined.

(** C5 at the settings path: the remote write of the settings is rejected
    with the size-limit error while ONLINE.  The handler does not tell it
    apart: the store goes OFFLINE and the notice is the one for a lost
    connection. *)
Theorem settings_size_limit_goes_offline :
  isOffline Samples.onlineEditing = false
  /\ isConfigured Samples.projectId = true
  /\ isSizeLimitError Samples.sizeLimitError = true
  /\ isOffline Samples.afterOversizedSettings = true
  /\ log Samples.afterOversizedSettings
     = log Samples.onlineEditing ++
       [LocalStorageWrite (snapshot Samples.afterOversizedSettings);
        Remote (SetSettingsDoc Samples.settingsWithLogo);
        Alert "Connection lost. Settings saved locally."].
Proof. repeat split. Qed.

Lemma edit_fetches_only_when_imageless_witness :
  fetchInvoiceImages Samples.projectId Samples.partlyLoaded
    (Resolved [mkImageDoc "a_0" "remote"]) Samples.onlineEditing
  = (Samples.partlyLoaded, Samples.onlineEditing).
Proof.
  apply (edit_fetches_only_when_imageless Samples.projectId Samples.partlyLoaded
           (Resolved [mkImageDoc "a_0" "remote"]) Samples.onlineEditing).
  - reflexivity.
  - reflexivity.
  - apply Exists_cons_tl, Exists_cons_hd. discriminate.
Defined.

End StoreSamples.

(** ** Chunked persistence *)

Section PersistenceFacts.

Import App.

Lemma insertByDocId_perm (doc : ImageDoc) (sorted : list ImageDoc) :
  Permutation (insertByDocId doc sorted) (doc :: sorted).
Proof.
  induction sorted as [|d rest IH]; simpl.
  - reflexivity.
  - destruct (String.leb (doc_id doc) (doc_id d)).
    + reflexivity.
    + rewrite IH. apply perm_swap.
Qed.

(** Ordering by document id returns the same set of child records. *)
Lemma ascendingByDocId_perm (docs : list ImageDoc) :
  Permutation (ascendingByDocId docs) docs.
Proof.
  induction docs as [|doc rest IH]; simpl.
  - reflexivity.
  - rewrite insertByDocId_perm, IH. reflexivity.
Qed.

(** C1 on an invoice whose single item holds eleven images.  It is saved
    while ONLINE: the batch carries the lightweight record and the child
    records [a_0] ... [a_10].  In the next session the lightweight record is
    read back and the invoice is opened for editing; all its child records
    come back, in ascending order of their ids, where [a_10] precedes
    [a_2].  The images are spliced in the order of arrival: the eleventh
    image ends up third, and the invoice under edit is not the one that was
    saved. *)
Theorem reassembly_follows_fetch_order :
  remoteCalls (log Samples.savedEleven)
  = remoteCalls (log Samples.onlineEditing)
    ++ [BatchCommit "inv1" (lightweightInvoice Samples.elevenImages)
          (imageWrites Samples.elevenImages)]
  /\ invoices Samples.restartedEleven = [lightweightInvoice Samples.elevenImages]
  /\ isOffline Samples.restartedEleven = false
  /\ Permutation (ascendingByDocId (imageWrites Samples.elevenImages))
       (imageWrites Samples.elevenImages)
  /\ map doc_id (ascendingByDocId (imageWrites Samples.elevenImages))
     = ["a_0"; "a_1"; "a_10"; "a_2"; "a_3"; "a_4"; "a_5"; "a_6"; "a_7"; "a_8"; "a_9"]
  /\ activeInvoice Samples.reopenedEleven
     = Some (with_items
               [Samples.lineItem "a" 1500 11
                  ["i0"; "i1"; "i10"; "i2"; "i3"; "i4"; "i5"; "i6"; "i7"; "i8"; "i9"]]
               Samples.elevenImages)
  /\ activeInvoice Samples.reopenedEleven <> Some Samples.elevenImages.
Proof.
  split; [reflexivity|].
  split; [reflexivity|].
  split; [reflexivity|].
  split; [apply ascendingByDocId_perm|].
  split; [reflexivity|].
  split; [vm_compute; reflexivity|].
  intros H. vm_compute in H. discriminate H.
Qed.

(** The same on two images that arrive in the opposite order. *)
Lemma reassembly_reversed_fetch :
  Permutation (rev (imageWrites Samples.twoImages)) (imageWrites Samples.twoImages)
  /\ map InvoiceItem.images
       (InvoiceData.items
          (spliceImages (lightweightInvoice Samples.twoImages)
             (rev (imageWrites Samples.twoImages))))
     = [["second"; "first"]].
Proof.
  split.
  - symmetry. apply Permutation_rev.
  - vm_compute. reflexivity.
Qed.

(** *** When the order of arrival is the order of writing *)

Lemma split_first_key (itemId suffix : string) :
  freeOfUnderscore itemId = true ->
  split_first (itemId ++ "_" ++ suffix) = itemId.
Proof.
  induction itemId as [|c rest IH]; simpl; intros Hfree.
  - reflexivity.
  - apply andb_true_iff in Hfree as [Hc Hrest].
    destruct (Ascii.eqb c "_"%char); [discriminate|].
    rewrite IH by exact Hrest. reflexivity.
Qed.

Lemma payloadsOf_app (itemId : string) (docs1 docs2 : list ImageDoc) :
  payloadsOf itemId (docs1 ++ docs2)
  = payloadsOf itemId docs1 ++ payloadsOf itemId docs2.
Proof. unfold payloadsOf. rewrite List.filter_app, map_app. reflexivity. Qed.

(** What the map holds for a key after the records were collected. *)
Lemma collected_lookup (docs : list ImageDoc)
    (imageMap result : gmap string (list string)) (itemId : string) :
  collectImages docs imageMap = Some result ->
  result !! itemId
  = match imageMap !! itemId, payloadsOf itemId docs with
    | Some images, payloads => Some (images ++ payloads)
    | None, [] => None
    | None, payloads => Some payloads
    end.
Proof.
  revert imageMap. induction docs as [|doc rest IH]; intros imageMap;
    cbn [collectImages].
  - intros [= <-]. unfold payloadsOf. simpl.
    destruct (imageMap !! itemId); [|reflexivity].
    rewrite app_nil_r. reflexivity.
  - unfold collectImage.
    destruct (PlainObject.plainKey (split_first (doc_id doc))); [|discriminate].
    intros Hrest. rewrite (IH _ Hrest). unfold payloadsOf. simpl.
    destruct (String.eqb_spec (split_first (doc_id doc)) itemId) as [->|Hne].
    + rewrite lookup_alter_eq.
      destruct (imageMap !! itemId) as [images|] eqn:Hm; simpl.
      * rewrite Hm. simpl. rewrite <- app_assoc. reflexivity.
      * rewrite lookup_insert_eq. simpl. reflexivity.
    + rewrite lookup_alter_ne by exact Hne.
      destruct (imageMap !! split_first (doc_id doc)); [reflexivity|].
      rewrite lookup_insert_ne by exact Hne. reflexivity.
Qed.

(** When no record key names an inherited member, the map is built, and it
    holds for each key the payloads of its records in their order. *)
Lemma buildImageMap_plain (docs : list ImageDoc) :
  Forall (fun doc => PlainObject.plainKey (split_first (doc_id doc)) = true) docs ->
  exists imageMap,
    buildImageMap docs = Some imageMap
    /\ forall itemId,
         imageMap !! itemId
         = match payloadsOf itemId docs with
           | [] => None
           | payloads => Some payloads
           end.
Proof.
  intros Hplain. unfold buildImageMap.
  destruct (collectImages docs ∅) as [imageMap|] eqn:Hbuilt.
  - exists imageMap. split; [reflexivity|]. intros itemId.
    rewrite (collected_lookup docs ∅ imageMap itemId Hbuilt), lookup_empty.
    reflexivity.
  - exfalso. apply collectImages_throws in Hbuilt.
    apply List.Exists_exists in Hbuilt as (doc & Hin & Hthrow).
    rewrite List.Forall_forall in Hplain. rewrite (Hplain doc Hin) in Hthrow.
    discriminate Hthrow.
Qed.

Lemma payloadsOf_item (item : InvoiceItem.t) (itemId : string) (start : nat)
    (images : list string) :
  freeOfUnderscore (InvoiceItem.id item) = true ->
  payloadsOf itemId
    (map_indexed
       (fun imgData idx =>
          mkImageDoc (InvoiceItem.id item ++ "_" ++ index_to_string idx) imgData)
       start images)
  = if String.eqb (InvoiceItem.id item) itemId then images else [].
Proof.
  intros Hfree. revert start.
  induction images as [|img rest IH]; intros start.
  - destruct (String.eqb _ _); reflexivity.
  - unfold payloadsOf in *. simpl. rewrite split_first_key by exact Hfree.
    specialize (IH (S start)).
    destruct (String.eqb (InvoiceItem.id item) itemId); simpl; rewrite IH;
      reflexivity.
Qed.

Lemma payloadsOf_absent (items : list InvoiceItem.t) (itemId : string) :
  Forall (fun item => freeOfUnderscore (InvoiceItem.id item) = true) items ->
  ~ In itemId (map InvoiceItem.id items) ->
  payloadsOf itemId
    (flat_map
       (fun item =>
          map_indexed
            (fun imgData idx =>
               mkImageDoc (InvoiceItem.id item ++ "_" ++ index_to_string idx) imgData)
            0 (InvoiceItem.images item))
       items)
  = [].
Proof.
  induction items as [|item rest IH]; simpl; intros Hfree Hnotin.
  - reflexivity.
  - apply Forall_cons_iff in Hfree as [Hitem Hrest].
    rewrite payloadsOf_app, payloadsOf_item by exact Hitem.
    destruct (String.eqb_spec (InvoiceItem.id item) itemId) as [E|_].
    + exfalso. apply Hnotin. left. exact E.
    + simpl. apply IH; [exact Hrest|]. intros Hin. apply Hnotin. right. exact Hin.
Qed.

(** The child records written for an invoice list, for each item, the
    images of that item in their order. *)
Lemma payloadsOf_imageWrites (invoice : InvoiceData.t) (item : InvoiceItem.t) :
  List.NoDup (map InvoiceItem.id (InvoiceData.items invoice)) ->
  Forall (fun item => freeOfUnderscore (InvoiceItem.id item) = true)
    (InvoiceData.items invoice) ->
  In item (InvoiceData.items invoice) ->
  payloadsOf (InvoiceItem.id item) (imageWrites invoice) = InvoiceItem.images item.
Proof.
  unfold imageWrites.
  induction (InvoiceData.items invoice) as [|first rest IH]; simpl;
    intros Hnodup Hfree Hin; [contradiction|].
  apply NoDup_cons_iff in Hnodup as [Hfresh Hnodup].
  apply Forall_cons_iff in Hfree as [Hfirst Hrest].
  rewrite payloadsOf_app, payloadsOf_item by exact Hfirst.
  destruct Hin as [->|Hin].
  - rewrite String.eqb_refl, payloadsOf_absent by assumption.
    apply app_nil_r.
  - destruct (String.eqb_spec (InvoiceItem.id first) (InvoiceItem.id item))
      as [E|_].
    + exfalso. apply Hfresh. rewrite E. apply in_map. exact Hin.
    + simpl. apply IH; assumption.
Qed.

Lemma restore_item (item : InvoiceItem.t) :
  pagesKept item -> with_images (InvoiceItem.images item) (cleanItem item) = item.
Proof.
  destruct item as [id description quantity price images pages].
  unfold pagesKept, cleanItem, with_images, with_pages. simpl.
  destruct pages as [p|]; [intros ->|intros _]; reflexivity.
Qed.

(** Records that stand for the images of an invoice have keys that start
    with the id of one of its items. *)
Lemma prefixes_are_item_ids (invoice : InvoiceData.t) (docs : list ImageDoc)
    (doc : ImageDoc) :
  Forall (fun item => freeOfUnderscore (InvoiceItem.id item) = true)
    (InvoiceData.items invoice) ->
  (forall itemId, payloadsOf itemId docs = payloadsOf itemId (imageWrites invoice)) ->
  In doc docs ->
  In (split_first (doc_id doc)) (map InvoiceItem.id (InvoiceData.items invoice)).
Proof.
  intros Hfree Hdocs Hin.
  destruct (in_dec string_dec (split_first (doc_id doc))
              (map InvoiceItem.id (InvoiceData.items invoice))) as [Hyes|Hno];
    [exact Hyes|exfalso].
  pose proof (payloadsOf_absent (InvoiceData.items invoice) _ Hfree Hno) as Habsent.
  fold (imageWrites invoice) in Habsent. rewrite <- Hdocs in Habsent.
  unfold payloadsOf in Habsent. apply map_eq_nil in Habsent.
  assert (Hthere : In doc
            (List.filter
               (fun d => String.eqb (split_first (doc_id d)) (split_first (doc_id doc)))
               docs)).
  { apply List.filter_In. split; [exact Hin|apply String.eqb_refl]. }
  rewrite Habsent in Hthere. exact Hthere.
Qed.

(** The round trip of C1 holds on the code when every item's child records
    arrive in the order in which they were written (the records of
    different items may be interleaved), for invoices whose item ids are
    pairwise distinct plain keys free of underscores and whose page counts
    are not dropped by the lightweight record. *)
Lemma round_trip_when_order_kept (invoice : InvoiceData.t) (docs : list ImageDoc) :
  wellKeyed invoice ->
  (forall itemId, payloadsOf itemId docs = payloadsOf itemId (imageWrites invoice)) ->
  spliceImages (lightweightInvoice invoice) docs = invoice.
Proof.
  intros [Hnodup Hitems] Hdocs.
  assert (Hfree : Forall (fun item => freeOfUnderscore (InvoiceItem.id item) = true)
                    (InvoiceData.items invoice)).
  { eapply List.Forall_impl; [|exact Hitems]. intros item [H _]. exact H. }
  assert (Hplain : Forall (fun doc => PlainObject.plainKey (split_first (doc_id doc)) = true)
                     docs).
  { apply List.Forall_forall. intros doc Hin.
    pose proof (prefixes_are_item_ids invoice docs doc Hfree Hdocs Hin) as Hid.
    apply in_map_iff in Hid as (item & <- & Hitem).
    rewrite List.Forall_forall in Hitems. apply (Hitems item Hitem). }
  destruct (buildImageMap_plain docs Hplain) as (imageMap & Hbuilt & Hlookup).
  unfold spliceImages. rewrite Hbuilt. unfold fullInvoice, lightweightInvoice.
  destruct invoice as [id number date due project client items tax discount status bank].
  unfold with_items. simpl in *. f_equal.
  rewrite map_map. rewrite <- (map_id items) at 2.
  apply map_ext_in. intros item Hin.
  rewrite Hlookup.
  replace (InvoiceItem.id (cleanItem item)) with (InvoiceItem.id item)
    by (destruct item; reflexivity).
  rewrite Hdocs.
  rewrite (payloadsOf_imageWrites
             (InvoiceData.mk id number date due project client items tax discount
                status bank) item Hnodup Hfree Hin).
  assert (Hkept : pagesKept item).
  { rewrite List.Forall_forall in Hitems. apply (Hitems item Hin). }
  assert (Hclean : InvoiceItem.images (cleanItem item) = []) by reflexivity.
  rewrite Hclean.
  transitivity (with_images (InvoiceItem.images item) (cleanItem item));
    [|apply restore_item, Hkept].
  destruct (InvoiceItem.images item); reflexivity.
Qed.

Lemma round_trip_in_write_order (invoice : InvoiceData.t) :
  wellKeyed invoice ->
  spliceImages (lightweightInvoice invoice) (imageWrites invoice) = invoice.
Proof.
  intros Hkeyed. apply round_trip_when_order_kept; [exact Hkeyed|reflexivity].
Qed.

End PersistenceFacts.


(** * Further properties of the code *)

(** ** Saving and deleting invoices in memory *)

Section InvoiceListFacts.

Import App.

Variable projectId : string.

(** The list that [handleSaveInvoice] computes. *)
Lemma save_invoices (st : AppState) (active : InvoiceData.t) (quota : Quota)
    (reply : Reply unit) :
  activeInvoice st = Some active ->
  invoices (step projectId st (SaveInvoice quota reply))
  = if existsb (fun inv => String.eqb (InvoiceData.id inv) (InvoiceData.id active))
         (invoices st)
    then map (fun inv =>
                if String.eqb (InvoiceData.id inv) (InvoiceData.id active)
                then active else inv) (invoices st)
    else invoices st ++ [active].
Proof.
  intros Hactive. unfold step, handler, handleSaveInvoice, render, andThen.
  rewrite Hactive.
  destruct quota as [|[]];
    (destruct (negb (isOffline st) && isConfigured projectId);
     [destruct reply as [v|e]; [|destruct (isSizeLimitError e) eqn:E]|]);
    cbv beta iota delta [bind]; rewrite ?E; reflexivity.
Qed.

Lemma save_keeps_session (st : AppState) (quota : Quota) (reply : Reply unit) :
  activeInvoice (step projectId st (SaveInvoice quota reply)) = activeInvoice st.
Proof.
  unfold step, handler, handleSaveInvoice, render, andThen.
  destruct (activeInvoice st) as [active|] eqn:Hactive; [|exact Hactive].
  destruct quota as [|[]];
    (destruct (negb (isOffline st) && isConfigured projectId);
     [destruct reply as [v|e]; [|destruct (isSizeLimitError e) eqn:E]|]);
    cbv beta iota delta [bind]; rewrite ?E; exact Hactive.
Qed.

Lemma replace_same_id (active : InvoiceData.t) (invs : list InvoiceData.t) :
  let replaced :=
    map (fun inv =>
           if String.eqb (InvoiceData.id inv) (InvoiceData.id active)
           then active else inv) invs in
  (forall inv, In inv replaced ->
     InvoiceData.id inv = InvoiceData.id active -> inv = active)
  /\ map InvoiceData.id replaced = map InvoiceData.id invs
  /\ List.filter (fun inv => negb (String.eqb (InvoiceData.id inv) (InvoiceData.id active)))
       replaced
     = List.filter (fun inv => negb (String.eqb (InvoiceData.id inv) (InvoiceData.id active)))
         invs.
Proof.
  cbv zeta. induction invs as [|inv rest (IHall & IHids & IHother)]; simpl.
  - repeat split. intros inv [].
  - destruct (String.eqb_spec (InvoiceData.id inv) (InvoiceData.id active)) as [E|E].
    + split; [|split].
      * intros inv' [<-|Hin] Hid; [reflexivity|exact (IHall inv' Hin Hid)].
      * simpl. rewrite E, IHids. reflexivity.
      * rewrite String.eqb_refl. simpl. exact IHother.
    + split; [|split].
      * intros inv' [<-|Hin] Hid; [contradiction|exact (IHall inv' Hin Hid)].
      * simpl. rewrite IHids. reflexivity.
      * destruct (String.eqb_spec (InvoiceData.id inv) (InvoiceData.id active));
          [contradiction|]. simpl. rewrite IHother. reflexivity.
Qed.

Lemma existsb_same_id (active : InvoiceData.t) (invs : list InvoiceData.t) :
  existsb (fun inv => String.eqb (InvoiceData.id inv) (InvoiceData.id active)) invs = true
  <-> In (InvoiceData.id active) (map InvoiceData.id invs).
Proof.
  rewrite existsb_exists, in_map_iff. split; intros (inv & H1 & H2).
  - exists inv. apply String.eqb_eq in H2. split; assumption.
  - exists inv. split; [exact H2|]. apply String.eqb_eq. exact H1.
Qed.

Lemma filter_other_fresh (id : string) (invs : list InvoiceData.t) :
  ~ In id (map InvoiceData.id invs) ->
  List.filter (fun inv => negb (String.eqb (InvoiceData.id inv) id)) invs = invs.
Proof.
  induction invs as [|inv rest IH]; simpl; intros Hfresh; [reflexivity|].
  destruct (String.eqb_spec (InvoiceData.id inv) id) as [E|_].
  - exfalso. apply Hfresh. left. exact E.
  - simpl. rewrite IH; [reflexivity|]. intros Hin. apply Hfresh. right. exact Hin.
Qed.

Lemma upsert_facts (st : AppState) (active : InvoiceData.t) (quota : Quota)
    (reply : Reply unit) :
  activeInvoice st = Some active ->
  let saved := invoices (step projectId st (SaveInvoice quota reply)) in
  In active saved
  /\ (forall inv, In inv saved ->
        InvoiceData.id inv = InvoiceData.id active -> inv = active)
  /\ List.filter (fun inv => negb (String.eqb (InvoiceData.id inv) (InvoiceData.id active)))
       saved
     = List.filter (fun inv => negb (String.eqb (InvoiceData.id inv) (InvoiceData.id active)))
         (invoices st)
  /\ length saved
     = (if existsb (fun inv => String.eqb (InvoiceData.id inv) (InvoiceData.id active))
             (invoices st)
        then length (invoices st) else S (length (invoices st))).
Proof.
  intros Hactive. cbv zeta. rewrite (save_invoices st active quota reply Hactive).
  destruct (replace_same_id active (invoices st)) as (Hall & Hids & Hother).
  destruct (existsb _ (invoices st)) eqn:Hex.
  - split; [|split; [exact Hall|split; [exact Hother|apply length_map]]].
    apply existsb_exists in Hex as (inv & Hin & Hid).
    apply in_map_iff. exists inv. rewrite Hid. split; [reflexivity|exact Hin].
  - assert (Hfresh : ~ In (InvoiceData.id active) (map InvoiceData.id (invoices st))).
    { intros Hin. apply existsb_same_id in Hin. congruence. }
    split; [apply in_or_app; right; left; reflexivity|].
    split; [|split].
    + intros inv Hin Hid. apply in_app_or in Hin as [Hin|[<-|[]]]; [|reflexivity].
      exfalso. apply Hfresh. rewrite <- Hid. apply in_map. exact Hin.
    + rewrite List.filter_app. simpl. rewrite String.eqb_refl. simpl.
      apply app_nil_r.
    + rewrite length_app. simpl. lia.
Qed.

(** X1. Saving the invoice under edit is an upsert by id, whatever the
    browser does with the local write and whatever the remote store
    answers: afterwards the invoice is in the list, every entry that
    carries its id is the invoice itself, the entries with other ids are
    the ones that were there, in their order, and the list grows by one
    exactly when the id was new. *)
Theorem save_invoice_upserts (st : AppState) (active : InvoiceData.t)
    (quota : Quota) (reply : Reply unit) :
  activeInvoice st = Some active ->
  let saved := invoices (step projectId st (SaveInvoice quota reply)) in
  In active saved
  /\ (forall inv, In inv saved ->
        InvoiceData.id inv = InvoiceData.id active -> inv = active)
  /\ List.filter (fun inv => negb (String.eqb (InvoiceData.id inv) (InvoiceData.id active)))
       saved
     = List.filter (fun inv => negb (String.eqb (InvoiceData.id inv) (InvoiceData.id active)))
         (invoices st)
  /\ length saved
     = (if existsb (fun inv => String.eqb (InvoiceData.id inv) (InvoiceData.id active))
             (invoices st)
        then length (invoices st) else S (length (invoices st))).
Proof. exact (upsert_facts st active quota reply). Qed.

(** X2. Saving keeps the invoice ids pairwise distinct, and saving the
    same invoice again, whatever the browser and the remote store answer,
    changes nothing in the list. *)
Theorem save_invoice_idempotent (st : AppState) (active : InvoiceData.t)
    (quota quota' : Quota) (reply reply' : Reply unit) :
  activeInvoice st = Some active ->
  let st1 := step projectId st (SaveInvoice quota reply) in
  (List.NoDup (map InvoiceData.id (invoices st)) ->
   List.NoDup (map InvoiceData.id (invoices st1)))
  /\ invoices (step projectId st1 (SaveInvoice quota' reply')) = invoices st1.
Proof.
  intros Hactive. cbv zeta. split.
  - intros Hnodup. rewrite (save_invoices st active quota reply Hactive).
    destruct (replace_same_id active (invoices st)) as (_ & Hids & _).
    destruct (existsb _ (invoices st)) eqn:Hex.
    + rewrite Hids. exact Hnodup.
    + rewrite map_app. simpl. apply List.NoDup_app; [exact Hnodup| |].
      * constructor; [intros []|constructor].
      * intros id Hin [<-|[]]. apply existsb_same_id in Hin. congruence.
  - destruct (upsert_facts st active quota reply Hactive) as (Hin & Hall & _).
    cbv zeta in Hin, Hall.
    rewrite (save_invoices _ active quota' reply');
      [|rewrite save_keeps_session; exact Hactive].
    set (saved := invoices (step projectId st (SaveInvoice quota reply))) in *.
    assert (Hex : existsb (fun inv => String.eqb (InvoiceData.id inv)
                                        (InvoiceData.id active)) saved = true).
    { apply existsb_exists. exists active. split; [exact Hin|apply String.eqb_refl]. }
    rewrite Hex. rewrite <- (map_id saved) at 2.
    apply map_ext_in. intros inv Hinv.
    destruct (String.eqb_spec (InvoiceData.id inv) (InvoiceData.id active)) as [E|_];
      [symmetry; exact (Hall inv Hinv E)|reflexivity].
Qed.

Lemma delete_invoices (st : AppState) (id : string) (quota : Quota)
    (reply : Reply unit) :
  invoices (step projectId st (DeleteInvoice id true quota reply))
  = List.filter (fun inv => negb (String.eqb (InvoiceData.id inv) id)) (invoices st).
Proof.
  unfold step, handler, handleDeleteInvoice, render, andThen.
  destruct quota as [|[]];
    (destruct (negb (isOffline st) && isConfigured projectId);
     [destruct reply|]); reflexivity.
Qed.

(** X3. A confirmed deletion removes every invoice that carries the id and
    nothing else: the remaining invoices are those with another id, ids
    that were pairwise distinct stay so, and an id that is not in the list
    leaves the list as it is.  A deletion that is not confirmed leaves the
    whole state untouched: no local write, no remote call. *)
Theorem delete_invoice_removes (st : AppState) (id : string) (quota : Quota)
    (reply : Reply unit) :
  let deleted := invoices (step projectId st (DeleteInvoice id true quota reply)) in
  (forall inv, In inv deleted <-> In inv (invoices st) /\ InvoiceData.id inv <> id)
  /\ (List.NoDup (map InvoiceData.id (invoices st)) ->
      List.NoDup (map InvoiceData.id deleted))
  /\ (~ In id (map InvoiceData.id (invoices st)) -> deleted = invoices st)
  /\ step projectId st (DeleteInvoice id false quota reply) = st.
Proof.
  cbv zeta. rewrite delete_invoices. split; [|split; [|split]].
  - intros inv. rewrite List.filter_In, negb_true_iff, String.eqb_neq. reflexivity.
  - induction (invoices st) as [|inv rest IH]; simpl; intros Hnodup; [constructor|].
    apply NoDup_cons_iff in Hnodup as [Hfresh Hnodup].
    destruct (String.eqb (InvoiceData.id inv) id); simpl; [exact (IH Hnodup)|].
    constructor; [|exact (IH Hnodup)].
    intros Hin. apply Hfresh. apply in_map_iff in Hin as (inv' & Hid & Hin).
    apply List.filter_In in Hin as [Hin _]. rewrite <- Hid. apply in_map. exact Hin.
  - apply filter_other_fresh.
  - unfold step, handler, handleDeleteInvoice, render, when, ret. reflexivity.
Qed.

(** X4. Deleting an invoice right after saving it gives the list that
    deleting it without the save gives; if its id was new, the list is back
    to what it was before the save. *)
Theorem save_then_delete (st : AppState) (active : InvoiceData.t)
    (quota quota' : Quota) (reply reply' : Reply unit) :
  activeInvoice st = Some active ->
  let saved := step projectId st (SaveInvoice quota reply) in
  let id := InvoiceData.id active in
  invoices (step projectId saved (DeleteInvoice id true quota' reply'))
  = invoices (step projectId st (DeleteInvoice id true quota' reply'))
  /\ (~ In id (map InvoiceData.id (invoices st)) ->
      invoices (step projectId saved (DeleteInvoice id true quota' reply')) = invoices st).
Proof.
  intros Hactive. cbv zeta. rewrite !delete_invoices.
  destruct (upsert_facts st active quota reply Hactive) as (_ & _ & Hother & _).
  cbv zeta in Hother. rewrite Hother. split; [reflexivity|].
  apply filter_other_fresh.
Qed.

End InvoiceListFacts.

(** ** Backup files and restarts *)

Section BackupFacts.

Import App Backup.

Variable projectId : string.

(** A confirmed import of a document whose local write is accepted. *)
Lemma import_accepted (st : AppState) (json : BackupDocument) :
  let st' := importInto st (Document json) true Accepted in
  snapshot st' = merged json st
  /\ localStorage st' = stored (snapshot st')
  /\ log st' = log st ++ [LocalStorageWrite (snapshot st')]
  /\ isOffline st' = isOffline st
  /\ activeInvoice st' = activeInvoice st.
Proof.
  cbv zeta. destruct json as [[i|] [c|] [p|] [s|]]; repeat split.
Qed.

(** A confirmed import of a document whose local write throws. *)
Lemma import_refused (st : AppState) (json : BackupDocument) (key : StorageKey) :
  let st' := importInto st (Document json) true (Exceeded key) in
  snapshot st' = merged json st
  /\ localStorage st' = storedBefore key (snapshot st') (localStorage st)
  /\ log st' = log st ++ [Alert "Error parsing backup file."]
  /\ isOffline st' = isOffline st
  /\ activeInvoice st' = activeInvoice st.
Proof.
  cbv zeta. destruct json as [[i|] [c|] [p|] [s|]], key; repeat split.
Qed.

(** X5. Restoring a backup: importing the document exported from one state
    (whose numbers JSON carries exactly) into any other state, with the
    confirmation given, makes the four collections those of the exported
    state.  When the browser accepts the local write, the local store is
    their mirror and nothing is reported; when a [setItem] call throws,
    memory is replaced all the same, the local store holds only the keys
    written before the throw, and the user is told that the file could not
    be parsed.  Nothing is sent to the remote store, the ONLINE/OFFLINE
    state and the invoice under edit stay as they are. *)
Theorem export_then_import (exported current : AppState) (quota : Quota) :
  jsonExact (snapshot exported) = true ->
  let st' := importInto current (Document (handleExportData exported)) true quota in
  snapshot st' = snapshot exported
  /\ match quota with
     | Accepted =>
         localStorage st' = stored (snapshot exported)
         /\ SessionLog.alerts (log st') = SessionLog.alerts (log current)
     | Exceeded key =>
         localStorage st' = storedBefore key (snapshot exported) (localStorage current)
         /\ SessionLog.alerts (log st')
            = SessionLog.alerts (log current) ++ ["Error parsing backup file."]
     end
  /\ remoteCalls (log st') = remoteCalls (log current)
  /\ isOffline st' = isOffline current
  /\ activeInvoice st' = activeInvoice current.
Proof.
  intros _. cbv zeta. destruct quota as [|key].
  - destruct (import_accepted current (handleExportData exported))
      as (Hsnap & Hls & Hlog & Hoff & Hactive).
    cbv zeta in *. change (merged (handleExportData exported) current)
      with (snapshot exported) in Hsnap.
    split; [exact Hsnap|]. rewrite Hls, Hsnap, Hlog.
    split; [split; [reflexivity|]|split; [|split; assumption]].
    + rewrite alerts_app. cbn. apply app_nil_r.
    + rewrite remoteCalls_app. cbn. apply app_nil_r.
  - destruct (import_refused current (handleExportData exported) key)
      as (Hsnap & Hls & Hlog & Hoff & Hactive).
    cbv zeta in *. change (merged (handleExportData exported) current)
      with (snapshot exported) in Hsnap.
    split; [exact Hsnap|]. rewrite Hls, Hsnap, Hlog.
    split; [split; [reflexivity|]|split; [|split; assumption]].
    + rewrite alerts_app. reflexivity.
    + rewrite remoteCalls_app. cbn. apply app_nil_r.
Qed.

(** X6. The edges of an import.  A key that the document lacks keeps the
    collection in memory, and when the local write is accepted the local
    store mirrors the merged result (for numbers that JSON carries
    exactly).  A file that does not parse changes nothing and is reported,
    without the confirmation being asked; a file that holds [null] changes
    nothing and is reported once the confirmation is given.  A refused
    confirmation leaves the state untouched.  The only notice an import can
    raise is the one about parsing, which a local write that throws raises
    as well. *)
Theorem import_edges (st : AppState) :
  (forall (json : BackupDocument) (quota : Quota),
      let st' := importInto st (Document json) true quota in
      invoices st' = or_else (json_invoices json) (invoices st)
      /\ clients st' = or_else (json_clients json) (clients st)
      /\ projects st' = or_else (json_projects json) (projects st)
      /\ appSettings st' = or_else (json_settings json) (appSettings st)
      /\ (quota = Accepted -> jsonExact (snapshot st') = true ->
          localStorage st' = stored (snapshot st') /\ log st' = log st ++ [LocalStorageWrite (snapshot st')])
      /\ (quota <> Accepted -> log st' = log st ++ [Alert "Error parsing backup file."])
      /\ remoteCalls (log st') = remoteCalls (log st))
  /\ (forall (confirmed : bool) (quota : Quota),
        let st' := importInto st SyntaxError confirmed quota in
        snapshot st' = snapshot st
        /\ localStorage st' = localStorage st
        /\ log st' = log st ++ [Alert "Error parsing backup file."])
  /\ (forall quota : Quota,
        let st' := importInto st ParsedNull true quota in
        snapshot st' = snapshot st
        /\ localStorage st' = localStorage st
        /\ log st' = log st ++ [Alert "Error parsing backup file."])
  /\ (forall (json : BackupDocument) (quota : Quota),
        importInto st (Document json) false quota = st
        /\ importInto st ParsedNull false quota = st).
Proof.
  split; [|split; [|split]].
  - intros json quota. cbv zeta. destruct quota as [|key].
    + destruct (import_accepted st json) as (Hsnap & Hls & Hlog & _).
      cbv zeta in *. unfold snapshot in Hsnap at 1. unfold merged in Hsnap.
      injection Hsnap as Hi Hc Hp Hs.
      repeat (split; [assumption|]).
      split; [intros _ _; split; assumption|].
      split; [intros H; contradiction|].
      rewrite Hlog, remoteCalls_app. simpl. apply app_nil_r.
    + destruct (import_refused st json key) as (Hsnap & Hls & Hlog & _).
      cbv zeta in *. unfold snapshot in Hsnap at 1. unfold merged in Hsnap.
      injection Hsnap as Hi Hc Hp Hs.
      repeat (split; [assumption|]).
      split; [intros H; discriminate H|].
      split; [intros _; exact Hlog|].
      rewrite Hlog, remoteCalls_app. simpl. apply app_nil_r.
  - intros confirmed quota. repeat split.
  - intros quota. repeat split.
  - intros json quota. split; reflexivity.
Qed.

(** The state after a start that ends OFFLINE because there is no
    configuration or because the reads failed. *)
Lemma boot_offline_eq (ls : LocalStorage) (quota : Quota) (reply : Reply Fetched) :
  isConfigured projectId = false \/ (exists e, reply = Rejected e) ->
  boot projectId ls quota reply
  = mkState DASHBOARD (or_else (pb_invoices ls) []) (or_else (pb_clients ls) [])
      (or_else (pb_projects ls) []) (or_else (pb_settings ls) defaultAppSettings)
      None false true ls
      (if isConfigured projectId then [Remote GetCollections] else []).
Proof.
  intros Hwhy. unfold boot, fetchData.
  destruct (isConfigured projectId).
  - destruct Hwhy as [H|[e ->]]; [discriminate|].
    destruct ls as [[i|] [c|] [p|] [s|]]; reflexivity.
  - destruct ls as [[i|] [c|] [p|] [s|]]; reflexivity.
Qed.

Lemma boot_online_eq (ls : LocalStorage) (fetched : Fetched) :
  isConfigured projectId = true ->
  boot projectId ls Accepted (Resolved fetched)
  = mkState DASHBOARD (fetched_invoices fetched) (fetched_clients fetched)
      (fetched_projects fetched)
      (or_else (fetched_settings fetched) defaultAppSettings) None false false
      (stored
         (mkSnapshot (fetched_invoices fetched) (fetched_clients fetched)
            (fetched_projects fetched)
            (or_else (fetched_settings fetched) defaultAppSettings)))
      (Remote GetCollections
       :: match fetched_settings fetched with
          | Some _ => []
          | None => [Remote (SeedSettings defaultAppSettings)]
          end
       ++ [LocalStorageWrite
             (mkSnapshot (fetched_invoices fetched) (fetched_clients fetched)
                (fetched_projects fetched)
                (or_else (fetched_settings fetched) defaultAppSettings))]).
Proof.
  intros Hcfg. unfold boot, fetchData. rewrite Hcfg.
  destruct (fetched_settings fetched); reflexivity.
Qed.

(** The state after a start whose reads succeeded and whose local write
    threw: the [catch] loads what the store holds by then. *)
Lemma boot_refused_eq (ls : LocalStorage) (fetched : Fetched) (key : StorageKey) :
  isConfigured projectId = true ->
  let fetchedSnapshot :=
    mkSnapshot (fetched_invoices fetched) (fetched_clients fetched)
      (fetched_projects fetched)
      (or_else (fetched_settings fetched) defaultAppSettings) in
  let ls' := storedBefore key fetchedSnapshot ls in
  boot projectId ls (Exceeded key) (Resolved fetched)
  = mkState DASHBOARD
      (or_else (pb_invoices ls') (fetched_invoices fetched))
      (or_else (pb_clients ls') (fetched_clients fetched))
      (or_else (pb_projects ls') (fetched_projects fetched))
      (or_else (pb_settings ls') (snap_settings fetchedSnapshot))
      None false true ls'
      (Remote GetCollections
       :: match fetched_settings fetched with
          | Some _ => []
          | None => [Remote (SeedSettings defaultAppSettings)]
          end).
Proof.
  intros Hcfg. cbv zeta. unfold boot, fetchData. rewrite Hcfg.
  destruct (fetched_settings fetched), key, ls as [[i|] [c|] [p|] [s|]]; reflexivity.
Qed.

(** X7. Starting OFFLINE (no configuration, or the bootstrap reads fail):
    each collection is what the local store holds under its key, or the
    initial value when the key was never written; the local store is left
    as it was.  Hence a session whose local store mirrors its memory is
    resumed with exactly its four collections. *)
Theorem offline_start_restores (ls : LocalStorage) (quota : Quota)
    (reply : Reply Fetched) :
  isConfigured projectId = false \/ (exists e, reply = Rejected e) ->
  let st := boot projectId ls quota reply in
  isOffline st = true
  /\ loading st = false
  /\ localStorage st = ls
  /\ snapshot st
     = mkSnapshot (or_else (pb_invoices ls) []) (or_else (pb_clients ls) [])
                  (or_else (pb_projects ls) []) (or_else (pb_settings ls) defaultAppSettings)
  /\ (forall previous : AppState,
        ls = stored (snapshot previous) -> snapshot st = snapshot previous).
Proof.
  intros Hwhy. cbv zeta. rewrite (boot_offline_eq ls quota reply Hwhy).
  repeat (split; [reflexivity|]).
  intros previous ->. reflexivity.
Qed.

(** X8. Starting with the configuration present and the bootstrap reads
    succeeding: memory holds what was fetched, with the default settings
    when the settings document does not exist, in which case, and only
    then, the defaults are written to the remote store.  When the browser
    accepts the local write, the store is ONLINE and the local store is
    overwritten with the fetched collections whatever it held (for numbers
    that JSON carries exactly).  When a [setItem] call throws, the store
    starts OFFLINE, and memory holds, key by key, what the local store
    holds by then: the fetched collection for the keys written before the
    throw, the old content for the others, and the fetched collection
    where the store has nothing. *)
Theorem online_start_overwrites (ls : LocalStorage) (fetched : Fetched) :
  isConfigured projectId = true ->
  let fetchedSnapshot :=
    mkSnapshot (fetched_invoices fetched) (fetched_clients fetched)
      (fetched_projects fetched)
      (or_else (fetched_settings fetched) defaultAppSettings) in
  (let st := boot projectId ls Accepted (Resolved fetched) in
   isOffline st = false
   /\ loading st = false
   /\ snapshot st = fetchedSnapshot
   /\ (jsonExact fetchedSnapshot = true -> localStorage st = stored (snapshot st)))
  /\ (forall key : StorageKey,
        let st := boot projectId ls (Exceeded key) (Resolved fetched) in
        isOffline st = true
        /\ loading st = false
        /\ (jsonExact fetchedSnapshot = true ->
            localStorage st = storedBefore key fetchedSnapshot ls
            /\ snapshot st
               = mkSnapshot
                   (or_else (pb_invoices (localStorage st)) (fetched_invoices fetched))
                   (or_else (pb_clients (localStorage st)) (fetched_clients fetched))
                   (or_else (pb_projects (localStorage st)) (fetched_projects fetched))
                   (or_else (pb_settings (localStorage st))
                      (snap_settings fetchedSnapshot))))
  /\ (forall quota : Quota,
        remoteCalls (log (boot projectId ls quota (Resolved fetched)))
        = GetCollections
          :: match fetched_settings fetched with
             | Some _ => []
             | None => [SeedSettings defaultAppSettings]
             end).
Proof.
  intros Hcfg. cbv zeta. split; [|split].
  - rewrite (boot_online_eq ls fetched Hcfg). repeat split.
  - intros key. rewrite (boot_refused_eq ls fetched key Hcfg). repeat split.
  - intros [|key].
    + rewrite (boot_online_eq ls fetched Hcfg).
      destruct (fetched_settings fetched); reflexivity.
    + rewrite (boot_refused_eq ls fetched key Hcfg).
      destruct (fetched_settings fetched); reflexivity.
Qed.

End BackupFacts.

(** ** Editor: line items and totals *)

Section EditorItemFacts.

Import Calculator EditorItems.
Local Open Scope float_scope.

Lemma zero_not_neg_zero : 0 <> neg_zero.
Proof.
  intros E. apply (f_equal Prim2SF) in E. vm_compute in E. discriminate E.
Qed.

(** A sum that starts at [0] is never [-0]. *)
Lemma sumFrom_not_neg_zero (terms : list float) (start : float) :
  start <> neg_zero -> sumFrom start terms <> neg_zero.
Proof.
  revert start. induction terms as [|term rest IH]; intros start Hstart;
    cbn [sumFrom]; [exact Hstart|].
  apply IH, add_not_neg_zero, Hstart.
Qed.

Lemma sumFrom_app (terms1 terms2 : list float) (start : float) :
  sumFrom start (terms1 ++ terms2) = sumFrom (sumFrom start terms1) terms2.
Proof.
  revert start. induction terms1 as [|term rest IH]; intros start; [reflexivity|].
  cbn [app sumFrom]. apply IH.
Qed.

Lemma editor_subtotal_rounded (data : InvoiceData.t) :
  InvoiceEditor.subtotal data = rounded_subtotal (InvoiceData.items data).
Proof. apply reduce_line_totals. Qed.

Lemma editor_total_by_subtotal (data data' : InvoiceData.t) :
  InvoiceEditor.subtotal data' = InvoiceEditor.subtotal data ->
  InvoiceData.taxRate data' = InvoiceData.taxRate data ->
  InvoiceData.discount data' = InvoiceData.discount data ->
  InvoiceEditor.total data' = InvoiceEditor.total data.
Proof.
  intros Hsub Htax Hdisc. unfold InvoiceEditor.total, InvoiceEditor.taxAmount.
  rewrite Hsub, Htax, Hdisc. reflexivity.
Qed.

Lemma with_items_same (data : InvoiceData.t) :
  with_items (InvoiceData.items data) data = data.
Proof. destruct data. reflexivity. Qed.

Lemma filter_items_fresh (id : string) (items : list InvoiceItem.t) :
  ~ In id (map InvoiceItem.id items) ->
  List.filter (fun item => negb (String.eqb (InvoiceItem.id item) id)) items = items.
Proof.
  induction items as [|item rest IH]; simpl; intros Hfresh; [reflexivity|].
  destruct (String.eqb_spec (InvoiceItem.id item) id) as [E|_].
  - exfalso. apply Hfresh. left. exact E.
  - simpl. rewrite IH; [reflexivity|]. intros Hin. apply Hfresh. right. exact Hin.
Qed.

(** X9. A line item added by the editor goes last, has quantity 1, price 0
    and no image, and leaves subtotal and total as they were: adding its
    line total [0 * 1] to the subtotal, which is never [-0], rounds to the
    subtotal. *)
Theorem add_item_keeps_total (newId : string) (prev : InvoiceData.t) :
  InvoiceData.items (handleAddItem newId prev)
  = InvoiceData.items prev ++ [InvoiceItem.mk newId "" 1 0 [] None]
  /\ InvoiceEditor.subtotal (handleAddItem newId prev) = InvoiceEditor.subtotal prev
  /\ InvoiceEditor.total (handleAddItem newId prev) = InvoiceEditor.total prev.
Proof.
  assert (Hsub : InvoiceEditor.subtotal (handleAddItem newId prev)
                 = InvoiceEditor.subtotal prev).
  { rewrite !editor_subtotal_rounded. unfold handleAddItem, rounded_subtotal.
    cbn [InvoiceData.items with_items]. rewrite map_app, sumFrom_app.
    cbn [map sumFrom]. change (lineTotal (InvoiceItem.mk newId "" 1 0 [] None)) with 0.
    apply add_zero_r, sumFrom_not_neg_zero, zero_not_neg_zero. }
  split; [reflexivity|]. split; [exact Hsub|].
  apply editor_total_by_subtotal; [exact Hsub|reflexivity|reflexivity].
Qed.

(** X10. Removing a line item by id takes out every item with that id and
    keeps the others in their order; doing it twice is doing it once; an
    id that no item carries leaves the invoice as it is; and removing a
    freshly added item, whose id no other item carries, gives back the
    invoice, with its subtotal and total. *)
Theorem remove_item_by_id (id : string) (prev : InvoiceData.t) :
  (forall item, In item (InvoiceData.items (handleRemoveItem id prev)) <->
                In item (InvoiceData.items prev) /\ InvoiceItem.id item <> id)
  /\ (exists kept,
        InvoiceData.items (handleRemoveItem id prev) = kept
        /\ List.filter (fun item => negb (String.eqb (InvoiceItem.id item) id))
             (InvoiceData.items prev) = kept
        /\ ~ In id (map InvoiceItem.id kept))
  /\ handleRemoveItem id (handleRemoveItem id prev) = handleRemoveItem id prev
  /\ (~ In id (map InvoiceItem.id (InvoiceData.items prev)) ->
      handleRemoveItem id prev = prev
      /\ handleRemoveItem id (handleAddItem id prev) = prev
      /\ InvoiceEditor.total (handleRemoveItem id (handleAddItem id prev))
         = InvoiceEditor.total prev).
Proof.
  assert (Hgone : ~ In id (map InvoiceItem.id
                     (List.filter (fun item => negb (String.eqb (InvoiceItem.id item) id))
                        (InvoiceData.items prev)))).
  { intros Hin. apply in_map_iff in Hin as (item & Hid & Hin).
    apply List.filter_In in Hin as [_ Hne].
    rewrite Hid, String.eqb_refl in Hne. discriminate Hne. }
  assert (Hfresh : ~ In id (map InvoiceItem.id (InvoiceData.items prev)) ->
                   handleRemoveItem id (handleAddItem id prev) = prev).
  { intros Hfresh. unfold handleRemoveItem, handleAddItem. simpl.
    rewrite List.filter_app, filter_items_fresh by exact Hfresh. simpl.
    rewrite String.eqb_refl. simpl. rewrite app_nil_r. destruct prev. reflexivity. }
  split; [|split; [|split]].
  - intros item. unfold handleRemoveItem. simpl.
    rewrite List.filter_In, negb_true_iff, String.eqb_neq. reflexivity.
  - eexists. split; [reflexivity|]. split; [reflexivity|exact Hgone].
  - unfold handleRemoveItem in *. destruct prev. simpl in *.
    rewrite (filter_items_fresh id _ Hgone). reflexivity.
  - intros Hnew. split; [|split].
    + unfold handleRemoveItem. rewrite filter_items_fresh by exact Hnew.
      apply with_items_same.
    + apply Hfresh, Hnew.
    + rewrite (Hfresh Hnew). reflexivity.
Qed.

(** The subtotal is not lowered by the line total of what is removed: of
    three items of 0.1, 0.2 and 0.3 the subtotal is 0.6000000000000001, and
    without the first it is 0.5. *)
Example removal_is_not_subtraction :
  let items := [Samples.lineItem "a" 0x1.999999999999ap-4 1 [];
                Samples.lineItem "b" 0x1.999999999999ap-3 1 [];
                Samples.lineItem "c" 0x1.3333333333333p-2 1 []] in
  let prev := Samples.invoiceOf items 0 0 in
  InvoiceEditor.subtotal prev = 0x1.3333333333334p-1
  /\ InvoiceEditor.subtotal (handleRemoveItem "a" prev) = 0.5
  /\ InvoiceEditor.subtotal (handleRemoveItem "a" prev) + 0x1.999999999999ap-4
     <> InvoiceEditor.subtotal prev.
Proof.
  cbv zeta. split; [reflexivity|]. split; [reflexivity|].
  intros E. apply (f_equal Prim2SF) in E. vm_compute in E. discriminate E.
Qed.

Lemma processAll_success (files : list UploadedFile) (urls : list string) :
  map file_processed files = map Some urls ->
  processAll files = Some (combine (map deliverableName files) urls).
Proof.
  revert urls. induction files as [|file rest IH]; intros [|url urls] H;
    simpl in *; try discriminate; [reflexivity|].
  injection H as Hfile Hrest. rewrite Hfile, (IH urls Hrest). reflexivity.
Qed.

Lemma processAll_failure (files : list UploadedFile) :
  List.Exists (fun file => file_processed file = None) files ->
  processAll files = None.
Proof.
  induction 1 as [file rest Hfile|file rest _ IH]; simpl.
  - rewrite Hfile. reflexivity.
  - rewrite IH. destruct (file_processed file); reflexivity.
Qed.

Lemma bulk_items (price : float) (randomId : nat -> string) (start : nat)
    (imgs : list (string * string)) :
  let newItems :=
    App.map_indexed
      (fun img k => InvoiceItem.mk (randomId k) (fst img) 1 price [snd img] None)
      start imgs in
  map InvoiceItem.description newItems = map fst imgs
  /\ map InvoiceItem.images newItems = map (fun img => [snd img]) imgs
  /\ map InvoiceItem.id newItems = map randomId (seq start (length imgs))
  /\ Forall (fun item => InvoiceItem.quantity item = 1
                         /\ InvoiceItem.price item = price
                         /\ InvoiceItem.pages item = None) newItems
  /\ map lineTotal newItems = repeat (price * 1) (length imgs).
Proof.
  cbv zeta. revert start.
  induction imgs as [|img rest IH]; intros start; simpl.
  - repeat split. constructor.
  - destruct (IH (S start)) as (Hd & Hi & Hid & Hall & Hsum).
    split; [rewrite Hd; reflexivity|]. split; [rewrite Hi; reflexivity|].
    split; [rewrite Hid; reflexivity|].
    split; [constructor; [repeat split|exact Hall]|].
    rewrite Hsum. reflexivity.
Qed.

(** X11. Bulk upload is all or nothing.  When every file is processed,
    one line item per file is appended in file order, each with the next
    drawn id, that file's image as its only image, quantity 1, the default
    price and the file name up to its first dot as description, and the
    subtotal is the one before with the line total [price * 1] added once
    per file.  When one file fails, the invoice is unchanged and the
    failure is reported; without files nothing happens. *)
Theorem bulk_upload_all_or_nothing (price : float) (randomId : nat -> string)
    (files : list UploadedFile) (data : InvoiceData.t) :
  (forall urls : list string,
      files <> [] ->
      map file_processed files = map Some urls ->
      exists newItems,
        handleBulkUpload price randomId files data
        = (with_items (InvoiceData.items data ++ newItems) data, None)
        /\ map InvoiceItem.images newItems = map (fun url => [url]) urls
        /\ map InvoiceItem.description newItems = map deliverableName files
        /\ map InvoiceItem.id newItems = map randomId (seq 0 (length files))
        /\ Forall (fun item => InvoiceItem.quantity item = 1
                               /\ InvoiceItem.price item = price
                               /\ InvoiceItem.pages item = None) newItems
        /\ InvoiceEditor.subtotal (fst (handleBulkUpload price randomId files data))
           = sumFrom (InvoiceEditor.subtotal data) (repeat (price * 1) (length files)))
  /\ (List.Exists (fun file => file_processed file = None) files ->
      handleBulkUpload price randomId files data
      = (data, Some "Failed to process some images."))
  /\ handleBulkUpload price randomId [] data = (data, None).
Proof.
  split; [|split].
  - intros urls Hne Hok. unfold handleBulkUpload.
    destruct files as [|file rest]; [contradiction|].
    rewrite (processAll_success _ _ Hok).
    set (imgs := combine (map deliverableName (file :: rest)) urls).
    assert (Hlen : length urls = length (file :: rest)).
    { rewrite <- (length_map Some urls), <- Hok, length_map. reflexivity. }
    assert (Hfst : map fst imgs = map deliverableName (file :: rest)).
    { unfold imgs. clear -Hlen. revert urls Hlen.
      induction (file :: rest) as [|f fs IH]; intros [|u us] H; simpl in *;
        try discriminate; [reflexivity|]. rewrite IH by lia. reflexivity. }
    assert (Hsnd : map (fun img : string * string => [snd img]) imgs
                   = map (fun url => [url]) urls).
    { unfold imgs. clear -Hlen. revert urls Hlen.
      induction (file :: rest) as [|f fs IH]; intros [|u us] H; simpl in *;
        try discriminate; [reflexivity|]. rewrite IH by lia. reflexivity. }
    assert (Hcount : length imgs = length (file :: rest)).
    { rewrite <- (length_map fst imgs), Hfst, length_map. reflexivity. }
    destruct (bulk_items price randomId 0 imgs) as (Hd & Hi & Hid & Hall & Hsum).
    cbv zeta in *. eexists. cbn [Nat.ltb Nat.leb length]. cbv iota.
    split; [reflexivity|].
    split; [rewrite Hi; exact Hsnd|].
    split; [rewrite Hd; exact Hfst|].
    split; [rewrite Hid, Hcount; reflexivity|].
    split; [exact Hall|].
    cbn [fst]. rewrite !editor_subtotal_rounded. unfold rounded_subtotal.
    cbn [InvoiceData.items with_items].
    rewrite map_app, sumFrom_app, Hsum, Hcount. reflexivity.
  - intros Hfail. unfold handleBulkUpload.
    rewrite (processAll_failure files Hfail).
    destruct files; [inversion Hfail|reflexivity].
  - reflexivity.
Qed.

Lemma assign_twice (fv1 fv2 : FieldValue) (item : InvoiceItem.t) :
  sameField fv1 fv2 = true ->
  assign fv2 (assign fv1 item) = assign fv2 item
  /\ InvoiceItem.id (assign fv1 item) = InvoiceItem.id item.
Proof. destruct fv1, fv2; try discriminate; intros _; split; reflexivity. Qed.

(** X12. Field updates by id: an update of a field other than the id
    reaches exactly the items that carry the id and keeps every id; of two
    updates of the same field only the later one counts; an id that no item
    carries leaves the invoice as it is. *)
Theorem update_item_last_write_wins (id : string) (fv1 fv2 : FieldValue)
    (prev : InvoiceData.t) :
  sameField fv1 fv2 = true ->
  handleUpdateItem id fv2 (handleUpdateItem id fv1 prev) = handleUpdateItem id fv2 prev
  /\ map InvoiceItem.id (InvoiceData.items (handleUpdateItem id fv1 prev))
     = map InvoiceItem.id (InvoiceData.items prev)
  /\ Forall2 (fun item item' =>
                (InvoiceItem.id item = id -> item' = assign fv1 item)
                /\ (InvoiceItem.id item <> id -> item' = item))
       (InvoiceData.items prev) (InvoiceData.items (handleUpdateItem id fv1 prev))
  /\ (~ In id (map InvoiceItem.id (InvoiceData.items prev)) ->
      handleUpdateItem id fv1 prev = prev).
Proof.
  intros Hsame. unfold handleUpdateItem. destruct prev as
    [i number date due project client items tax discount status bank].
  unfold with_items. simpl. split; [|split; [|split]].
  - f_equal. rewrite map_map. apply map_ext. intros item.
    destruct (assign_twice fv1 fv2 item Hsame) as [Htwice Hid].
    destruct (String.eqb (InvoiceItem.id item) id) eqn:E.
    + rewrite Hid, E. exact Htwice.
    + rewrite E. reflexivity.
  - rewrite map_map. apply map_ext. intros item.
    destruct (String.eqb (InvoiceItem.id item) id); [|reflexivity].
    apply (assign_twice fv1 fv2 item Hsame).
  - induction items as [|item rest IH]; simpl; constructor; [|exact IH].
    destruct (String.eqb_spec (InvoiceItem.id item) id) as [E|E]; split;
      intros H; try contradiction; reflexivity.
  - intros Hfresh. f_equal. rewrite <- (map_id items) at 2.
    apply map_ext_in. intros item Hin.
    destruct (String.eqb_spec (InvoiceItem.id item) id) as [E|_]; [|reflexivity].
    exfalso. apply Hfresh. rewrite <- E. apply in_map. exact Hin.
Qed.

(** X13. Choosing a client or a project in the editor never touches the
    line items, so the total stays.  A client id that is not in the list
    leaves the invoice as it is; otherwise the first client with that id is
    copied in.  A project id that is not in the list resets the project
    reference to the empty string and keeps the client; a known project is
    referenced, and the client is replaced only if the project's client is
    in the list. *)
Theorem selection_keeps_items (clients : list Client.t) (projects : list Project.t)
    (id : string) (prev : InvoiceData.t) :
  let byClient := handleClientSelect clients id prev in
  let byProject := handleProjectSelect projects clients id prev in
  InvoiceData.items byClient = InvoiceData.items prev
  /\ InvoiceEditor.total byClient = InvoiceEditor.total prev
  /\ InvoiceData.items byProject = InvoiceData.items prev
  /\ InvoiceEditor.total byProject = InvoiceEditor.total prev
  /\ (~ In id (map Client.id clients) -> byClient = prev)
  /\ (forall c, List.find (fun c => String.eqb (Client.id c) id) clients = Some c ->
        byClient = with_client c prev /\ Client.id c = id /\ In c clients)
  /\ (~ In id (map Project.id projects) ->
      byProject = with_projectId (Some "") prev)
  /\ (forall p,
        List.find (fun p => String.eqb (Project.id p) id) projects = Some p ->
        InvoiceData.projectId byProject = Some id
        /\ (~ In (Project.clientId p) (map Client.id clients) ->
            InvoiceData.client byProject = InvoiceData.client prev)
        /\ (forall c,
              List.find (fun c => String.eqb (Client.id c) (Project.clientId p)) clients
              = Some c ->
              InvoiceData.client byProject = c)).
Proof.
  cbv zeta. unfold handleClientSelect, handleProjectSelect.
  assert (Hnone : forall (A : Type) (key : A -> string) (xs : list A) (k : string),
             ~ In k (map key xs) ->
             List.find (fun x => String.eqb (key x) k) xs = None).
  { intros A key xs k Hfresh.
    destruct (List.find _ xs) as [x|] eqn:Hfind; [|reflexivity].
    apply List.find_some in Hfind as [Hin Heq]. apply String.eqb_eq in Heq.
    exfalso. apply Hfresh. rewrite <- Heq. apply in_map. exact Hin. }
  repeat split.
  - destruct (List.find _ clients); reflexivity.
  - destruct (List.find _ clients); reflexivity.
  - destruct (List.find _ projects); reflexivity.
  - destruct (List.find _ projects); reflexivity.
  - intros Hfresh. rewrite (Hnone _ Client.id clients id Hfresh). reflexivity.
  - rewrite H. reflexivity.
  - apply List.find_some in H as [_ H]. apply String.eqb_eq in H. exact H.
  - apply List.find_some in H as [H _]. exact H.
  - intros Hfresh. rewrite (Hnone _ Project.id projects id Hfresh). reflexivity.
  - rewrite H. reflexivity.
  - intros Hfresh. rewrite H.
    rewrite (Hnone _ Client.id clients (Project.clientId p) Hfresh). reflexivity.
  - intros c Hc. rewrite H, Hc. reflexivity.
Qed.

End EditorItemFacts.

(** ** Paginator: shape of the page list *)

Section PaginatorShape.

Import Paginator.
Local Open Scope Z_scope.

Lemma imageRows_div (item : InvoiceItem.t) :
  imageRows item = (Z.of_nat (length (InvoiceItem.images item)) + 4) / 5.
Proof.
  unfold imageRows, Qceiling, Qfloor, Qdiv, Qmult, Qinv, Qopp, inject_Z.
  simpl. generalize (Z.of_nat (length (InvoiceItem.images item))). intros n.
  rewrite Z.mul_1_r.
  pose proof (Z.div_mod (- n) 5 ltac:(lia)) as H1.
  pose proof (Z.mod_pos_bound (- n) 5 ltac:(lia)) as H2.
  pose proof (Z.div_mod (n + 4) 5 ltac:(lia)) as H3.
  pose proof (Z.mod_pos_bound (n + 4) 5 ltac:(lia)) as H4.
  change (Z.pos (1 * 5)) with 5. lia.
Qed.

(** X14. The estimated height of an item depends on its image count only:
    45 without images, plus 160 for every started row of five images. *)
Theorem item_height_by_rows (item : InvoiceItem.t) :
  itemHeight item
  = 45 + 160 * ((Z.of_nat (length (InvoiceItem.images item)) + 4) / 5)
  /\ (InvoiceItem.images item = [] -> itemHeight item = 45)
  /\ (forall item', length (InvoiceItem.images item) = length (InvoiceItem.images item') ->
        itemHeight item = itemHeight item').
Proof.
  assert (H : forall it, itemHeight it
                = 45 + 160 * ((Z.of_nat (length (InvoiceItem.images it)) + 4) / 5)).
  { intros it. unfold itemHeight, ITEM_BASE_HEIGHT, ITEM_IMAGE_ROW_HEIGHT.
    rewrite imageRows_div. lia. }
  split; [apply H|]. split.
  - intros Hnone. rewrite H, Hnone. reflexivity.
  - intros item' Hlen. rewrite !H, Hlen. reflexivity.
Qed.

Lemma loop_on_one_page (items : list InvoiceItem.t) (st : LoopState) :
  chunkedPages st = [] ->
  currentHeight st + itemsHeight items <= PAGE_HEIGHT_ESTIMATE ->
  fold_left paginate_step items st
  = mkLoop [] (currentPageItems st ++ items) (currentHeight st + itemsHeight items).
Proof.
  revert st. induction items as [|item rest IH]; intros st Hnone Hfits; simpl.
  - destruct st as [cp cur h]. simpl in *. subst cp.
    rewrite app_nil_r. unfold itemsHeight. simpl. f_equal. lia.
  - pose proof (itemsHeight_nonneg rest) as Hrest.
    change (itemsHeight (item :: rest)) with (itemHeight item + itemsHeight rest)
      in Hfits.
    assert (Hstep : paginate_step st item
                    = mkLoop [] (currentPageItems st ++ [item])
                             (currentHeight st + itemHeight item)).
    { unfold paginate_step.
      destruct (Z.gtb_spec (currentHeight st + itemHeight item) PAGE_HEIGHT_ESTIMATE)
        as [Hover|_]; [lia|].
      rewrite Hnone. reflexivity. }
    rewrite Hstep, IH; simpl; [|reflexivity|lia].
    rewrite <- app_assoc.
    change (itemsHeight (item :: rest)) with (itemHeight item + itemsHeight rest).
    f_equal. lia.
Qed.

(** X15. Items that fit under the header together stay on one page: if the
    header height plus the heights of all items is within the budget, the
    items form the single item page, and the footer gets a page of its own
    exactly when it does not fit below them. *)
Theorem fitting_items_share_a_page (items : list InvoiceItem.t) :
  items <> [] ->
  HEADER_HEIGHT + itemsHeight items <= PAGE_HEIGHT_ESTIMATE ->
  itemPages items = [items]
  /\ (HEADER_HEIGHT + itemsHeight items + FOOTER_HEIGHT <= PAGE_HEIGHT_ESTIMATE ->
      pages items = [items])
  /\ (HEADER_HEIGHT + itemsHeight items + FOOTER_HEIGHT > PAGE_HEIGHT_ESTIMATE ->
      pages items = [items; []]).
Proof.
  intros Hne Hfits.
  pose proof (loop_on_one_page items (mkLoop [] [] HEADER_HEIGHT) eq_refl Hfits)
    as Hloop.
  simpl in Hloop.
  assert (Hpages : itemPages items = [items]).
  { unfold itemPages, paginate_loop. rewrite Hloop. simpl.
    destruct items; [contradiction|reflexivity]. }
  split; [exact Hpages|].
  unfold pages, finalHeight, paginate_loop. rewrite Hpages, Hloop. simpl.
  split; intros H.
  - destruct (Z.gtb_spec (HEADER_HEIGHT + itemsHeight items + FOOTER_HEIGHT)
                PAGE_HEIGHT_ESTIMATE); [lia|reflexivity].
  - destruct (Z.gtb_spec (HEADER_HEIGHT + itemsHeight items + FOOTER_HEIGHT)
                PAGE_HEIGHT_ESTIMATE); [reflexivity|lia].
Qed.

Lemma step_extends (st : LoopState) (item : InvoiceItem.t) :
  exists more tail,
    chunkedPages (paginate_step st item) ++ [currentPageItems (paginate_step st item)]
    = chunkedPages st ++ [currentPageItems st ++ more] ++ tail.
Proof.
  unfold paginate_step.
  destruct (currentHeight st + itemHeight item >? PAGE_HEIGHT_ESTIMATE); simpl.
  - exists [], [[item]]. rewrite app_nil_r, <- app_assoc. reflexivity.
  - exists [item], []. reflexivity.
Qed.

(** Closed pages are never reopened: the loop only extends the page under
    construction and appends pages after it. *)
Lemma loop_extends (items : list InvoiceItem.t) (st : LoopState) :
  exists more tail,
    chunkedPages (fold_left paginate_step items st)
      ++ [currentPageItems (fold_left paginate_step items st)]
    = chunkedPages st ++ [currentPageItems st ++ more] ++ tail.
Proof.
  revert st. induction items as [|item rest IH]; intros st; simpl.
  - exists [], []. rewrite app_nil_r. reflexivity.
  - destruct (IH (paginate_step st item)) as (more' & tail' & ->).
    unfold paginate_step.
    destruct (currentHeight st + itemHeight item >? PAGE_HEIGHT_ESTIMATE); simpl.
    + exists [], ((item :: more') :: tail').
      rewrite app_nil_r, <- app_assoc. reflexivity.
    + exists (item :: more'), tail'. rewrite <- app_assoc. reflexivity.
Qed.

Lemma itemPages_nonempty_input (first : InvoiceItem.t) (rest : list InvoiceItem.t) :
  itemPages (first :: rest)
  = chunkedPages (paginate_loop (first :: rest))
    ++ [currentPageItems (paginate_loop (first :: rest))].
Proof.
  unfold itemPages.
  pose proof (loop_current_nonempty (first :: rest) ltac:(discriminate)) as Hne.
  destruct (currentPageItems (paginate_loop (first :: rest))); [contradiction|].
  reflexivity.
Qed.

Lemma pages_prefix (items : list InvoiceItem.t) (idx : nat)
    (page : list InvoiceItem.t) :
  itemPages items !! idx = Some page -> pages items !! idx = Some page.
Proof.
  intros H. unfold pages.
  destruct (finalHeight items + FOOTER_HEIGHT >? PAGE_HEIGHT_ESTIMATE);
    [|exact H].
  apply lookup_app_l_Some. exact H.
Qed.

(** X16. Where the first item goes.  If it fits under the header it opens
    the first page.  If it does not (for instance an item with more than 25
    images), the first page carries no item at all and the item opens the
    second page. *)
Theorem first_item_page (first : InvoiceItem.t) (rest : list InvoiceItem.t) :
  (HEADER_HEIGHT + itemHeight first <= PAGE_HEIGHT_ESTIMATE ->
   exists more, pages (first :: rest) !! 0%nat = Some (first :: more))
  /\ (HEADER_HEIGHT + itemHeight first > PAGE_HEIGHT_ESTIMATE ->
      pages (first :: rest) !! 0%nat = Some []
      /\ exists more, pages (first :: rest) !! 1%nat = Some (first :: more)).
Proof.
  pose proof (itemPages_nonempty_input first rest) as Hpages.
  unfold paginate_loop in Hpages. simpl in Hpages.
  destruct (loop_extends rest (paginate_step (mkLoop [] [] HEADER_HEIGHT) first))
    as (more & tail & Hext).
  rewrite Hext in Hpages. clear Hext.
  unfold paginate_step in Hpages. simpl in Hpages.
  split; intros Hcase.
  - destruct (Z.gtb_spec (HEADER_HEIGHT + itemHeight first) PAGE_HEIGHT_ESTIMATE)
      as [Hover|_]; [lia|]. simpl in Hpages.
    exists more. apply pages_prefix. rewrite Hpages. reflexivity.
  - destruct (Z.gtb_spec (HEADER_HEIGHT + itemHeight first) PAGE_HEIGHT_ESTIMATE)
      as [_|Hfits]; [|lia]. simpl in Hpages.
    split; [apply pages_prefix; rewrite Hpages; reflexivity|].
    exists more. apply pages_prefix. rewrite Hpages. reflexivity.
Qed.

Lemma empties_step (st : LoopState) (item : InvoiceItem.t) :
  (forall idx : nat, chunkedPages st !! idx = Some [] -> idx = 0%nat) ->
  (chunkedPages st <> [] -> currentPageItems st <> []) ->
  (forall idx : nat, chunkedPages (paginate_step st item) !! idx = Some [] -> idx = 0%nat)
  /\ currentPageItems (paginate_step st item) <> []
  /\ (length (chunkedPages (paginate_step st item)) <= S (length (chunkedPages st)))%nat.
Proof.
  intros Hclosed Hcur. pose proof (step_current_nonempty st item) as Hne.
  split; [|split; [exact Hne|]]; unfold paginate_step;
    destruct (currentHeight st + itemHeight item >? PAGE_HEIGHT_ESTIMATE); simpl.
  - intros idx Hlook.
    apply lookup_app_Some in Hlook as [Hlook|[Hge Hlook]]; [eauto|].
    apply list_lookup_singleton_Some in Hlook as [Hidx Hempty].
    destruct (chunkedPages st) as [|c cs] eqn:E; [simpl in *; lia|].
    exfalso. apply Hcur; [discriminate|exact Hempty].
  - exact Hclosed.
  - rewrite length_app. simpl. lia.
  - lia.
Qed.

Lemma empties_fold (items : list InvoiceItem.t) (st : LoopState) :
  (forall idx : nat, chunkedPages st !! idx = Some [] -> idx = 0%nat) ->
  (chunkedPages st <> [] -> currentPageItems st <> []) ->
  (forall idx : nat,
      chunkedPages (fold_left paginate_step items st) !! idx = Some [] -> idx = 0%nat)
  /\ (length (chunkedPages (fold_left paginate_step items st))
      <= length (chunkedPages st) + length items)%nat.
Proof.
  revert st. induction items as [|item rest IH]; intros st Hclosed Hcur; simpl.
  - split; [exact Hclosed|lia].
  - destruct (empties_step st item Hclosed Hcur) as (Hclosed' & Hcur' & Hlen).
    destruct (IH (paginate_step st item) Hclosed' (fun _ => Hcur')) as [H1 H2].
    split; [exact H1|lia].
Qed.

(** X17. An empty page can only be the first page or the trailing footer
    page, and there are at most two pages more than items. *)
Theorem empty_pages_only_at_ends (items : list InvoiceItem.t) :
  (forall idx : nat,
      pages items !! idx = Some [] ->
      idx = 0%nat \/ S idx = length (pages items))
  /\ (length (pages items) <= length items + 2)%nat.
Proof.
  destruct (empties_fold items (mkLoop [] [] HEADER_HEIGHT)) as [Hclosed Hlen].
  { intros idx H. simpl in H. rewrite lookup_nil in H. discriminate. }
  { intros H. contradiction. }
  simpl in Hlen.
  assert (Hitem : forall idx : nat, itemPages items !! idx = Some [] -> idx = 0%nat).
  { intros idx. unfold itemPages, paginate_loop.
    destruct (currentPageItems (fold_left _ items _)) as [|x cur] eqn:E; simpl.
    - apply Hclosed.
    - intros Hlook. apply lookup_app_Some in Hlook as [Hlook|[_ Hlook]];
        [exact (Hclosed idx Hlook)|].
      apply list_lookup_singleton_Some in Hlook as [_ Hlook]. discriminate. }
  assert (Hcount : (length (itemPages items) <= length items + 1)%nat).
  { unfold itemPages, paginate_loop.
    destruct (0 <? length (currentPageItems _))%nat;
      [rewrite length_app; simpl|]; lia. }
  unfold pages.
  destruct (finalHeight items + FOOTER_HEIGHT >? PAGE_HEIGHT_ESTIMATE).
  - split.
    + intros idx Hlook. apply lookup_app_Some in Hlook as [Hlook|[Hge Hlook]].
      * left. exact (Hitem idx Hlook).
      * right. apply list_lookup_singleton_Some in Hlook as [Hidx _].
        rewrite length_app. simpl. lia.
    + rewrite length_app. simpl. lia.
  - split; [|lia]. intros idx Hlook. left. exact (Hitem idx Hlook).
Qed.

End PaginatorShape.

(** ** Chunked persistence: what the splitting keeps *)

Section ChunkingFacts.

Import App Calculator PagesColumn PlainObject.

Lemma reduce_same_lines (g : InvoiceItem.t -> InvoiceItem.t)
    (items : list InvoiceItem.t) (acc : float) :
  (forall item, InvoiceItem.price (g item) = InvoiceItem.price item
                /\ InvoiceItem.quantity (g item) = InvoiceItem.quantity item) ->
  reduce (fun acc item => acc + InvoiceItem.price item * InvoiceItem.quantity item)%float
    acc (map g items)
  = reduce (fun acc item => acc + InvoiceItem.price item * InvoiceItem.quantity item)%float
      acc items.
Proof.
  intros Hg. unfold reduce. revert acc.
  induction items as [|item rest IH]; intros acc; simpl; [reflexivity|].
  destruct (Hg item) as [-> ->]. apply IH.
Qed.

Lemma positive_falsy (p : float) : falsy p = true -> positive p = false.
Proof.
  intros H. unfold positive. destruct (0 <? p)%float eqn:E; [|reflexivity].
  apply positive_truthy in E as [Hz Hn]. unfold falsy in H.
  rewrite Hz, Hn in H. discriminate H.
Qed.

Lemma cleanItem_column (item : InvoiceItem.t) :
  match InvoiceItem.pages (cleanItem item) with
  | Some p => positive p
  | None => false
  end
  = match InvoiceItem.pages item with
    | Some p => positive p
    | None => false
    end.
Proof.
  unfold cleanItem. simpl. destruct (InvoiceItem.pages item) as [p|]; [|reflexivity].
  destruct (falsy p) eqn:E; [|reflexivity].
  symmetry. apply positive_falsy, E.
Qed.

(** X18. Splitting the images off keeps what the lists show: the total of
    the lightweight record is the total of the invoice, so is the total of
    an invoice after images were spliced in, and the lightweight record
    shows the pages column exactly when the invoice does, although falsy
    page counts are dropped from it. *)
Theorem chunking_keeps_amounts (invoice : InvoiceData.t) (docs : list ImageDoc) :
  InvoicesListView.calculateTotal (lightweightInvoice invoice)
  = InvoicesListView.calculateTotal invoice
  /\ InvoicesListView.calculateTotal (spliceImages invoice docs)
     = InvoicesListView.calculateTotal invoice
  /\ showPages (lightweightInvoice invoice) = showPages invoice.
Proof.
  split; [|split].
  - unfold InvoicesListView.calculateTotal, lightweightInvoice. cbn [InvoiceData.items
      InvoiceData.taxRate InvoiceData.discount with_items].
    rewrite reduce_same_lines; [reflexivity|]. intros item. split; reflexivity.
  - unfold spliceImages. destruct (buildImageMap docs); [|reflexivity].
    unfold InvoicesListView.calculateTotal, fullInvoice. cbn [InvoiceData.items
      InvoiceData.taxRate InvoiceData.discount with_items].
    rewrite reduce_same_lines; [reflexivity|]. intros item. split; reflexivity.
  - unfold showPages, lightweightInvoice. cbn [InvoiceData.items with_items].
    induction (InvoiceData.items invoice) as [|item rest IH]; [reflexivity|].
    cbn [map existsb]. rewrite IH, cleanItem_column. reflexivity.
Qed.

Lemma with_images_same (item : InvoiceItem.t) :
  with_images (InvoiceItem.images item) item = item.
Proof. destruct item. reflexivity. Qed.

Lemma payloadsOf_unmatched (itemId : string) (docs : list ImageDoc) :
  (forall doc, In doc docs -> split_first (doc_id doc) <> itemId) ->
  payloadsOf itemId docs = [].
Proof.
  unfold payloadsOf. induction docs as [|doc rest IH]; intros Hno; [reflexivity|].
  simpl. destruct (String.eqb_spec (split_first (doc_id doc)) itemId) as [E|_].
  - exfalso. apply (Hno doc); [left; reflexivity|exact E].
  - apply IH. intros d Hd. apply Hno. right. exact Hd.
Qed.

(** X19. What reassembly does with the child records it is given.  Each
    item receives the payloads of the records whose key starts with its id
    up to the first underscore, in the order of arrival; an item without
    such a record keeps its images; nothing but the image lists changes.
    Hence no records, or only records of unknown items, give back the
    invoice as it was.  The ids are taken not to name a member that the
    object [imageMap] inherits. *)
Theorem splice_by_arrival (invoice : InvoiceData.t) (docs : list ImageDoc) :
  Forall (fun item => plainKey (InvoiceItem.id item) = true) (InvoiceData.items invoice) ->
  Forall (fun doc => plainKey (split_first (doc_id doc)) = true) docs ->
  Forall2
    (fun item item' =>
       item' = with_images
                 (match payloadsOf (InvoiceItem.id item) docs with
                  | [] => InvoiceItem.images item
                  | payloads => payloads
                  end) item)
    (InvoiceData.items invoice) (InvoiceData.items (spliceImages invoice docs))
  /\ spliceImages invoice docs
     = with_items (InvoiceData.items (spliceImages invoice docs)) invoice
  /\ spliceImages invoice [] = invoice
  /\ ((forall doc, In doc docs ->
         ~ In (split_first (doc_id doc)) (map InvoiceItem.id (InvoiceData.items invoice))) ->
      spliceImages invoice docs = invoice).
Proof.
  intros _ Hplain.
  destruct (buildImageMap_plain docs Hplain) as (imageMap & Hbuilt & Hlookup).
  assert (Hitem : forall item,
             with_images
               (match imageMap !! InvoiceItem.id item with
                | Some images => images
                | None => InvoiceItem.images item
                end) item
             = with_images
                 (match payloadsOf (InvoiceItem.id item) docs with
                  | [] => InvoiceItem.images item
                  | payloads => payloads
                  end) item).
  { intros item. rewrite Hlookup.
    destruct (payloadsOf (InvoiceItem.id item) docs); reflexivity. }
  unfold spliceImages at 1 2 3 5. rewrite Hbuilt. unfold fullInvoice.
  split; [|split; [|split]].
  - cbn [InvoiceData.items with_items].
    induction (InvoiceData.items invoice) as [|item rest IH]; constructor;
      [apply Hitem|exact IH].
  - destruct invoice. reflexivity.
  - unfold spliceImages, fullInvoice. cbn [buildImageMap collectImages].
    destruct invoice as [i n d du p c items t di s b]. unfold with_items. simpl.
    f_equal. rewrite <- (map_id items) at 2. apply map_ext. intros item.
    rewrite lookup_empty. apply with_images_same.
  - intros Hunknown.
    destruct invoice as [i n d du p c items t di s b]. unfold with_items.
    simpl in *. f_equal. rewrite <- (map_id items) at 2.
    apply map_ext_in. intros item Hin. rewrite Hitem, payloadsOf_unmatched.
    + apply with_images_same.
    + intros doc Hdoc E. apply (Hunknown doc Hdoc). rewrite E.
      apply in_map. exact Hin.
Qed.

End ChunkingFacts.

(** ** Chunked persistence: the keys of the child records *)

Section ChildKeyFacts.

Import App.

Lemma index_to_string_inj (k k' : nat) :
  index_to_string k = index_to_string k' -> k = k'.
Proof.
  unfold index_to_string. intros H.
  apply DecimalNat.Unsigned.to_uint_inj.
  pose proof (DecimalString.NilEmpty.usu (Nat.to_uint k)) as Hk.
  pose proof (DecimalString.NilEmpty.usu (Nat.to_uint k')) as Hk'.
  rewrite H in Hk. rewrite Hk in Hk'. injection Hk' as ->. reflexivity.
Qed.

Lemma append_inj (prefix s t : string) :
  (prefix ++ s)%string = (prefix ++ t)%string -> s = t.
Proof.
  induction prefix as [|c rest IH]; simpl; intros H; [exact H|].
  injection H as H. exact (IH H).
Qed.

Lemma item_writes_keys (item : InvoiceItem.t) (start : nat) (images : list string)
    (doc : ImageDoc) :
  In doc
    (map_indexed
       (fun imgData idx =>
          mkImageDoc (InvoiceItem.id item ++ "_" ++ index_to_string idx) imgData)
       start images) ->
  exists k, (start <= k)%nat
            /\ doc_id doc = (InvoiceItem.id item ++ "_" ++ index_to_string k)%string.
Proof.
  revert start. induction images as [|img rest IH]; intros start; simpl; [intros []|].
  intros [<-|Hin].
  - exists start. split; [lia|reflexivity].
  - destruct (IH (S start) Hin) as (k & Hk & Hid). exists k. split; [lia|exact Hid].
Qed.

Lemma item_writes_nodup (item : InvoiceItem.t) (start : nat) (images : list string) :
  List.NoDup
    (map doc_id
       (map_indexed
          (fun imgData idx =>
             mkImageDoc (InvoiceItem.id item ++ "_" ++ index_to_string idx) imgData)
          start images)).
Proof.
  revert start. induction images as [|img rest IH]; intros start; simpl;
    constructor; [|apply IH].
  intros Hin. apply in_map_iff in Hin as (doc & Hid & Hdoc).
  destruct (item_writes_keys item (S start) rest doc Hdoc) as (k & Hk & Hkey).
  rewrite Hkey in Hid. apply append_inj, append_inj, index_to_string_inj in Hid.
  lia.
Qed.

Lemma item_writes_length {A B : Type} (f : A -> nat -> B) (start : nat) (xs : list A) :
  length (map_indexed f start xs) = length xs.
Proof.
  revert start. induction xs as [|x rest IH]; intros start; simpl;
    [reflexivity|]. rewrite IH. reflexivity.
Qed.

(** X20. The batch of a save holds one child record per image, and when
    the item ids are pairwise distinct and free of underscores the keys of
    these records are pairwise distinct, so that no image overwrites
    another in the subcollection. *)
Theorem child_keys_distinct (invoice : InvoiceData.t) :
  length (imageWrites invoice)
  = list_sum (map (fun item => length (InvoiceItem.images item))
                (InvoiceData.items invoice))
  /\ (List.NoDup (map InvoiceItem.id (InvoiceData.items invoice)) ->
      Forall (fun item => freeOfUnderscore (InvoiceItem.id item) = true)
        (InvoiceData.items invoice) ->
      List.NoDup (map doc_id (imageWrites invoice))).
Proof.
  unfold imageWrites. split.
  - induction (InvoiceData.items invoice) as [|item rest IH]; [reflexivity|].
    cbn [flat_map map list_sum]. rewrite length_app, item_writes_length, IH.
    reflexivity.
  - induction (InvoiceData.items invoice) as [|item rest IH]; intros Hnodup Hfree;
      [constructor|].
    apply NoDup_cons_iff in Hnodup as [Hfresh Hnodup].
    apply Forall_cons_iff in Hfree as [Hitem Hrest].
    cbn [flat_map map]. rewrite map_app.
    apply List.NoDup_app; [apply item_writes_nodup|exact (IH Hnodup Hrest)|].
    intros key Hhere Hthere.
    apply in_map_iff in Hhere as (doc & <- & Hdoc).
    destruct (item_writes_keys item 0 _ doc Hdoc) as (k & _ & Hkey).
    apply in_map_iff in Hthere as (doc' & Hsame & Hdoc').
    apply in_flat_map in Hdoc' as (other & Hother & Hdoc').
    destruct (item_writes_keys other 0 _ doc' Hdoc') as (k' & _ & Hkey').
    assert (Hfree' : freeOfUnderscore (InvoiceItem.id other) = true).
    { rewrite List.Forall_forall in Hrest. exact (Hrest other Hother). }
    assert (Hid : InvoiceItem.id other = InvoiceItem.id item).
    { rewrite <- (split_first_key (InvoiceItem.id other) (index_to_string k') Hfree').
      rewrite <- (split_first_key (InvoiceItem.id item) (index_to_string k) Hitem).
      rewrite <- Hkey, <- Hkey', Hsame. reflexivity. }
    apply Hfresh. rewrite <- Hid. apply in_map. exact Hother.
Qed.

End ChildKeyFacts.

(** ** Opening an invoice *)

Section EditFacts.

Import App.

Variable projectId : string.

Lemma edit_state (invoice : InvoiceData.t) (reply : Reply (list ImageDoc))
    (st : AppState) :
  step projectId st (EditInvoice invoice reply)
  = let fetches :=
      negb (isOffline st || negb (isConfigured projectId)) && negb (hasImages invoice) in
    mkState CREATE_INVOICE (invoices st) (clients st) (projects st) (appSettings st)
      (Some (if fetches
             then match reply with
                  | Resolved docs => spliceImages invoice docs
                  | Rejected _ => invoice
                  end
             else invoice))
      (loading st) (isOffline st) (localStorage st)
      (if fetches
       then log st ++ [Remote (GetInvoiceImages (InvoiceData.id invoice))]
       else log st).
Proof.
  unfold step, handler, handleEditInvoice, fetchInvoiceImages, render, bind.
  cbv beta.
  destruct (isOffline st || negb (isConfigured projectId));
    [|destruct (hasImages invoice); [|destruct reply]]; reflexivity.
Qed.

(** X21. Opening an invoice never changes the four collections, the local
    store or the ONLINE/OFFLINE state, and always shows the editor.  While
    OFFLINE or without configuration the invoice is taken as it is and
    nothing is fetched; when the fetch of the child records fails, the
    invoice is taken as it is as well and the store stays ONLINE. *)
Theorem edit_is_read_only (invoice : InvoiceData.t) (reply : Reply (list ImageDoc))
    (st : AppState) :
  let st' := step projectId st (EditInvoice invoice reply) in
  snapshot st' = snapshot st
  /\ localStorage st' = localStorage st
  /\ isOffline st' = isOffline st
  /\ currentView st' = CREATE_INVOICE
  /\ (isOffline st = true \/ isConfigured projectId = false ->
      activeInvoice st' = Some invoice /\ log st' = log st)
  /\ (forall e, reply = Rejected e -> activeInvoice st' = Some invoice).
Proof.
  cbv zeta. rewrite edit_state. cbv zeta.
  repeat (split; [reflexivity|]). split.
  - intros [Hoff|Hcfg]; [rewrite Hoff|rewrite Hcfg, orb_true_r]; split; reflexivity.
  - intros e ->. cbn [activeInvoice].
    destruct (negb _ && negb _); reflexivity.
Qed.

End EditFacts.

(** ** Dashboard figures *)

Section DashboardFacts.

Import Dashboard PlainObject.
Local Open Scope float_scope.

Variable monthName : string -> string.

Lemma reduce_snoc (keep : InvoiceData.t -> bool) (invoices : list InvoiceData.t)
    (inv : InvoiceData.t) :
  reduce (fun acc inv => acc + calculateInvoiceTotal inv) 0
    (List.filter keep (invoices ++ [inv]))
  = if keep inv
    then reduce (fun acc inv => acc + calculateInvoiceTotal inv) 0
           (List.filter keep invoices) + calculateInvoiceTotal inv
    else reduce (fun acc inv => acc + calculateInvoiceTotal inv) 0
           (List.filter keep invoices).
Proof.
  unfold reduce. rewrite List.filter_app. cbn [List.filter].
  destruct (keep inv).
  - rewrite fold_left_app. reflexivity.
  - rewrite app_nil_r. reflexivity.
Qed.

Lemma or_zero_zero : or_zero 0 = 0.
Proof. reflexivity. Qed.

Lemma addToMonth_amount (data : list (string * float)) (name other : string)
    (amount : float) :
  monthAmount (addToMonth data name amount) other
  = if String.eqb name other
    then Some (or_zero (match monthAmount data name with
                        | Some value => value
                        | None => 0
                        end) + amount)
    else monthAmount data other.
Proof.
  induction data as [|[key value] rest IH]; simpl.
  - destruct (String.eqb name other); reflexivity.
  - destruct (String.eqb_spec key name) as [->|Hne]; simpl.
    + destruct (String.eqb name other); reflexivity.
    + destruct (String.eqb_spec key other) as [->|Hother].
      * destruct (String.eqb_spec name other) as [E|_]; [congruence|reflexivity].
      * exact IH.
Qed.

Lemma addToMonth_keys (data : list (string * float)) (name : string) (amount : float) :
  List.NoDup (map fst data) ->
  List.NoDup (map fst (addToMonth data name amount))
  /\ (forall key, In key (map fst (addToMonth data name amount))
                  <-> key = name \/ In key (map fst data)).
Proof.
  induction data as [|[key value] rest IH]; simpl; intros Hnodup.
  - split; [constructor; [intros []|constructor]|].
    intros k. split; [intros [<-|[]]; left; reflexivity|intros [->|[]]; left; reflexivity].
  - apply NoDup_cons_iff in Hnodup as [Hfresh Hnodup].
    destruct (IH Hnodup) as [IHnodup IHkeys].
    destruct (String.eqb_spec key name) as [->|Hne]; simpl.
    + split; [constructor; assumption|]. intros k.
      split; [intros [E|Hin]|intros [E|[E|Hin]]]; subst; auto.
    + split.
      * constructor; [|exact IHnodup]. intros Hin. apply IHkeys in Hin as [E|Hin];
          [congruence|contradiction].
      * intros k. rewrite IHkeys.
        split; [intros [E|[E|Hin]]|intros [E|[E|Hin]]]; subst; auto.
Qed.

Lemma monthAmount_keys (data : list (string * float)) (name : string) :
  In name (map fst data) <-> monthAmount data name <> None.
Proof.
  induction data as [|[key value] rest IH]; simpl.
  - split; [intros []|intros H; apply H; reflexivity].
  - destruct (String.eqb_spec key name) as [->|Hne].
    + split; [discriminate|left; reflexivity].
    + rewrite <- IH. split; [intros [E|Hin]; [congruence|exact Hin]|right; assumption].
Qed.

Lemma chart_invariant (invoices : list InvoiceData.t) (data : list (string * float)) :
  List.NoDup (map fst data) ->
  let chart :=
    fold_left
      (fun monthlyData inv =>
         if hasStatus PAID inv
         then addToMonth monthlyData (monthName (InvoiceData.date inv))
                (calculateInvoiceTotal inv)
         else monthlyData)
      invoices data in
  List.NoDup (map fst chart)
  /\ (forall name,
        monthAmount chart name
        = match paidIn monthName name invoices with
          | [] => monthAmount data name
          | paid =>
              Some (fold_left (fun acc inv => or_zero acc + calculateInvoiceTotal inv)
                      paid
                      (match monthAmount data name with
                       | Some value => value
                       | None => 0
                       end))
          end).
Proof.
  cbv zeta. revert data.
  induction invoices as [|inv rest IH]; intros data Hnodup.
  - split; [exact Hnodup|]. intros name. reflexivity.
  - cbn [fold_left]. unfold paidIn. cbn [List.filter].
    destruct (hasStatus PAID inv); cbn [andb].
    + destruct (addToMonth_keys data (monthName (InvoiceData.date inv))
                  (calculateInvoiceTotal inv) Hnodup) as [Hnodup' _].
      destruct (IH _ Hnodup') as (H1 & H2).
      split; [exact H1|]. intros name. rewrite H2, addToMonth_amount.
      unfold paidIn.
      destruct (String.eqb_spec (monthName (InvoiceData.date inv)) name) as [->|Hne].
      * cbn [fold_left].
        destruct (List.filter _ rest); reflexivity.
      * reflexivity.
    + exact (IH data Hnodup).
Qed.

Lemma paidIn_nonempty (name : string) (invoices : list InvoiceData.t) :
  paidIn monthName name invoices <> []
  <-> exists inv, In inv invoices /\ hasStatus PAID inv = true
                  /\ monthName (InvoiceData.date inv) = name.
Proof.
  unfold paidIn. split.
  - intros Hne. destruct (List.filter _ invoices) as [|inv rest] eqn:E;
      [contradiction|].
    assert (Hin : In inv (List.filter
                            (fun inv => hasStatus PAID inv
                               && String.eqb (monthName (InvoiceData.date inv)) name)
                            invoices)) by (rewrite E; left; reflexivity).
    apply filter_In in Hin as [Hin Hkeep].
    apply andb_prop in Hkeep as [Hpaid Hname].
    exists inv. split; [exact Hin|]. split; [exact Hpaid|].
    apply String.eqb_eq, Hname.
  - intros (inv & Hin & Hpaid & Hname) E.
    assert (Hkept : In inv (List.filter
                              (fun inv => hasStatus PAID inv
                                 && String.eqb (monthName (InvoiceData.date inv)) name)
                              invoices)).
    { apply filter_In. split; [exact Hin|]. rewrite Hpaid.
      apply String.eqb_eq in Hname. rewrite Hname. reflexivity. }
    rewrite E in Hkept. destruct Hkept.
Qed.

(** X22. The revenue chart has one bar per month name, each month name
    once, and a month name has a bar exactly when a paid invoice is dated
    in a month of that name, whatever its year.  The bar is what the loop
    computes in double arithmetic: it starts from [0] and adds the totals of
    those invoices in the order of the list, a running sum that has become
    falsy counting as [0].  The locale's month names are taken not to name a
    member that the object [monthlyData] inherits. *)
Theorem chart_bars_by_month (invoices : list InvoiceData.t) :
  (forall date, plainKey (monthName date) = true) ->
  List.NoDup (map fst (chartData monthName invoices))
  /\ (forall name,
        In name (map fst (chartData monthName invoices))
        <-> exists inv, In inv invoices /\ hasStatus PAID inv = true
                        /\ monthName (InvoiceData.date inv) = name)
  /\ (forall name,
        monthAmount (chartData monthName invoices) name
        = match paidIn monthName name invoices with
          | [] => None
          | _ => Some (barOf monthName name invoices)
          end).
Proof.
  intros _.
  destruct (chart_invariant invoices [] ltac:(constructor)) as (H1 & H2).
  cbv zeta in *. unfold chartData.
  assert (H3 : forall name,
             monthAmount
               (fold_left
                  (fun monthlyData inv =>
                     if hasStatus PAID inv
                     then addToMonth monthlyData (monthName (InvoiceData.date inv))
                            (calculateInvoiceTotal inv)
                     else monthlyData)
                  invoices []) name
             = match paidIn monthName name invoices with
               | [] => None
               | _ => Some (barOf monthName name invoices)
               end).
  { intros name. rewrite H2. unfold barOf. cbn [monthAmount].
    destruct (paidIn monthName name invoices); reflexivity. }
  split; [exact H1|]. split; [|exact H3].
  intros name. rewrite monthAmount_keys, H3, <- paidIn_nonempty.
  destruct (paidIn monthName name invoices); split; intros H; congruence.
Qed.

Lemma status_partition (invoices : list InvoiceData.t) :
  (length (List.filter (hasStatus DRAFT) invoices)
   + length (List.filter (hasStatus PENDING) invoices)
   + length (List.filter (hasStatus PAID) invoices)
   + length (List.filter (hasStatus OVERDUE) invoices) = length invoices)%nat.
Proof.
  induction invoices as [|inv rest IH]; [reflexivity|].
  cbn [List.filter].
  destruct (hasStatus DRAFT inv) eqn:Hd, (hasStatus PENDING inv) eqn:Hp,
    (hasStatus PAID inv) eqn:Ha, (hasStatus OVERDUE inv) eqn:Ho;
    unfold hasStatus in Hd, Hp, Ha, Ho;
    destruct (InvoiceData.status inv); try discriminate; simpl; lia.
Qed.

(** X23. The dashboard figures, in the double arithmetic of the code: with
    no invoice, total revenue and the pending amount are [0]; one more
    invoice at the end of the list adds its total to the revenue when it is
    paid and to the pending amount when it is pending, and changes neither
    figure otherwise; and every invoice is counted once, as paid, pending,
    overdue or as a draft, which has no counter. *)
Theorem dashboard_figures (invoices : list InvoiceData.t) :
  totalRevenue [] = 0
  /\ pendingAmount [] = 0
  /\ (forall inv,
        totalRevenue (invoices ++ [inv])
        = if hasStatus PAID inv
          then totalRevenue invoices + calculateInvoiceTotal inv
          else totalRevenue invoices)
  /\ (forall inv,
        pendingAmount (invoices ++ [inv])
        = if hasStatus PENDING inv
          then pendingAmount invoices + calculateInvoiceTotal inv
          else pendingAmount invoices)
  /\ (paidCount invoices + pendingCount invoices + overdueCount invoices
      + length (List.filter (hasStatus DRAFT) invoices) = length invoices)%nat.
Proof.
  split; [reflexivity|]. split; [reflexivity|]. split; [|split].
  - intros inv. apply reduce_snoc.
  - intros inv. apply reduce_snoc.
  - unfold paidCount, pendingCount, overdueCount.
    pose proof (status_partition invoices). lia.
Qed.

End DashboardFacts.

(** ** Adding a client and creating an invoice *)

Section FormFacts.

Import App ClientsView NewInvoice.

Variable projectId : string.




Lemma padStart3_length (s : string) :
  String.length (padStart3 s) = Nat.max 3 (String.length s)
  /\ exists zeros,
       padStart3 s = (zeros ++ s)%string
       /\ zeros = string_of_list_ascii (repeat "0"%char (3 - String.length s)).
Proof.
  destruct s as [|a [|b [|c rest]]]; cbn.
  - split; [reflexivity|]. exists "000". split; reflexivity.
  - split; [reflexivity|]. exists "00". split; reflexivity.
  - split; [reflexivity|]. exists "0". split; reflexivity.
  - split; [reflexivity|]. exists "". split; reflexivity.
Qed.

Lemma create_state (randomId today inTwoWeeks year : string) (st : AppState) :
  snd (handleCreateNewInvoice randomId today inTwoWeeks year st)
  = mkState CREATE_INVOICE (invoices st) (clients st) (projects st) (appSettings st)
      (Some (createEmptyInvoice randomId today inTwoWeeks
               ("INV-" ++ year ++ "-"
                ++ padStart3 (index_to_string (length (invoices st) + 1)))%string
               (defaultBank (appSettings st))))
      (loading st) (isOffline st) (localStorage st) (log st).
Proof. reflexivity. Qed.

(** X25. A new invoice is only put under edit: the collections, the local
    store and the log are untouched until it is saved.  It has no line
    item, a total of zero, the status DRAFT and the default bank details of
    the settings, and its number ends with the count of invoices plus one,
    padded on the left with the character 0 to at least three characters.  Saving it, when its id
    is carried by no other invoice, appends it to the invoices. *)
Theorem new_invoice_is_not_stored (randomId today inTwoWeeks year : string)
    (quota : Quota) (reply : Reply unit) (st : AppState) :
  let st' := snd (handleCreateNewInvoice randomId today inTwoWeeks year st) in
  snapshot st' = snapshot st
  /\ localStorage st' = localStorage st
  /\ log st' = log st
  /\ currentView st' = CREATE_INVOICE
  /\ exists newInvoice padded,
       activeInvoice st' = Some newInvoice
       /\ InvoiceData.id newInvoice = randomId
       /\ InvoiceData.items newInvoice = []
       /\ Calculator.InvoiceEditor.total newInvoice = 0%float
       /\ InvoiceData.status newInvoice = DRAFT
       /\ InvoiceData.bankDetails newInvoice = defaultBank (appSettings st)
       /\ InvoiceData.invoiceNumber newInvoice = ("INV-" ++ year ++ "-" ++ padded)%string
       /\ (exists zeros,
             padded = (zeros ++ index_to_string (length (invoices st) + 1))%string
             /\ zeros
                = string_of_list_ascii
                    (repeat "0"%char
                       (3 - String.length
                              (index_to_string (length (invoices st) + 1)))))
       /\ (3 <= String.length padded)%nat
       /\ (~ In randomId (map InvoiceData.id (invoices st)) ->
           invoices (step projectId st' (SaveInvoice quota reply))
           = invoices st ++ [newInvoice]).
Proof.
  cbv zeta. rewrite create_state.
  repeat (split; [reflexivity|]).
  destruct (padStart3_length (index_to_string (length (invoices st) + 1)))
    as [Hlen Hzeros].
  eexists. exists (padStart3 (index_to_string (length (invoices st) + 1))).
  split; [reflexivity|].
  repeat (split; [reflexivity|]).
  split; [exact Hzeros|]. split; [rewrite Hlen; lia|].
  intros Hfresh. erewrite save_invoices by reflexivity.
  cbn [invoices InvoiceData.id createEmptyInvoice].
  destruct (existsb _ (invoices st)) eqn:Hex; [|reflexivity].
  exfalso. apply Hfresh. apply existsb_exists in Hex as (inv & Hin & Hid).
  apply String.eqb_eq in Hid. cbn in Hid. rewrite <- Hid. apply in_map. exact Hin.
Qed.

End FormFacts.

(** ** Sessions *)

Section SessionFacts.

Import App SessionLog.

Variable projectId : string.

Lemma filter_ids_nodup (id : string) (invs : list InvoiceData.t) :
  List.NoDup (map InvoiceData.id invs) ->
  List.NoDup
    (map InvoiceData.id
       (List.filter (fun inv => negb (String.eqb (InvoiceData.id inv) id)) invs)).
Proof.
  induction invs as [|inv rest IH]; simpl; intros Hnodup; [constructor|].
  apply NoDup_cons_iff in Hnodup as [Hfresh Hnodup].
  destruct (String.eqb (InvoiceData.id inv) id); simpl; [exact (IH Hnodup)|].
  constructor; [|exact (IH Hnodup)].
  intros Hin. apply Hfresh. apply in_map_iff in Hin as (inv' & Hid & Hin).
  apply List.filter_In in Hin as [Hin _]. rewrite <- Hid. apply in_map. exact Hin.
Qed.

Lemma upsert_ids_nodup (active : InvoiceData.t) (invs : list InvoiceData.t) :
  List.NoDup (map InvoiceData.id invs) ->
  List.NoDup
    (map InvoiceData.id
       (if existsb (fun inv => String.eqb (InvoiceData.id inv) (InvoiceData.id active)) invs
        then map (fun inv =>
                    if String.eqb (InvoiceData.id inv) (InvoiceData.id active)
                    then active else inv) invs
        else invs ++ [active])).
Proof.
  intros Hnodup.
  destruct (replace_same_id active invs) as (_ & Hids & _).
  destruct (existsb _ invs) eqn:Hex.
  - rewrite Hids. exact Hnodup.
  - rewrite map_app. simpl. apply List.NoDup_app; [exact Hnodup| |].
    + constructor; [intros []|constructor].
    + intros id Hin [<-|[]]. apply existsb_same_id in Hin. congruence.
Qed.

Lemma step_collections (a : Action) (st : AppState) :
  snapshot (step projectId st a)
  = if mutates a st then applyChange a st else snapshot st.
Proof.
  destruct (mutates a st) eqn:Hmut.
  - destruct (quotaOf a) as [|key] eqn:Hquota.
    + apply (mutation_step projectId a st Hmut Hquota).
    + apply (refused_step projectId a st key Hmut Hquota).
  - apply (other_step projectId a st Hmut).
Qed.

Lemma step_keeps_ids_distinct (a : Action) (st : AppState) :
  List.NoDup (map InvoiceData.id (invoices st)) ->
  List.NoDup (map InvoiceData.id (invoices (step projectId st a))).
Proof.
  intros Hnodup.
  change (invoices (step projectId st a))
    with (snap_invoices (snapshot (step projectId st a))).
  rewrite step_collections.
  destruct a; simpl; try exact Hnodup.
  - destruct confirmed; simpl; [apply filter_ids_nodup|]; exact Hnodup.
  - destruct (activeInvoice st) as [active|]; simpl;
      [apply upsert_ids_nodup|]; exact Hnodup.
Qed.

(** X26. Whatever the user does and whatever the remote store answers,
    invoice ids that are pairwise distinct stay pairwise distinct through a
    whole session. *)
Theorem session_keeps_ids_distinct (session : list Action) (st : AppState) :
  List.NoDup (map InvoiceData.id (invoices st)) ->
  List.NoDup (map InvoiceData.id (invoices (run projectId session st))).
Proof.
  unfold run. revert st.
  induction session as [|a rest IH]; intros st Hnodup; simpl; [exact Hnodup|].
  apply IH, step_keeps_ids_distinct, Hnodup.
Qed.

Lemma step_clients_projects (a : Action) (st : AppState) :
  clients (step projectId st a) = clients st ++ savedClients [a]
  /\ projects (step projectId st a) = projects st ++ savedProjects [a].
Proof.
  change (clients (step projectId st a))
    with (snap_clients (snapshot (step projectId st a))).
  change (projects (step projectId st a))
    with (snap_projects (snapshot (step projectId st a))).
  rewrite step_collections.
  destruct a; simpl; rewrite ?app_nil_r; try (split; reflexivity).
  - destruct confirmed; simpl; split; reflexivity.
  - destruct (activeInvoice st); simpl; split; reflexivity.
Qed.

Lemma savedClients_cons (a : Action) (rest : list Action) :
  savedClients (a :: rest) = savedClients [a] ++ savedClients rest.
Proof. destruct a; reflexivity. Qed.

Lemma savedProjects_cons (a : Action) (rest : list Action) :
  savedProjects (a :: rest) = savedProjects [a] ++ savedProjects rest.
Proof. destruct a; reflexivity. Qed.

Lemma session_clients_projects (session : list Action) (st : AppState) :
  clients (run projectId session st) = clients st ++ savedClients session
  /\ projects (run projectId session st) = projects st ++ savedProjects session.
Proof.
  unfold run. revert st.
  induction session as [|a rest IH]; intros st.
  - simpl. rewrite !app_nil_r. split; reflexivity.
  - cbn [fold_left]. destruct (IH (step projectId st a)) as [Hc Hp].
    destruct (step_clients_projects a st) as [Hc1 Hp1].
    rewrite Hc, Hp, (savedClients_cons a rest), (savedProjects_cons a rest),
      Hc1, Hp1, <- !app_assoc.
    split; reflexivity.
Qed.

Lemma import_clients_projects (parsed : Backup.Parsed) (confirmed : bool)
    (quota : Quota) (st : AppState) :
  let st' := Backup.importInto st parsed confirmed quota in
  match parsed, confirmed with
  | Backup.Document json, true =>
      clients st' = Backup.or_else (Backup.json_clients json) (clients st)
      /\ projects st' = Backup.or_else (Backup.json_projects json) (projects st)
  | _, _ => clients st' = clients st /\ projects st' = projects st
  end.
Proof.
  cbv zeta. unfold Backup.importInto, Backup.handleImportData, render, when.
  destruct parsed as [| |json]; destruct confirmed; try (split; reflexivity).
  destruct json as [[i|] [c|] [p|] [s|]]; destruct quota as [|[]];
    split; reflexivity.
Qed.

(** X27. Clients and projects are only ever added by the handlers of the
    application: through any sequence of user actions and of imports that
    replace nothing (a file that does not parse to a document, or an import
    that the user does not confirm), the clients are the clients it started
    with followed by the clients saved in between, in order, and the same
    holds for the projects; nothing keeps two clients from sharing an id.
    The one operation that removes or changes clients and projects is the
    confirmed import of a backup document: the clients become those of the
    document when it has the key, and likewise the projects. *)
Theorem clients_and_projects_only_grow (ops : list Backup.Operation) (st : AppState) :
  (forallb (fun op => negb (replaces op)) ops = true ->
   clients (Backup.runAll projectId ops st) = clients st ++ savedClients (handled ops)
   /\ projects (Backup.runAll projectId ops st)
      = projects st ++ savedProjects (handled ops))
  /\ (forall json quota,
        let st' := Backup.perform projectId st
                     (Backup.ImportData (Backup.Document json) true quota) in
        clients st' = Backup.or_else (Backup.json_clients json) (clients st)
        /\ projects st' = Backup.or_else (Backup.json_projects json) (projects st)).
Proof.
  split.
  - unfold Backup.runAll. revert st.
    induction ops as [|op rest IH]; intros st Hkeep.
    + simpl. rewrite !app_nil_r. split; reflexivity.
    + cbn [forallb] in Hkeep. apply andb_prop in Hkeep as [Hop Hrest].
      cbn [fold_left]. destruct (IH (Backup.perform projectId st op) Hrest) as [Hc Hp].
      rewrite Hc, Hp. destruct op as [a|parsed confirmed quota]; cbn [handled].
      * cbn [Backup.perform].
        destruct (step_clients_projects a st) as [Hc1 Hp1].
        rewrite (savedClients_cons a (handled rest)),
          (savedProjects_cons a (handled rest)), Hc1, Hp1, <- !app_assoc.
        split; reflexivity.
      * cbn [Backup.perform].
        pose proof (import_clients_projects parsed confirmed quota st) as Himp.
        cbv zeta in Himp.
        destruct parsed as [| |json]; destruct confirmed;
          try discriminate Hop; destruct Himp as [-> ->]; split; reflexivity.
  - intros json quota. exact (import_clients_projects (Backup.Document json) true quota st).
Qed.

Lemma step_alerts (a : Action) (st : AppState) :
  alerts (log (step projectId st a))
  = alerts (log st)
    ++ match a with
       | SaveInvoice quota reply =>
           match activeInvoice st, quota with
           | Some _, Accepted =>
               if negb (isOffline st) && isConfigured projectId then
                 match reply with
                 | Resolved _ => ["Invoice saved to cloud!"]
                 | Rejected e =>
                     if isSizeLimitError e
                     then ["One of the images is too large. Please try a smaller image."]
                     else ["Connection lost. Invoice saved locally."]
                 end
               else ["Invoice saved locally (Offline Mode)."]
           | _, _ => []
           end
       | SaveSettings _ Accepted reply =>
           if negb (isOffline st) && isConfigured projectId then
             match reply with
             | Resolved _ => ["Settings updated in cloud!"]
             | Rejected _ => ["Connection lost. Settings saved locally."]
             end
           else ["Settings saved locally."]
       | _ => []
       end.
Proof.
  destruct a; unfold step, handler, handleEditInvoice, fetchInvoiceImages,
    handleDeleteInvoice, handleSaveInvoice, handleSaveSettings, handleSaveClient,
    handleSaveProject, render, when, andThen, bind; cbv beta.
  - destruct (isOffline st || negb (isConfigured projectId));
      [|destruct (hasImages invoice); [|destruct reply]];
      cbn; rewrite ?alerts_app; cbn [alerts]; rewrite ?app_nil_r; reflexivity.
  - cbn. rewrite app_nil_r. reflexivity.
  - destruct confirmed; [|cbn; rewrite app_nil_r; reflexivity].
    destruct quota as [|[]]; try (cbn; rewrite app_nil_r; reflexivity).
    destruct (negb (isOffline st) && isConfigured projectId); [destruct reply|];
      cbn; rewrite ?alerts_app; cbn [alerts]; rewrite ?app_nil_r; reflexivity.
  - destruct (activeInvoice st); [|cbn; rewrite app_nil_r; reflexivity].
    destruct quota as [|[]]; try (cbn; rewrite app_nil_r; reflexivity).
    destruct (negb (isOffline st) && isConfigured projectId);
      [destruct reply as [v|e]; [|destruct (isSizeLimitError e)]|];
      cbn; rewrite ?alerts_app; cbn [alerts]; rewrite ?app_nil_r; reflexivity.
  - destruct quota as [|[]]; try (cbn; rewrite app_nil_r; reflexivity).
    destruct (negb (isOffline st) && isConfigured projectId); [destruct reply|];
      cbn; rewrite ?alerts_app; cbn [alerts]; rewrite ?app_nil_r; reflexivity.
  - destruct quota as [|[]]; try (cbn; rewrite app_nil_r; reflexivity).
    destruct (negb (isOffline st) && isConfigured projectId); [destruct reply|];
      cbn; rewrite ?alerts_app; cbn [alerts]; rewrite ?app_nil_r; reflexivity.
  - destruct quota as [|[]]; try (cbn; rewrite app_nil_r; reflexivity).
    destruct (negb (isOffline st) && isConfigured projectId); [destruct reply|];
      cbn; rewrite ?alerts_app; cbn [alerts]; rewrite ?app_nil_r; reflexivity.
Qed.

(** X28. Who is told what.  Saving an invoice or the settings, when the
    browser accepts the local write, raises exactly one notice, which says
    whether the data went to the cloud, stayed local, or met a lost
    connection (or, for an invoice, an image that is too large); when the
    local write throws, the handler ends before any notice.  Deleting an
    invoice, saving a client, saving a project and opening an invoice never
    raise a notice, not even when the remote call fails and the store goes
    OFFLINE. *)
Theorem notices_of_an_action (a : Action) (st : AppState) :
  (forall text, In text (alerts (log (step projectId st a))) ->
     In text (alerts (log st))
     \/ In text ["Invoice saved to cloud!";
                 "One of the images is too large. Please try a smaller image.";
                 "Connection lost. Invoice saved locally.";
                 "Invoice saved locally (Offline Mode).";
                 "Settings updated in cloud!";
                 "Connection lost. Settings saved locally.";
                 "Settings saved locally."])
  /\ (mutates a st = true ->
      quotaOf a = Accepted ->
      (exists quota reply, a = SaveInvoice quota reply)
      \/ (exists s quota reply, a = SaveSettings s quota reply) ->
      exists text, alerts (log (step projectId st a)) = alerts (log st) ++ [text])
  /\ (forall key, quotaOf a = Exceeded key ->
      alerts (log (step projectId st a)) = alerts (log st))
  /\ ((forall quota reply, a <> SaveInvoice quota reply) ->
      (forall s quota reply, a <> SaveSettings s quota reply) ->
      alerts (log (step projectId st a)) = alerts (log st)).
Proof.
  rewrite step_alerts. split; [|split; [|split]].
  - intros text Hin. apply in_app_or in Hin as [Hin|Hin]; [left; exact Hin|right].
    destruct a; try contradiction.
    + destruct (activeInvoice st); [|contradiction].
      destruct quota; [|contradiction].
      destruct (negb (isOffline st) && isConfigured projectId);
        [destruct reply as [v|e]; [|destruct (isSizeLimitError e)]|];
        destruct Hin as [<-|[]]; simpl; tauto.
    + destruct quota; [|contradiction].
      destruct (negb (isOffline st) && isConfigured projectId); [destruct reply|];
        destruct Hin as [<-|[]]; simpl; tauto.
  - intros Hmut Hquota [(quota & reply & ->)|(s & quota & reply & ->)];
      simpl in Hmut, Hquota; subst quota.
    + destruct (activeInvoice st); [|discriminate].
      destruct (negb (isOffline st) && isConfigured projectId);
        [destruct reply as [v|e]; [|destruct (isSizeLimitError e)]|];
        eexists; reflexivity.
    + destruct (negb (isOffline st) && isConfigured projectId); [destruct reply|];
        eexists; reflexivity.
  - intros key Hquota. destruct a; simpl in Hquota; try discriminate;
      subst; rewrite ?app_nil_r; try reflexivity.
    destruct (activeInvoice st); rewrite app_nil_r; reflexivity.
  - intros Hinv Hset. destruct a; rewrite ?app_nil_r; try reflexivity.
    + exfalso. exact (Hinv quota reply eq_refl).
    + exfalso. exact (Hset newSettings quota reply eq_refl).
Qed.

End SessionFacts.

(** ** The further properties on sample data *)

Section MoreSampleFacts.

Import App Samples MoreSamples PlainObject.

Lemma save_invoice_upserts_witness :
  In twoImages
    (invoices (step projectId onlineEditing (SaveInvoice Accepted (Resolved tt)))).
Proof.
  destruct (save_invoice_upserts projectId onlineEditing twoImages Accepted (Resolved tt))
    as (H & _).
  - reflexivity.
  - exact H.
Defined.

Lemma save_invoice_idempotent_witness :
  invoices (step projectId savedOnce (SaveInvoice (Exceeded PbInvoices)
                                        (Rejected networkError)))
  = invoices savedOnce.
Proof.
  destruct (save_invoice_idempotent projectId onlineEditing twoImages Accepted
              (Exceeded PbInvoices) (Resolved tt) (Rejected networkError)) as (_ & H).
  - reflexivity.
  - exact H.
Defined.

Lemma delete_invoice_removes_witness :
  invoices (step projectId savedOnce
              (DeleteInvoice "unknown" true Accepted (Resolved tt)))
  = invoices savedOnce.
Proof.
  destruct (delete_invoice_removes projectId savedOnce "unknown" Accepted (Resolved tt))
    as (_ & _ & H & _).
  apply H. vm_compute. intros [H1|[]]. discriminate H1.
Defined.

Lemma save_then_delete_witness :
  invoices (step projectId savedOnce (DeleteInvoice "inv1" true Accepted (Resolved tt)))
  = invoices onlineEditing.
Proof.
  destruct (save_then_delete projectId onlineEditing twoImages Accepted Accepted
              (Resolved tt) (Resolved tt)) as (_ & H).
  - reflexivity.
  - apply H. intros [].
Defined.

Lemma export_then_import_witness :
  snapshot (Backup.importInto onlineEditing
              (Backup.Document (Backup.handleExportData savedOnce)) true
              (Exceeded PbClients))
  = snapshot savedOnce.
Proof.
  destruct (export_then_import savedOnce onlineEditing (Exceeded PbClients))
    as (H & _).
  - reflexivity.
  - exact H.
Defined.

Lemma import_edges_witness :
  let st' := Backup.importInto onlineEditing
               (Backup.Document (Backup.handleExportData savedOnce)) true Accepted in
  localStorage st' = stored (snapshot st').
Proof.
  destruct (import_edges onlineEditing) as (H & _).
  destruct (H (Backup.handleExportData savedOnce) Accepted)
    as (_ & _ & _ & _ & Hmirror & _).
  destruct Hmirror as [Hls _]; [reflexivity|reflexivity|exact Hls].
Defined.

Lemma offline_start_restores_witness :
  snapshot (boot "your-app-id" (localStorage savedOnce) Accepted
              (Resolved (mkFetched [] [] [] None)))
  = snapshot savedOnce.
Proof.
  destruct (offline_start_restores "your-app-id" (localStorage savedOnce) Accepted
              (Resolved (mkFetched [] [] [] None))) as (_ & _ & _ & _ & H).
  - left. reflexivity.
  - apply H. reflexivity.
Defined.

Lemma online_start_overwrites_witness :
  isOffline (boot projectId (localStorage savedOnce) Accepted
               (Resolved (mkFetched [] [acme] [website] None))) = false.
Proof.
  destruct (online_start_overwrites projectId (localStorage savedOnce)
              (mkFetched [] [acme] [website] None)) as ((H & _) & _).
  - reflexivity.
  - exact H.
Defined.

Lemma remove_item_by_id_witness :
  EditorItems.handleRemoveItem "fresh" (EditorItems.handleAddItem "fresh" twoImages)
  = twoImages.
Proof.
  destruct (remove_item_by_id "fresh" twoImages) as (_ & _ & _ & H).
  apply H. vm_compute. intros [H1|[]]. discriminate H1.
Defined.

Lemma bulk_upload_all_or_nothing_witness :
  exists newItems,
    EditorItems.handleBulkUpload 1500 drawnId twoFiles twoImages
    = (with_items (InvoiceData.items twoImages ++ newItems) twoImages, None)
    /\ map InvoiceItem.description newItems = ["cover"; "Image Deliverable"].
Proof.
  destruct (bulk_upload_all_or_nothing 1500 drawnId twoFiles twoImages) as (H & _).
  destruct (H ["data:image/jpeg;base64,AAAA"; "data:image/jpeg;base64,BBBB"])
    as (newItems & H1 & _ & H2 & _).
  - discriminate.
  - reflexivity.
  - exists newItems. split; [exact H1|exact H2].
Defined.

Lemma update_item_last_write_wins_witness :
  EditorItems.handleUpdateItem "a" (EditorItems.QuantityField 7)
    (EditorItems.handleUpdateItem "a" (EditorItems.QuantityField 3) twoImages)
  = EditorItems.handleUpdateItem "a" (EditorItems.QuantityField 7) twoImages.
Proof.
  destruct (update_item_last_write_wins "a" (EditorItems.QuantityField 3)
              (EditorItems.QuantityField 7) twoImages) as (H & _).
  - reflexivity.
  - exact H.
Defined.

Lemma selection_keeps_items_witness :
  EditorItems.handleClientSelect [acme] "nobody" twoImages = twoImages.
Proof.
  destruct (selection_keeps_items [acme] [website] "nobody" twoImages)
    as (_ & _ & _ & _ & H & _).
  apply H. vm_compute. intros [H1|[]]. discriminate H1.
Defined.

Lemma item_height_by_rows_witness :
  Paginator.itemHeight (Paginator.itemWithImages "a" 0) = 45%Z.
Proof.
  destruct (item_height_by_rows (Paginator.itemWithImages "a" 0)) as (_ & H & _).
  apply H. reflexivity.
Defined.

Lemma fitting_items_share_a_page_witness :
  Paginator.pages threeSmallItems = [threeSmallItems].
Proof.
  destruct (fitting_items_share_a_page threeSmallItems) as (_ & H & _).
  - discriminate.
  - vm_compute. discriminate.
  - apply H. vm_compute. discriminate.
Defined.

Lemma first_item_page_witness :
  Paginator.pages [Paginator.itemWithImages "a" 26] !! 0%nat = Some []
  /\ exists more,
       Paginator.pages [Paginator.itemWithImages "a" 26] !! 1%nat
       = Some (Paginator.itemWithImages "a" 26 :: more).
Proof.
  destruct (first_item_page (Paginator.itemWithImages "a" 26) []) as (_ & H).
  apply H. reflexivity.
Defined.

Lemma empty_pages_only_at_ends_witness :
  2%nat = 0%nat \/ 3%nat = length (Paginator.pages [Paginator.itemWithImages "a" 26]).
Proof.
  destruct (empty_pages_only_at_ends [Paginator.itemWithImages "a" 26]) as (H & _).
  apply (H 2%nat). reflexivity.
Defined.

Lemma splice_by_arrival_witness :
  spliceImages twoImages [strayDoc] = twoImages.
Proof.
  assert (Hitems : Forall (fun item => plainKey (InvoiceItem.id item) = true)
                     (InvoiceData.items twoImages)).
  { constructor; [reflexivity|constructor]. }
  assert (Hdocs : Forall (fun doc => plainKey (split_first (doc_id doc)) = true)
                    [strayDoc]).
  { constructor; [reflexivity|constructor]. }
  destruct (splice_by_arrival twoImages [strayDoc] Hitems Hdocs) as (_ & _ & _ & H).
  apply H. intros doc [<-|[]]. vm_compute. intros [H1|[]]. discriminate H1.
Defined.

Lemma child_keys_distinct_witness :
  List.NoDup (map doc_id (imageWrites elevenImages)).
Proof.
  destruct (child_keys_distinct elevenImages) as (_ & H).
  apply H.
  - constructor; [intros []|constructor].
  - constructor; [reflexivity|constructor].
Defined.

Lemma edit_is_read_only_witness :
  activeInvoice (step projectId afterOversizedSettings
                   (EditInvoice (lightweightInvoice twoImages)
                      (Resolved (imageWrites twoImages))))
  = Some (lightweightInvoice twoImages).
Proof.
  destruct (edit_is_read_only projectId (lightweightInvoice twoImages)
              (Resolved (imageWrites twoImages)) afterOversizedSettings)
    as (_ & _ & _ & _ & H & _).
  apply H. left. reflexivity.
Defined.

Lemma shortMonth_plain (date : string) : PlainObject.plainKey (shortMonth date) = true.
Proof.
  unfold shortMonth.
  destruct (List.find _ monthTable) as [entry|] eqn:Hfind; [|reflexivity].
  apply List.find_some in Hfind. destruct Hfind as [Hin _].
  repeat (destruct Hin as [<-|Hin]; [reflexivity|]). destruct Hin.
Qed.

Lemma chart_bars_by_month_witness :
  (forall name,
      In name (map fst (Dashboard.chartData shortMonth fourDated))
      <-> exists inv, In inv fourDated /\ Dashboard.hasStatus PAID inv = true
                      /\ shortMonth (InvoiceData.date inv) = name)
  /\ map fst (Dashboard.chartData shortMonth fourDated) = ["Jan"; "Mar"]
  /\ Dashboard.monthAmount (Dashboard.chartData shortMonth fourDated) "Jan"
     = Some 107%float.
Proof.
  split.
  - destruct (chart_bars_by_month shortMonth fourDated shortMonth_plain)
      as (_ & H & _).
    exact H.
  - split; reflexivity.
Defined.


Lemma new_invoice_is_not_stored_witness :
  exists newInvoice,
    invoices (step projectId
                (snd (NewInvoice.handleCreateNewInvoice "r2" "2025-02-01" "2025-02-15"
                        "2025" savedOnce))
                (SaveInvoice Accepted (Resolved tt)))
    = invoices savedOnce ++ [newInvoice]
    /\ InvoiceData.invoiceNumber newInvoice = "INV-2025-002".
Proof.
  destruct (new_invoice_is_not_stored projectId "r2" "2025-02-01" "2025-02-15" "2025"
              Accepted (Resolved tt) savedOnce)
    as (_ & _ & _ & _ & newInvoice & padded & Hactive & _ & _ & _ & _ & _ & Hnumber
        & _ & _ & Hsave).
  exists newInvoice. split.
  - apply Hsave. vm_compute. intros [H1|[]]. discriminate H1.
  - injection Hactive as <-. reflexivity.
Defined.

Lemma session_keeps_ids_distinct_witness :
  List.NoDup
    (map InvoiceData.id
       (invoices (run projectId
                    [SaveInvoice Accepted (Resolved tt); SetData (Some elevenImages);
                     SaveInvoice (Exceeded PbInvoices) (Rejected networkError)]
                    onlineEditing))).
Proof.
  apply (session_keeps_ids_distinct projectId). constructor.
Defined.

Lemma clients_and_projects_only_grow_witness :
  clients (Backup.runAll projectId
             [Backup.Handle (SaveClient acme Accepted (Rejected networkError));
              Backup.ImportData Backup.SyntaxError true Accepted]
             onlineEditing)
  = clients onlineEditing ++ [acme].
Proof.
  destruct (clients_and_projects_only_grow projectId
              [Backup.Handle (SaveClient acme Accepted (Rejected networkError));
               Backup.ImportData Backup.SyntaxError true Accepted]
              onlineEditing) as (H & _).
  destruct H as [Hc _]; [reflexivity|exact Hc].
Defined.

Lemma notices_of_an_action_witness :
  SessionLog.alerts (log (step projectId onlineEditing
                            (SaveClient acme Accepted (Rejected networkError))))
  = SessionLog.alerts (log onlineEditing).
Proof.
  destruct (notices_of_an_action projectId
              (SaveClient acme Accepted (Rejected networkError)) onlineEditing)
    as (_ & _ & _ & H).
  apply H; intros; discriminate.
Defined.

End MoreSampleFacts.
